(** * test-coverage-agent: the orchestration loop and its collaborators

    A shallow embedding of the Go packages [config], [claude], [testgen],
    [coverage] and [orchestrator], followed by theorems about session state,
    prioritisation, the validate/repair ladder, the client's retry policy and
    the main loop.

    Conventions.
    - [float64] is Rocq's primitive binary64 [float]; Go's comparisons and
      subtraction are the IEEE ones of [PrimFloat].
    - [int] values are [Z].  The only arithmetic the code does on them is
      [CurrentIteration++] below [MaxIterations], [APICallCount++] and slice
      lengths, none of which can leave the 64-bit range in a run of the
      loop; [time.Duration] products are wrapped explicitly.
    - [map[string]T] is [gmap string T]; a nil map reads like the empty one.
    - Everything outside the process (clock, cancellation signal, coverage
      tool, HTTP backend, test tool chain, file system) is a [World]: a
      stream of answers per kind of call, with a cursor per stream. *)

From Stdlib Require Import ZArith Floats String List.
From stdpp Require Import gmap strings list sorting pretty.

Local Open Scope string_scope.
Local Open Scope list_scope.
Local Open Scope Z_scope.
Local Set Warnings "-register-all".

(** ** Go values *)

Module Go.

(** A [time.Time] instant, in nanoseconds since the zero [Time]. *)
Definition time : Type := Z.
(** A [time.Duration]: a signed 64-bit count of nanoseconds. *)
Definition Duration : Type := Z.

Definition Second : Duration := 1000000000.

Definition IsZero (t : time) : bool := t =? 0.
Definition Before (t u : time) : bool := t <? u.
Definition Sub (t u : time) : Duration := t - u.
Definition Add (t : time) (d : Duration) : time := t + d.

(** Two's complement wrap-around of an [int64] result. *)
Definition wrap64 (z : Z) : Z := (z + 2 ^ 63) mod 2 ^ 64 - 2 ^ 63.

(** [a * b] on [time.Duration]. *)
Definition mulDuration (a b : Duration) : Duration := wrap64 (a * b).

(** [int(f)] for a [float64]: truncation toward zero.  (For NaN and the
    infinities Go leaves the result to the implementation; 0 here.) *)
Definition float_to_int (f : float) : Z :=
  match Prim2SF f with
  | S754_finite s m e =>
      let v := Z.shiftl (Z.pos m) e in if s then - v else v
  | _ => 0
  end.

(** [strings.Contains]. *)
Fixpoint Contains (s substr : string) : bool :=
  String.prefix substr s
  || match s with
     | EmptyString => false
     | String _ s' => Contains s' substr
     end.

(** Go [error] values as this program builds them: the client's
    [RateLimitError] pointer, an error made by [fmt.Errorf("<msg>: %w", err)], and
    every other error (errors of the operating system and of libraries,
    [fmt.Errorf] without [%w], [context.Canceled]). *)
Inductive error : Type :=
| RateLimitError (ResetTime : time) (RetryAfter : Z)
| wrapError (msg : string) (err : error)
| errorString (msg : string).

(** The type assertion of [err] to a [claude.RateLimitError] pointer: it
    looks at the dynamic type of [err] itself and never unwraps. *)
Definition asRateLimitError (err : error) : option (time * Z) :=
  match err with
  | RateLimitError t r => Some (t, r)
  | _ => None
  end.

(** What [errors.As] would find: the first [RateLimitError] in the chain. *)
Fixpoint unwrapRateLimitError (err : error) : option (time * Z) :=
  match err with
  | RateLimitError t r => Some (t, r)
  | wrapError _ e => unwrapRateLimitError e
  | errorString _ => None
  end.

Definition contextCanceled : error := errorString "context canceled".

(** *** [sort.Slice]

    Since Go 1.19 [sort.Slice] runs pattern-defeating quicksort, which
    sorts a range of at most 12 elements by insertion sort. *)
Section Sort.
Context {A : Type} (less : A -> A -> bool).

(** The inner loop of [insertionSort_func]: [x] sits right of the sorted
    prefix and is swapped leftwards while it is [less] than its left
    neighbour.  [before] is that prefix, nearest neighbour first. *)
Fixpoint swapDown (x : A) (before : list A) : list A :=
  match before with
  | [] => [x]
  | y :: rest =>
      if less x y then y :: swapDown x rest else x :: y :: rest
  end.

Definition insertionSort (l : list A) : list A :=
  reverse (fold_left (fun before x => swapDown x before) l []).
End Sort.

Definition maxInsertion : nat := 12.

End Go.
Export Go.

(** What the Go standard library does and this development does not open:
    [fmt.Sscanf(s, "%d", &n)] read as the value left in [n] (0 when nothing
    was scanned), [Time.String] as [%v] prints it, and pattern-defeating
    quicksort on more than [maxInsertion] elements, of which only the
    documented contract of [sort.Slice] is used: the result is a
    rearrangement of the input, in order for a [less] that is a strict weak
    ordering.  ("The sort is not guaranteed to be stable.") *)
Class GoLibrary : Type := {
  Sscanf_d : string -> Z;
  Time_String : time -> string;
  pdqsort_long : forall A : Type, (A -> A -> bool) -> list A -> list A;
  pdqsort_long_perm :
    forall A (less : A -> A -> bool) l, pdqsort_long A less l ≡ₚ l;
  pdqsort_long_sorted :
    forall A (less : A -> A -> bool) l,
      (forall x, less x x = false) ->
      (forall x y z, less x y = true -> less y z = true -> less x z = true) ->
      (forall x y z, less x y = false -> less y z = false -> less x z = false) ->
      StronglySorted (fun x y => less y x = false) (pdqsort_long A less l)
}.

Definition sort_Slice `{GoLibrary} {A : Type} (less : A -> A -> bool)
    (x : list A) : list A :=
  if (length x <=? maxInsertion)%nat then insertionSort less x
  else pdqsort_long A less x.

(** [err.Error()]: [RateLimitError.Error] and the texts [fmt.Errorf] builds. *)
Fixpoint Error `{GoLibrary} (err : error) : string :=
  match err with
  | RateLimitError t _ => "rate limit exceeded, resets at " +:+ Time_String t
  | wrapError msg e => msg +:+ ": " +:+ Error e
  | errorString msg => msg
  end.

(** ** Package [config]: configuration and the persistent session state *)

Module Cfg.
(** [config.Config].  [ClaudeAPIKey] carries the tag [json:"-"]. *)
Record Config : Type := mkConfig {
  ProjectPath : string;
  TargetCoverage : float;
  StateFile : string;
  DryRun : bool;
  MaxIterations : Z;
  ClaudeAPIKey : string
}.
End Cfg.
Abbreviation Config := Cfg.Config.

(** [config.CoverageSnapshot]. *)
Record CoverageSnapshot : Type := mkSnapshot {
  Timestamp : time;
  Coverage : float;
  Iteration : Z;
  FilesAdded : Z
}.

(** [config.State]. *)
Record State : Type := mkState {
  CurrentIteration : Z;
  CurrentCoverage : float;
  TargetCoverage : float;
  ProcessedFiles : gmap string bool;
  FailedFiles : gmap string string;
  GeneratedTests : list string;
  FixedTests : list string;
  CoverageHistory : list CoverageSnapshot;
  LastAPICall : time;
  APICallCount : Z;
  RateLimitResetTime : time;
  ProjectPath : string;
  StartedAt : time;
  LastUpdatedAt : time;
  PausedAt : option time;
  Language : string
}.

(** Field assignments [s.F = v]. *)
Definition set_CurrentIteration (v : Z) (s : State) : State :=
  let 'mkState _ b c d e f g h i j k l m n o p := s in
  mkState v b c d e f g h i j k l m n o p.
Definition set_CurrentCoverage (v : float) (s : State) : State :=
  let 'mkState a _ c d e f g h i j k l m n o p := s in
  mkState a v c d e f g h i j k l m n o p.
Definition set_ProcessedFiles (v : gmap string bool) (s : State) : State :=
  let 'mkState a b c _ e f g h i j k l m n o p := s in
  mkState a b c v e f g h i j k l m n o p.
Definition set_FailedFiles (v : gmap string string) (s : State) : State :=
  let 'mkState a b c d _ f g h i j k l m n o p := s in
  mkState a b c d v f g h i j k l m n o p.
Definition set_GeneratedTests (v : list string) (s : State) : State :=
  let 'mkState a b c d e _ g h i j k l m n o p := s in
  mkState a b c d e v g h i j k l m n o p.
Definition set_FixedTests (v : list string) (s : State) : State :=
  let 'mkState a b c d e f _ h i j k l m n o p := s in
  mkState a b c d e f v h i j k l m n o p.
Definition set_CoverageHistory (v : list CoverageSnapshot) (s : State) : State :=
  let 'mkState a b c d e f g _ i j k l m n o p := s in
  mkState a b c d e f g v i j k l m n o p.
Definition set_LastAPICall (v : time) (s : State) : State :=
  let 'mkState a b c d e f g h _ j k l m n o p := s in
  mkState a b c d e f g h v j k l m n o p.
Definition set_APICallCount (v : Z) (s : State) : State :=
  let 'mkState a b c d e f g h i _ k l m n o p := s in
  mkState a b c d e f g h i v k l m n o p.
Definition set_RateLimitResetTime (v : time) (s : State) : State :=
  let 'mkState a b c d e f g h i j _ l m n o p := s in
  mkState a b c d e f g h i j v l m n o p.
Definition set_LastUpdatedAt (v : time) (s : State) : State :=
  let 'mkState a b c d e f g h i j k l m _ o p := s in
  mkState a b c d e f g h i j k l m v o p.

(** [NewState]; [now1] and [now2] are its two readings of [time.Now()]. *)
Definition NewState (projectPath : string) (targetCoverage : float)
    (language : string) (now1 now2 : time) : State :=
  {| CurrentIteration := 0;
     CurrentCoverage := 0%float;
     TargetCoverage := targetCoverage;
     ProcessedFiles := ∅;
     FailedFiles := ∅;
     GeneratedTests := [];
     FixedTests := [];
     CoverageHistory := [];
     LastAPICall := 0;
     APICallCount := 0;
     RateLimitResetTime := 0;
     ProjectPath := projectPath;
     StartedAt := now1;
     LastUpdatedAt := now2;
     PausedAt := None;
     Language := language |}.

(** The zero [State] that [json.Unmarshal] fills in. *)
Definition zeroState : State :=
  mkState 0 0%float 0%float ∅ ∅ [] [] [] 0 0 0 "" 0 0 None "".

(** [AddCoverageSnapshot]; [now] is its reading of [time.Now()]. *)
Definition AddCoverageSnapshot (now : time) (coverage : float) (s : State)
    : State :=
  set_CurrentCoverage coverage
    (set_CoverageHistory
       (CoverageHistory s ++
        [ {| Timestamp := now;
             Coverage := coverage;
             Iteration := CurrentIteration s;
             FilesAdded := Z.of_nat (length (GeneratedTests s))
                           + Z.of_nat (length (FixedTests s)) |} ])
       s).

Definition MarkFileProcessed (filename : string) (s : State) : State :=
  set_ProcessedFiles (<[filename := true]> (ProcessedFiles s)) s.

Definition MarkFileFailed (filename errorMsg : string) (s : State) : State :=
  set_FailedFiles (<[filename := errorMsg]> (FailedFiles s)) s.

(** [s.ProcessedFiles[filename]]: [false] for a missing key. *)
Definition IsFileProcessed (filename : string) (s : State) : bool :=
  default false (ProcessedFiles s !! filename).

(** [_, failed := o.state.FailedFiles[sourceFile]]. *)
Definition IsFileFailed (filename : string) (s : State) : bool :=
  bool_decide (is_Some (FailedFiles s !! filename)).

Definition AddGeneratedTest (testFile : string) (s : State) : State :=
  set_GeneratedTests (GeneratedTests s ++ [testFile]) s.

Definition AddFixedTest (testFile : string) (s : State) : State :=
  set_FixedTests (FixedTests s ++ [testFile]) s.

Definition RecordAPICall (now : time) (s : State) : State :=
  set_APICallCount (APICallCount s + 1) (set_LastAPICall now s).

Definition SetRateLimitReset (resetTime : time) (s : State) : State :=
  set_RateLimitResetTime resetTime s.

(** [ShouldWaitForRateLimit]; [now] is read only when a deadline is set. *)
Definition ShouldWaitForRateLimit (now : time) (s : State) : bool * Duration :=
  if IsZero (RateLimitResetTime s) then (false, 0)
  else if Before now (RateLimitResetTime s)
       then (true, Sub (RateLimitResetTime s) now)
       else (false, 0).

Definition NeedsTestGeneration (s : State) : bool :=
  PrimFloat.ltb (CurrentCoverage s) (TargetCoverage s).

(** ** [encoding/json] on [State]

    The state file is modelled as the JSON document it holds, a tree; the
    text layer ([MarshalIndent]'s printing, the parser) is not opened.  A
    number leaf records whether Go wrote it for an [int] or for a
    [float64], and a string leaf that is an RFC 3339 timestamp is a
    [JTime].  Instants are taken to lie in the years 0 to 9999, the ones
    [Time.MarshalJSON] accepts. *)

Inductive json : Type :=
| JNull
| JBool (b : bool)
| JInt (z : Z)
| JFloat (f : float)
| JString (s : string)
| JTime (t : time)
| JArray (l : list json)
| JObject (fields : list (string * json)).

Module Json.

(** [json.Marshal] on a [float64]: NaN and the infinities are an
    [UnsupportedValueError]. *)
Definition marshal_float (f : float) : option json :=
  if PrimFloat.is_nan f || PrimFloat.is_infinity f then None
  else Some (JFloat f).

Definition marshal_strings (l : list string) : json :=
  JArray (JString <$> l).

Definition marshal_bool_map (m : gmap string bool) : json :=
  JObject (prod_map id JBool <$> map_to_list m).

Definition marshal_string_map (m : gmap string string) : json :=
  JObject (prod_map id JString <$> map_to_list m).

Definition marshal_snapshot (c : CoverageSnapshot) : option json :=
  cov ← marshal_float (Coverage c);
  Some (JObject [ ("timestamp", JTime (Timestamp c));
                  ("coverage", cov);
                  ("iteration", JInt (Iteration c));
                  ("files_added", JInt (FilesAdded c)) ]).

(** [json.MarshalIndent(s, "", "  ")], field by field in declaration
    order under the struct tags; [paused_at] is [omitempty]. *)
Definition marshal_state (s : State) : option json :=
  cur ← marshal_float (CurrentCoverage s);
  tgt ← marshal_float (TargetCoverage s);
  hist ← mapM marshal_snapshot (CoverageHistory s);
  Some (JObject
    ([ ("current_iteration", JInt (CurrentIteration s));
       ("current_coverage", cur);
       ("target_coverage", tgt);
       ("processed_files", marshal_bool_map (ProcessedFiles s));
       ("failed_files", marshal_string_map (FailedFiles s));
       ("generated_tests", marshal_strings (GeneratedTests s));
       ("fixed_tests", marshal_strings (FixedTests s));
       ("coverage_history", JArray hist);
       ("last_api_call", JTime (LastAPICall s));
       ("api_call_count", JInt (APICallCount s));
       ("rate_limit_reset_time", JTime (RateLimitResetTime s));
       ("project_path", JString (ProjectPath s));
       ("started_at", JTime (StartedAt s));
       ("last_updated_at", JTime (LastUpdatedAt s)) ]
     ++ match PausedAt s with
        | Some t => [ ("paused_at", JTime t) ]
        | None => []
        end
     ++ [ ("language", JString (Language s)) ])).

(** The member a decoder uses for a key: the last one of that name. *)
Definition member (key : string) (fields : list (string * json))
    : option json :=
  snd <$> List.find (fun kv => String.eqb (fst kv) key) (reverse fields).

(** Decoding one member into a field that holds [old]: a missing member
    and [null] leave the field alone, a value of another JSON type is an
    [UnmarshalTypeError]. *)
Definition into {A} (dec : json -> option A) (old : A) (j : option json)
    : option A :=
  match j with
  | None | Some JNull => Some old
  | Some v => dec v
  end.

Definition as_int (j : json) : option Z :=
  match j with JInt z => Some z | _ => None end.
Definition as_float (j : json) : option float :=
  match j with JFloat f => Some f | _ => None end.
Definition as_string (j : json) : option string :=
  match j with JString s => Some s | _ => None end.
Definition as_bool (j : json) : option bool :=
  match j with JBool b => Some b | _ => None end.
Definition as_time (j : json) : option time :=
  match j with JTime t => Some t | _ => None end.

(** An element of a slice or a value of a map: [null] decodes to the zero
    value. *)
Definition elem {A} (dec : json -> option A) (zero : A) (j : json)
    : option A :=
  match j with JNull => Some zero | v => dec v end.

Definition as_list {A} (dec : json -> option A) (zero : A) (j : json)
    : option (list A) :=
  match j with
  | JArray l => mapM (elem dec zero) l
  | _ => None
  end.

(** Into a map: members are stored in order, so a later duplicate key
    overwrites an earlier one. *)
Definition as_map {A} (dec : json -> option A) (zero : A) (j : json)
    : option (gmap string A) :=
  match j with
  | JObject fields =>
      kvs ← mapM (fun kv => v ← elem dec zero (snd kv); Some (fst kv, v))
                 fields;
      Some (list_to_map (reverse kvs))
  | _ => None
  end.

Definition as_snapshot (j : json) : option CoverageSnapshot :=
  match j with
  | JObject o =>
      ts ← into as_time 0 (member "timestamp" o);
      cov ← into as_float 0%float (member "coverage" o);
      it ← into as_int 0 (member "iteration" o);
      fa ← into as_int 0 (member "files_added" o);
      Some (mkSnapshot ts cov it fa)
  | _ => None
  end.

Definition zeroSnapshot : CoverageSnapshot := mkSnapshot 0 0%float 0 0.

(** [json.Unmarshal(data, &state)] with [state] the zero [State]. *)
Definition unmarshal_state (j : json) : option State :=
  match j with
  | JNull => Some zeroState
  | JObject o =>
      a ← into as_int 0 (member "current_iteration" o);
      b ← into as_float 0%float (member "current_coverage" o);
      c ← into as_float 0%float (member "target_coverage" o);
      d ← into (as_map as_bool false) ∅ (member "processed_files" o);
      e ← into (as_map as_string "") ∅ (member "failed_files" o);
      f ← into (as_list as_string "") [] (member "generated_tests" o);
      g ← into (as_list as_string "") [] (member "fixed_tests" o);
      h ← into (as_list as_snapshot zeroSnapshot) []
            (member "coverage_history" o);
      i ← into as_time 0 (member "last_api_call" o);
      j ← into as_int 0 (member "api_call_count" o);
      k ← into as_time 0 (member "rate_limit_reset_time" o);
      l ← into as_string "" (member "project_path" o);
      m ← into as_time 0 (member "started_at" o);
      n ← into as_time 0 (member "last_updated_at" o);
      p ← into (fun v => Some <$> as_time v) None (member "paused_at" o);
      q ← into as_string "" (member "language" o);
      Some (mkState a b c d e f g h i j k l m n p q)
  | _ => None
  end.

End Json.

(** ** Package [coverage]: the report an analyzer produces *)

Module Cov.
(** [coverage.CoverageReport]. *)
Record CoverageReport : Type := mkReport {
  TotalCoverage : float;
  FileCoverage : gmap string float;
  UncoveredFiles : list string;
  UncoveredLines : gmap string (list Z);
  Language : string
}.
End Cov.
Abbreviation CoverageReport := Cov.CoverageReport.

(** The pure part of the [coverage.Analyzer] interface; [RunCoverage] and
    [ValidateTestFile] run external tools and are answered by the [World]. *)
Record Analyzer : Type := mkAnalyzer {
  GetLanguageName : string;
  GetTestFilePath : string -> string
}.

(** ** The world outside the process *)

(** What one HTTP exchange with the backend comes to. *)
Record Body : Type := mkBody {
  apiError : string;               (* the text built for a non-200 status *)
  parsed : list string + error     (* [json.Unmarshal] into [Response]:
                                      the texts of [Content], or its error *)
}.

Inductive HttpOutcome : Type :=
| SendFailed (err : error)         (* [httpClient.Do] failed *)
| ReadFailed (err : error)         (* [io.ReadAll] failed *)
| HttpResponse (StatusCode : Z) (retryAfter : string) (body : Body).

Inductive Event : Type :=
| EvRequest                        (* an HTTP request was sent *)
| EvSleep (d : Duration)           (* [time.Sleep], or a timer that fired *)
| EvCoverage                       (* [analyzer.RunCoverage] *)
| EvValidate (testFile : string)   (* [analyzer.ValidateTestFile] *)
| EvGenerate (sourceFile : string) (* [GenerateTestForFile] entered *)
| EvImprove (sourceFile : string)  (* [ImproveExistingTest] entered *)
| EvFix (testFile : string)        (* [FixBrokenTest] entered *)
| EvWriteFile (path : string)      (* [os.WriteFile] of a test file *)
| EvSaveState (path : string) (doc : json).

Record World : Type := mkWorld {
  clock : nat -> time;             ticks : nat;        (* [time.Now()] *)
  ctx_done : nat -> bool;          polls : nat;        (* [ctx.Done()] *)
  coverage_out : nat -> CoverageReport + error;
                                   measurements : nat; (* [RunCoverage] *)
  http_out : nat -> HttpOutcome;   requests : nat;
  validate_out : nat -> bool * string * option error;
                                   validations : nat;  (* [ValidateTestFile] *)
  io_out : nat -> option error;    io_ops : nat;       (* file operations *)
  files : gset string;             (* test files that [os.Stat] finds *)
  state_files : gmap string json;  (* state files, by path *)
  trace : list Event               (* newest first *)
}.

(** ** A state monad for code that talks to the world *)

Definition M (S A : Type) : Type := S -> A * S.

Definition ret {S A} (a : A) : M S A := fun s => (a, s).
Definition bind {S A B} (m : M S A) (k : A -> M S B) : M S B :=
  fun s => let (a, s') := m s in k a s'.
Definition gets {S A} (f : S -> A) : M S A := fun s => (f s, s).
Definition modify {S} (f : S -> S) : M S unit := fun s => (tt, f s).

(** [x <~ m; k] runs [m], then [k] with its result. *)
Notation "x <~ m ; k" := (bind m (fun x => k))
  (at level 20, m at level 100, k at level 200, only parsing).

Abbreviation W := (M World).

Module Sys.

Definition log (e : Event) : W unit :=
  modify (fun w =>
    let 'mkWorld a b c d e' f g h i j k l m n o := w in
    mkWorld a b c d e' f g h i j k l m n (e :: o)).

(** [time.Now()]. *)
Definition Now : W time := fun w =>
  let 'mkWorld a b c d e f g h i j k l m n o := w in
  (a b, mkWorld a (S b) c d e f g h i j k l m n o).

(** One look at [ctx.Done()]. *)
Definition Done : W bool := fun w =>
  let 'mkWorld a b c d e f g h i j k l m n o := w in
  (c d, mkWorld a b c (S d) e f g h i j k l m n o).

Definition RunCoverage : W (CoverageReport + error) := fun w =>
  let 'mkWorld a b c d e f g h i j k l m n o := w in
  (e f, mkWorld a b c d e (S f) g h i j k l m n (EvCoverage :: o)).

Definition Do : W HttpOutcome := fun w =>
  let 'mkWorld a b c d e f g h i j k l m n o := w in
  (g h, mkWorld a b c d e f g (S h) i j k l m n (EvRequest :: o)).

Definition ValidateTestFile (testFile : string)
    : W (bool * string * option error) := fun w =>
  let 'mkWorld a b c d e f g h i j k l m n o := w in
  (i j, mkWorld a b c d e f g h i (S j) k l m n (EvValidate testFile :: o)).

(** The outcome of the next file operation ([os.ReadFile], [os.MkdirAll],
    [os.WriteFile]): [None] when it succeeds. *)
Definition io : W (option error) := fun w =>
  let 'mkWorld a b c d e f g h i j k l m n o := w in
  (k l, mkWorld a b c d e f g h i j k (S l) m n o).

Definition Sleep (d : Duration) : W unit := log (EvSleep d).

(** [os.WriteFile(path, ...)] of a test file: after a success the file is
    there.  A write that fails is modelled as one that could not open the
    file, which leaves the files as they were; [os.WriteFile] can also
    fail after it has created or emptied the file.  The properties below
    that speak of a failed write speak of the error returned and of what
    the program does next, not of the files. *)
Definition WriteFile (path : string) : W (option error) :=
  r <~ io;
  match r with
  | Some err => ret (Some err)
  | None =>
      _ <~ modify (fun w =>
        let 'mkWorld a b c d e f g h i j k l m n o := w in
        mkWorld a b c d e f g h i j k l ({[ path ]} ∪ m) n
                (EvWriteFile path :: o));
      ret None
  end.

(** [os.WriteFile] of the state file: after a success the file holds the
    document.  A write that fails is modelled as one that could not open
    the file, which leaves it as it was; [os.WriteFile] can also fail after
    it has emptied the file or written a part of it.  The properties below
    that speak of a failed save speak of the error returned and of the
    state in memory, not of the file. *)
Definition WriteState (path : string) (doc : json) : W (option error) :=
  r <~ io;
  match r with
  | Some err => ret (Some err)
  | None =>
      _ <~ modify (fun w =>
        let 'mkWorld a b c d e f g h i j k l m n o := w in
        mkWorld a b c d e f g h i j k l m (<[path := doc]> n)
                (EvSaveState path doc :: o));
      ret None
  end.

(** [os.ReadFile] of the state file: the file may be missing, and reading
    an existing one may fail. *)
Definition ReadState (path : string) : W (json + error) :=
  w <~ gets id;
  match state_files w !! path with
  | None => ret (inr (errorString "open: no such file or directory"))
  | Some doc =>
      r <~ io;
      match r with
      | Some err => ret (inr err)
      | None => ret (inl doc)
      end
  end.

(** [fileExists]. *)
Definition fileExists (path : string) : W bool :=
  gets (fun w => bool_decide (path ∈ files w)).

End Sys.

(** [orchestrator.WorkItem]. *)
Module WI.
Record WorkItem : Type := mkWorkItem {
  SourceFile : string;
  TestFile : string;
  CurrentCoverage : float;
  UncoveredLines : list Z;
  Priority : Z;
  Exists : bool
}.
End WI.
Abbreviation WorkItem := WI.WorkItem.

(** [testgen.ValidationResult], without [FailedTests] and [CoverageGained],
    which nothing reads. *)
Record ValidationResult : Type := mkResult {
  Success : bool;
  CompilationOK : bool;
  TestsPassed : bool;
  Output : string;
  ErrorMessage : string
}.

(** What [ValidateAndRetry] returns: a result with a nil error, or an error
    with the result of the validation before it, if any. *)
Inductive Validated : Type :=
| Checked (result : ValidationResult)
| Broken (result : option ValidationResult) (err : error).

(** How one pass of the main loop ends. *)
Inductive Step : Type :=
| Continue                         (* go round again *)
| Return (err : option error).     (* [Run] returns *)

Inductive RunResult : Type :=
| Finished (err : option error)
| OutOfFuel.

Definition RetryMaxAttempts : Z := 3.
Definition RetryBaseDelay : Duration := 2 * Second.

Section Agent.
Context `{GoLibrary} (analyzer : Analyzer) (cfg : Config).

(** *** Package [claude] *)

(** [Client.makeRequest]. *)
Definition makeRequest : W (list string + error) :=
  out <~ Sys.Do;
  match out with
  | SendFailed err => ret (inr (wrapError "failed to send request" err))
  | ReadFailed err =>
      ret (inr (wrapError "failed to read response body" err))
  | HttpResponse status retryHeader body =>
      if status =? 429 then
        if negb (String.eqb retryHeader "") then
          let retryAfter := Sscanf_d retryHeader in
          now <~ Sys.Now;
          ret (inr (RateLimitError
                       (Add now (mulDuration retryAfter Second))
                       retryAfter))
        else
          now <~ Sys.Now;
          ret (inr (RateLimitError (Add now (60 * Second)) 60))
      else if negb (status =? 200) then
        ret (inr (errorString (apiError body)))
      else
        match parsed body with
        | inr err =>
            ret (inr (wrapError "failed to unmarshal response" err))
        | inl content => ret (inl content)
        end
  end.

(** The retry loop of [Client.SendMessage], [left] attempts before the
    bound [RetryMaxAttempts] is reached. *)
Fixpoint sendAttempts (left : nat) (attempt : Z) (lastErr : option error)
    : W (string + error) :=
  match left with
  | O =>
      ret (inr match lastErr with
                | Some err => wrapError "failed after 3 attempts" err
                | None => errorString "failed after 3 attempts: %!w(<nil>)"
                end)
  | S left' =>
      _ <~ (if 0 <? attempt
            then Sys.Sleep (mulDuration RetryBaseDelay (2 ^ (attempt - 1)))
            else ret tt);
      r <~ makeRequest;
      match r with
      | inr err =>
          match asRateLimitError err with
          | Some _ => ret (inr err)
          | None => sendAttempts left' (attempt + 1) (Some err)
          end
      | inl (text :: _) => ret (inl text)
      | inl [] => ret (inr (errorString "empty response from Claude API"))
      end
  end.

Definition SendMessage : W (string + error) :=
  sendAttempts (Z.to_nat RetryMaxAttempts) 0 None.

(** *** Package [testgen]: the generator

    Prompts and the code extracted from a reply only decide what is
    written into the test file, which the model does not keep. *)

Definition GenerateTestForFile (sourceFile : string) : W (string + error) :=
  _ <~ Sys.log (EvGenerate sourceFile);
  rd <~ Sys.io;
  match rd with
  | Some err => ret (inr (wrapError "failed to read source file" err))
  | None =>
      resp <~ SendMessage;
      match resp with
      | inr err => ret (inr (wrapError "failed to generate test" err))
      | inl _ =>
          let testFilePath := GetTestFilePath analyzer sourceFile in
          mk <~ Sys.io;
          match mk with
          | Some err =>
              ret (inr (wrapError "failed to create test directory" err))
          | None =>
              wr <~ Sys.WriteFile testFilePath;
              match wr with
              | Some err =>
                  ret (inr (wrapError "failed to write test file" err))
              | None => ret (inl testFilePath)
              end
          end
      end
  end.

Definition FixBrokenTest (testFile errorOutput : string)
    : W (string + error) :=
  _ <~ Sys.log (EvFix testFile);
  rd <~ Sys.io;
  match rd with
  | Some err => ret (inr (wrapError "failed to read test file" err))
  | None =>
      resp <~ SendMessage;
      match resp with
      | inr err => ret (inr (wrapError "failed to fix test" err))
      | inl _ =>
          wr <~ Sys.WriteFile testFile;
          match wr with
          | Some err =>
              ret (inr (wrapError "failed to write fixed test file" err))
          | None => ret (inl testFile)
          end
      end
  end.

Definition ImproveExistingTest (sourceFile testFile : string)
    : W (string + error) :=
  _ <~ Sys.log (EvImprove sourceFile);
  rd <~ Sys.io;
  match rd with
  | Some err => ret (inr (wrapError "failed to read source file" err))
  | None =>
      rd' <~ Sys.io;
      match rd' with
      | Some err => ret (inr (wrapError "failed to read test file" err))
      | None =>
          resp <~ SendMessage;
          match resp with
          | inr err => ret (inr (wrapError "failed to improve test" err))
          | inl _ =>
              wr <~ Sys.WriteFile testFile;
              match wr with
              | Some err =>
                  ret (inr (wrapError "failed to write improved test file"
                                       err))
              | None => ret (inl testFile)
              end
          end
      end
  end.

(** *** Package [testgen]: the validator *)

(** [ValidateTest] after the call of [analyzer.ValidateTestFile]: what it
    makes of the tool's answer. *)
Definition verdict (out : bool * string * option error)
    : ValidationResult + error :=
  let '(success, output, err) := out in
  match err with
  | Some e => inr (wrapError "validation error" e)
  | None =>
      if Contains output "compilation failed"
         || Contains output "build failed"
         || (Contains output "error:"
             && Contains output "cannot find symbol")
      then inl (mkResult false false false output "Compilation failed")
      else if success
      then inl (mkResult true true true output "")
      else inl (mkResult false true false output "Tests failed")
  end.

Definition ValidateTest (testFile : string) : W (ValidationResult + error) :=
  out <~ Sys.ValidateTestFile testFile;
  ret (verdict out).

(** The [for] loop of [ValidateAndRetry] with [left] passes to go, and
    the validation after it. *)
Fixpoint retryLadder (testFile : string) (maxRetries : Z) (left : nat)
    (attempt : Z) : W Validated :=
  match left with
  | O =>
      r <~ ValidateTest testFile;
      match r with
      | inr err => ret (Broken None err)
      | inl result => ret (Checked result)
      end
  | S left' =>
      r <~ ValidateTest testFile;
      match r with
      | inr err => ret (Broken None err)
      | inl result =>
          if Success result then ret (Checked result)
          else if attempt <? maxRetries then
            fx <~ FixBrokenTest testFile (Output result);
            match fx with
            | inr err =>
                ret (Broken (Some result)
                             (wrapError "failed to fix test" err))
            | inl _ => retryLadder testFile maxRetries left' (attempt + 1)
            end
          else retryLadder testFile maxRetries left' (attempt + 1)
      end
  end.

(** [for attempt := 0; attempt <= maxRetries; attempt++] makes
    [maxRetries + 1] passes, none for a negative [maxRetries]. *)
Definition ValidateAndRetry (testFile : string) (maxRetries : Z)
    : W Validated :=
  retryLadder testFile maxRetries (Z.to_nat (maxRetries + 1)) 0.

(** *** Package [orchestrator]

    The orchestrator owns a [State] and runs in the world.  The optional
    git collaborator only creates a branch and commits; it reads and
    writes nothing modelled here and is left out. *)

Definition lift {A} (m : W A) : M (State * World) A :=
  fun sw => let (a, w') := m (snd sw) in (a, (fst sw, w')).
Definition update (f : State -> State) : M (State * World) unit :=
  modify (fun sw => (f (fst sw), snd sw)).
Definition state : M (State * World) State := gets fst.

(** [Orchestrator.SaveState]: [State.SaveState] on [config.StateFile]. *)
Definition SaveState : M (State * World) (option error) :=
  now <~ lift Sys.Now;
  _ <~ update (set_LastUpdatedAt now);
  s <~ state;
  match Json.marshal_state s with
  | None =>
      ret (Some (wrapError "failed to marshal state"
                           (errorString "json: unsupported value")))
  | Some doc =>
      wr <~ lift (Sys.WriteState (Cfg.StateFile cfg) doc);
      match wr with
      | Some err => ret (Some (wrapError "failed to write state file" err))
      | None => ret None
      end
  end.

(** [Orchestrator.LoadState]: [config.LoadState], then [o.state = state]. *)
Definition LoadState : M (State * World) (option error) :=
  r <~ lift (Sys.ReadState (Cfg.StateFile cfg));
  match r with
  | inr err => ret (Some (wrapError "failed to read state file" err))
  | inl doc =>
      match Json.unmarshal_state doc with
      | None =>
          ret (Some (wrapError "failed to unmarshal state"
                               (errorString "json: cannot unmarshal")))
      | Some loaded => _ <~ update (fun _ => loaded); ret None
      end
  end.

(** One pass of the loop in [prioritizeWorkItems]: [None] for a file that
    is skipped.  [fs] is the set of existing files [fileExists] looks
    into. *)
Definition workItemFor (report : CoverageReport) (s : State)
    (fs : gset string) (sourceFile : string) : option WorkItem :=
  if IsFileProcessed sourceFile s then None
  else if IsFileFailed sourceFile s then None
  else
    let testFile := GetTestFilePath analyzer sourceFile in
    let uncoveredLines :=
      default [] (Cov.UncoveredLines report !! sourceFile) in
    let currentCoverage :=
      default 0%float (Cov.FileCoverage report !! sourceFile) in
    let priority := float_to_int (PrimFloat.sub 100%float currentCoverage) in
    let testExists := bool_decide (testFile ∈ fs) in
    Some (WI.mkWorkItem sourceFile testFile currentCoverage uncoveredLines
                        priority testExists).

(** [items[i].Priority > items[j].Priority]. *)
Definition higherPriority (x y : WorkItem) : bool :=
  WI.Priority y <? WI.Priority x.

Definition prioritizeWorkItems (report : CoverageReport) (s : State)
    (fs : gset string) : list WorkItem :=
  sort_Slice higherPriority
    (omap (workItemFor report s fs) (Cov.UncoveredFiles report)).

(** [processFile], first half: a new test file is generated for the unit,
    or its existing one improved; in a dry run neither. *)
Definition obtainTest (item : WorkItem) : M (State * World) (string + error) :=
  if negb (WI.Exists item) then
    if negb (Cfg.DryRun cfg) then
      now <~ lift Sys.Now;
      _ <~ update (RecordAPICall now);
      g <~ lift (GenerateTestForFile (WI.SourceFile item));
      match g with
      | inr err => ret (inr (wrapError "failed to generate test" err))
      | inl testFile =>
          _ <~ update (AddGeneratedTest testFile); ret (inl testFile)
      end
    else ret (inl (WI.TestFile item))
  else
    if negb (Cfg.DryRun cfg) then
      now <~ lift Sys.Now;
      _ <~ update (RecordAPICall now);
      g <~ lift (ImproveExistingTest (WI.SourceFile item) (WI.TestFile item));
      match g with
      | inr err => ret (inr (wrapError "failed to improve test" err))
      | inl testFile =>
          _ <~ update (AddFixedTest testFile); ret (inl testFile)
      end
    else ret (inl (WI.TestFile item)).

(** [processFile], second half: "Validate the test" and "Mark file as
    processed". *)
Definition checkAndRecord (item : WorkItem) (testFile : string)
    : M (State * World) (option error) :=
  if negb (Cfg.DryRun cfg) then
    v <~ lift (ValidateAndRetry testFile 2);
    match v with
    | Broken _ err => ret (Some (wrapError "validation error" err))
    | Checked result =>
        if negb (Success result) then
          _ <~ update (MarkFileFailed (WI.SourceFile item)
                                      (ErrorMessage result));
          ret None
        else
          _ <~ update (MarkFileProcessed (WI.SourceFile item));
          ret None
    end
  else
    _ <~ update (MarkFileProcessed (WI.SourceFile item));
    ret None.

Definition processFile (item : WorkItem) : M (State * World) (option error) :=
  cancelled <~ lift Sys.Done;
  if cancelled then ret (Some contextCanceled)
  else
    made <~ obtainTest item;
    match made with
    | inr err => ret (Some err)
    | inl testFile => checkAndRecord item testFile
    end.

(** "Save state after each iteration", then round again. *)
Definition saveAndContinue : M (State * World) Step :=
  sv <~ SaveState;
  match sv with
  | Some err => ret (Return (Some (wrapError "failed to save state" err)))
  | None => ret Continue
  end.

(** The body of the main loop of [Run], first part: the look at the
    cancellation signal and the wait for a rate limit to reset.  [Some e]
    when [Run] returns [e] from here. *)
Definition awaitTurn : M (State * World) (option (option error)) :=
  cancelled <~ lift Sys.Done;
  if cancelled then e <~ SaveState; ret (Some e)
  else
    s <~ state;
    wait <~ (if IsZero (RateLimitResetTime s) then ret (false, 0)
             else now <~ lift Sys.Now; ret (ShouldWaitForRateLimit now s));
    if fst wait then
      sv <~ SaveState;
      match sv with
      | Some err => ret (Some (Some (wrapError "failed to save state" err)))
      | None =>
          c <~ lift Sys.Done;
          if c then e <~ SaveState; ret (Some e)
          else _ <~ lift (Sys.Sleep (snd wait)); ret None
      end
    else ret None.

(** Second part, from [o.state.CurrentIteration++] on: measure, stop at
    the target, else work on the first work item and record the outcome. *)
Definition improve : M (State * World) Step :=
  _ <~ update (fun s => set_CurrentIteration (CurrentIteration s + 1) s);
  cov <~ lift Sys.RunCoverage;
  match cov with
  | inr err =>
      ret (Return (Some (wrapError "failed to run coverage analysis" err)))
  | inl report =>
      now <~ lift Sys.Now;
      _ <~ update (AddCoverageSnapshot now (Cov.TotalCoverage report));
      if PrimFloat.leb (Cfg.TargetCoverage cfg) (Cov.TotalCoverage report)
      then e <~ SaveState; ret (Return e)
      else
        sw <~ gets id;
        match prioritizeWorkItems report (fst sw) (files (snd sw)) with
        | [] => e <~ SaveState; ret (Return e)
        | workItem :: _ =>
            perr <~ processFile workItem;
            match perr with
            | Some err =>
                match asRateLimitError err with
                | Some (resetTime, _) =>
                    _ <~ update (SetRateLimitReset resetTime);
                    saveAndContinue
                | None =>
                    _ <~ update (MarkFileFailed (WI.SourceFile workItem)
                                                (Error err));
                    saveAndContinue
                end
            | None => saveAndContinue
            end
        end
  end.

Definition iteration : M (State * World) Step :=
  stopped <~ awaitTurn;
  match stopped with
  | Some e => ret (Return e)
  | None => improve
  end.

(** [for o.state.CurrentIteration < o.config.MaxIterations]. *)
Fixpoint mainLoop (fuel : nat) : M (State * World) RunResult :=
  s <~ state;
  if CurrentIteration s <? Cfg.MaxIterations cfg then
    match fuel with
    | O => ret OutOfFuel
    | S fuel' =>
        st <~ iteration;
        match st with
        | Continue => mainLoop fuel'
        | Return e => ret (Finished e)
        end
    end
  else e <~ SaveState; ret (Finished e).

(** [Orchestrator.Run] before the loop: "Run initial coverage analysis to
    show starting point".  [Some e] when [Run] returns [e] from here. *)
Definition analyseFirst : M (State * World) (option (option error)) :=
  cov <~ lift Sys.RunCoverage;
  match cov with
  | inr err =>
      ret (Some (Some (wrapError "failed to run initial coverage analysis"
                                 err)))
  | inl initialReport =>
      now <~ lift Sys.Now;
      _ <~ update (AddCoverageSnapshot now (Cov.TotalCoverage initialReport));
      let coverageGap :=
        PrimFloat.sub (Cfg.TargetCoverage cfg)
                      (Cov.TotalCoverage initialReport) in
      if PrimFloat.ltb 0%float coverageGap then
        s <~ state;
        if negb (NeedsTestGeneration s) then e <~ SaveState; ret (Some e)
        else ret None
      else e <~ SaveState; ret (Some e)
  end.

(** [Orchestrator.Run].  Every pass of the loop counts [CurrentIteration]
    up, so [MaxIterations - CurrentIteration] passes are enough
    ([Run_returns] below). *)
Definition Run : M (State * World) RunResult :=
  early <~ analyseFirst;
  match early with
  | Some e => ret (Finished e)
  | None =>
      s <~ state;
      mainLoop (Z.to_nat (Cfg.MaxIterations cfg - CurrentIteration s))
  end.

(** [orchestrator.New] (with the analyzer already detected) and [main]:
    a new state, the saved one instead on [-resume], then [Run]; after an
    error of [Run] the state is saved once more. *)
Definition New : W State :=
  now1 <~ Sys.Now;
  now2 <~ Sys.Now;
  ret (NewState (Cfg.ProjectPath cfg) (Cfg.TargetCoverage cfg)
                (GetLanguageName analyzer) now1 now2).

Definition main (resume : bool) : W (RunResult * State) :=
  s0 <~ New;
  fun w =>
    let '(loaded, (s1, w1)) :=
      (if resume then LoadState else ret None) (s0, w) in
    match loaded with
    | Some err => (Finished (Some err), s1, w1)
    | None =>
        let '(r, (s2, w2)) := Run (s1, w1) in
        match r with
        | Finished (Some err) =>
            let '(_, (s3, w3)) := SaveState (s2, w2) in (r, s3, w3)
        | _ => (r, s2, w2)
        end
    end.
End Agent.

(** ** Concrete collaborators for the examples *)

(** [GoAnalyzer.GetTestFilePath]: [filepath.Ext(sourceFile) == ".go"] holds
    exactly when the path ends in [.go]. *)
Definition HasSuffix (s suffix : string) : bool :=
  (String.length suffix <=? String.length s)%nat
  && String.eqb (substring (String.length s - String.length suffix)
                           (String.length suffix) s) suffix.

Definition GoAnalyzer : Analyzer :=
  {| GetLanguageName := "Go";
     GetTestFilePath sourceFile :=
       if HasSuffix sourceFile ".go"
       then substring 0 (String.length sourceFile - 3) sourceFile +:+ "_test.go"
       else sourceFile +:+ "_test.go" |}.

(** [PythonAnalyzer.parseCoverageJSON] once the file is decoded: the total,
    and the entries of [coverage.Files] in the order the [range] over the
    map visits them. *)
Record PyFile : Type := mkPyFile {
  percent_covered : float;
  missing_lines : list Z
}.

Definition parseCoverageJSON (totals : float) (visited : list (string * PyFile))
    (report : CoverageReport) : CoverageReport :=
  fold_left
    (fun r entry =>
       let '(filename, fileCov) := entry in
       let r1 :=
         Cov.mkReport (Cov.TotalCoverage r)
           (<[filename := percent_covered fileCov]> (Cov.FileCoverage r))
           (Cov.UncoveredFiles r) (Cov.UncoveredLines r) (Cov.Language r) in
       if (0 <? length (missing_lines fileCov))%nat then
         Cov.mkReport (Cov.TotalCoverage r1) (Cov.FileCoverage r1)
           (Cov.UncoveredFiles r1 ++ [filename])
           (<[filename := missing_lines fileCov]> (Cov.UncoveredLines r1))
           (Cov.Language r1)
       else r1)
    visited
    (Cov.mkReport totals (Cov.FileCoverage report) (Cov.UncoveredFiles report)
                  (Cov.UncoveredLines report) (Cov.Language report)).

(** The report [PythonAnalyzer.RunCoverage] starts from. *)
Definition emptyPythonReport : CoverageReport :=
  Cov.mkReport 0%float ∅ [] ∅ "Python".

(** A stream that answers from a list, then with [d]. *)
Definition answers {A} (l : list A) (d : A) : nat -> A := fun n => nth n l d.

(** * Properties *)

(** ** [sort.Slice] on short slices *)

Section SortFacts.
Context {A : Type} (less : A -> A -> bool).

Lemma swapDown_perm x before : swapDown less x before ≡ₚ x :: before.
Proof.
  induction before as [|y rest IH]; simpl; [done|].
  destruct (less x y); [|done].
  rewrite IH. apply Permutation_swap.
Qed.

Lemma insertion_fold_perm l acc :
  fold_left (fun before x => swapDown less x before) l acc ≡ₚ l ++ acc.
Proof.
  revert acc. induction l as [|x l IH]; intros acc; simpl; [done|].
  rewrite IH, swapDown_perm. by rewrite Permutation_middle.
Qed.

Lemma insertionSort_perm l : insertionSort less l ≡ₚ l.
Proof.
  unfold insertionSort. rewrite reverse_Permutation.
  by rewrite insertion_fold_perm, app_nil_r.
Qed.

Hypothesis irrefl : forall x, less x x = false.
Hypothesis trans : forall x y z, less x y = true -> less y z = true -> less x z = true.
Hypothesis negtrans : forall x y z, less x y = false -> less y z = false -> less x z = false.

Lemma less_asym x y : less x y = true -> less y x = false.
Proof.
  intros Hxy. destruct (less y x) eqn:Hyx; [|done].
  rewrite <- (irrefl x). symmetry. by eapply trans.
Qed.

Lemma swapDown_sorted x before :
  StronglySorted (fun a b => less a b = false) before ->
  StronglySorted (fun a b => less a b = false) (swapDown less x before).
Proof.
  induction 1 as [|y rest Hs IH Hy]; simpl.
  - repeat constructor.
  - destruct (less x y) eqn:Hxy.
    + constructor; [done|].
      rewrite swapDown_perm. constructor; [by apply less_asym|done].
    + constructor; [by constructor|].
      constructor; [done|].
      eapply Forall_impl; [exact Hy|]. intros z Hz. by eapply negtrans.
Qed.

Lemma insertion_fold_sorted l acc :
  StronglySorted (fun a b => less a b = false) acc ->
  StronglySorted (fun a b => less a b = false)
    (fold_left (fun before x => swapDown less x before) l acc).
Proof.
  revert acc. induction l as [|x l IH]; intros acc Hacc; simpl; [done|].
  apply IH. by apply swapDown_sorted.
Qed.

Lemma StronglySorted_reverse_flip (R : A -> A -> Prop) l :
  StronglySorted R l -> StronglySorted (fun x y => R y x) (reverse l).
Proof.
  induction 1 as [|x l Hs IH Hx]; [constructor|].
  rewrite reverse_cons. apply StronglySorted_app_2; [|done|repeat constructor].
  intros a b Ha Hb. apply list_elem_of_singleton in Hb as ->.
  rewrite Forall_forall in Hx. apply Hx. by apply elem_of_reverse.
Qed.

Lemma insertionSort_sorted l :
  StronglySorted (fun x y => less y x = false) (insertionSort less l).
Proof.
  unfold insertionSort.
  apply (StronglySorted_reverse_flip (fun a b => less a b = false)).
  apply insertion_fold_sorted. constructor.
Qed.
End SortFacts.

Section Stability.
Context {A : Type} (less : A -> A -> bool).
Context (P : A -> Prop) `{!forall x, Decision (P x)}.
Hypothesis tie : forall x y, P x -> P y -> less x y = false.

Lemma swapDown_filter x before :
  filter P (swapDown less x before) = filter P (x :: before).
Proof.
  induction before as [|y rest IH]; simpl; [done|].
  destruct (less x y) eqn:Hxy; [|done].
  rewrite filter_cons, IH, !filter_cons.
  destruct (decide (P y)), (decide (P x)); try done.
  by rewrite tie in Hxy.
Qed.

Lemma insertion_fold_filter l acc :
  filter P (fold_left (fun before x => swapDown less x before) l acc)
  = reverse (filter P l) ++ filter P acc.
Proof.
  revert acc. induction l as [|x l IH]; intros acc; simpl; [done|].
  rewrite IH, swapDown_filter, !filter_cons.
  destruct (decide (P x)); [|done].
  by rewrite reverse_cons, <- app_assoc.
Qed.

Lemma insertionSort_stable l :
  filter P (insertionSort less l) = filter P l.
Proof.
  unfold insertionSort.
  by rewrite filter_reverse, insertion_fold_filter, app_nil_r, reverse_involutive.
Qed.
End Stability.

(** A library for the examples: decimal digits for [Sscanf], the
    nanosecond count for [Time.String], insertion sort throughout. *)
Fixpoint scanDigits (s : string) (acc : Z) : Z :=
  match s with
  | String c s' =>
      let n := Z.of_N (Ascii.N_of_ascii c) in
      if (48 <=? n) && (n <=? 57) then scanDigits s' (10 * acc + (n - 48))
      else acc
  | EmptyString => acc
  end.

#[global] Instance exampleLibrary : GoLibrary := {|
  Sscanf_d s := scanDigits s 0;
  Time_String t := pretty t;
  pdqsort_long A less l := insertionSort less l;
  pdqsort_long_perm A less l := insertionSort_perm less l;
  pdqsort_long_sorted A less l irr tr ntr := insertionSort_sorted less irr tr ntr l
|}.

(** ** The client: [makeRequest] and [SendMessage] *)

Arguments mulDuration : simpl never.
Arguments Second : simpl never.
Arguments RetryBaseDelay : simpl never.
Arguments Z.mul : simpl never.
Arguments Z.add : simpl never.
Arguments Z.pow : simpl never.

(** The sleeps logged in a trace, oldest first. *)
Definition sleeps (w : World) : list Duration :=
  omap (fun e => match e with EvSleep d => Some d | _ => None end) (reverse (trace w)).

(** A reply that is a failure of the request other than throttling. *)
Definition isFailure (out : HttpOutcome) : Prop :=
  match out with
  | SendFailed _ | ReadFailed _ => True
  | HttpResponse status _ body =>
      status <> 429 /\ (status <> 200 \/ exists err, parsed body = inr err)
  end.

Ltac run :=
  unfold bind, ret, gets, modify, Sys.Do, Sys.Now, Sys.Sleep, Sys.log, Sys.io in *;
  simpl in *.

Section Client.
Context `{GoLibrary}.


Definition sent (w : World) : World :=
  let 'mkWorld a b c d e f g h i j k l m n o := w in
  mkWorld a b c d e f g (S h) i j k l m n (EvRequest :: o).


Lemma makeRequest_failure w :
  isFailure (http_out w (requests w)) ->
  exists err, makeRequest w = (inr err, sent w) /\ asRateLimitError err = None.
Proof.
  destruct w; unfold makeRequest, isFailure; run.
  match goal with |- context [match ?o with SendFailed _ => _ | _ => _ end] =>
    destruct o as [e|e|status h body] end; simpl; eauto.
  intros [H429 Hbad].
  destruct (Z.eqb_spec status 429); [done|]. simpl.
  destruct (Z.eqb_spec status 200); simpl; eauto.
  destruct Hbad as [?|[err ->]]; [done|]. eauto.
Qed.


(** The wait before attempt number [attempt]. *)
Definition pause (attempt : Z) (w : World) : World :=
  if 0 <? attempt
  then snd (Sys.Sleep (mulDuration RetryBaseDelay (2 ^ (attempt - 1))) w)
  else w.

Definition backoff (attempt : Z) : list Duration :=
  if 0 <? attempt then [mulDuration RetryBaseDelay (2 ^ (attempt - 1))] else [].

Lemma sleeps_log_sleep d w : sleeps (snd (Sys.Sleep d w)) = sleeps w ++ [d].
Proof.
  destruct w; unfold sleeps; run.
  by rewrite reverse_cons, omap_app.
Qed.

Lemma sleeps_sent w : sleeps (sent w) = sleeps w.
Proof.
  destruct w; unfold sleeps; simpl.
  by rewrite reverse_cons, omap_app, app_nil_r.
Qed.

Lemma pause_frame attempt w :
  requests (pause attempt w) = requests w
  /\ http_out (pause attempt w) = http_out w
  /\ clock (pause attempt w) = clock w
  /\ ticks (pause attempt w) = ticks w
  /\ sleeps (pause attempt w) = sleeps w ++ backoff attempt.
Proof.
  unfold pause, backoff. destruct (0 <? attempt).
  - rewrite sleeps_log_sleep. by destruct w.
  - by rewrite app_nil_r.
Qed.

Lemma sent_frame w :
  requests (sent w) = S (requests w)
  /\ http_out (sent w) = http_out w
  /\ clock (sent w) = clock w
  /\ ticks (sent w) = ticks w.
Proof. by destruct w. Qed.

Lemma sendAttempts_step n attempt last w :
  sendAttempts (S n) attempt last w
  = let (r, w1) := makeRequest (pause attempt w) in
    match r with
    | inr err =>
        match asRateLimitError err with
        | Some _ => (inr err, w1)
        | None => sendAttempts n (attempt + 1) (Some err) w1
        end
    | inl (text :: _) => (inl text, w1)
    | inl [] => (inr (errorString "empty response from Claude API"), w1)
    end.
Proof.
  unfold pause. simpl. unfold bind at 1.
  destruct (0 <? attempt); simpl.
  - unfold bind at 1. destruct (makeRequest _) as [[[|]|] ?]; try done.
    by destruct (asRateLimitError _).
  - unfold bind at 1. destruct (makeRequest _) as [[[|]|] ?]; try done.
    by destruct (asRateLimitError _).
Qed.

(** The waits of [count] failed attempts followed by one more attempt. *)
Fixpoint backoffs (attempt : Z) (count : nat) : list Duration :=
  match count with
  | O => backoff attempt
  | S c => backoff attempt ++ backoffs (attempt + 1) c
  end.


End Client.

(** ** Frame reasoning: what a computation leaves alone *)

(** [m] takes every state to one related to it by [R]. *)
Definition respects {S A} (R : relation S) (m : M S A) : Prop :=
  forall s, R s (snd (m s)).

Section Respects.
Context {S : Type} (R : relation S) `{!PreOrder R}.

Lemma respects_ret {A} (a : A) : respects R (ret a).
Proof. intros s. simpl. reflexivity. Qed.

Lemma respects_bind {A B} (m : M S A) (k : A -> M S B) :
  respects R m -> (forall a, respects R (k a)) -> respects R (bind m k).
Proof.
  intros Hm Hk s. unfold bind. specialize (Hm s).
  destruct (m s) as [a s1]. simpl in Hm. etrans; [exact Hm|apply Hk].
Qed.

Lemma respects_gets {A} (f : S -> A) : respects R (gets f).
Proof. intros s. simpl. reflexivity. Qed.
End Respects.

(** The relation on [State * World] that looks at the world only. *)
Definition onWorld (R : relation World) : relation (State * World) :=
  fun sw sw' => R (snd sw) (snd sw').

#[global] Instance onWorld_preorder R `{!PreOrder R} : PreOrder (onWorld R).
Proof.
  split; [intros ?; unfold onWorld; reflexivity|].
  intros x y z ??; unfold onWorld in *; by etrans.
Qed.

Lemma respects_lift {A} R (m : W A) : respects R m -> respects (onWorld R) (lift m).
Proof.
  intros Hm [s w]. unfold lift, onWorld. simpl. specialize (Hm w).
  by destruct (m w).
Qed.

Lemma respects_update R `{!PreOrder R} f : respects (onWorld R) (update f).
Proof. intros [s w]. unfold onWorld. simpl. reflexivity. Qed.

(** Breaking a computation down along its binds and case distinctions. *)
Ltac frame_step :=
  match goal with
  | |- respects _ (bind _ _) => apply respects_bind; [typeclasses eauto| |intros ?]
  | |- respects _ (ret _) => apply respects_ret; typeclasses eauto
  | |- respects _ (gets _) => apply respects_gets; typeclasses eauto
  | |- respects (onWorld _) (lift _) => apply respects_lift
  | |- respects (onWorld _) (update _) => apply respects_update; typeclasses eauto
  | |- respects _ (match ?x with _ => _ end) => destruct x
  | |- respects _ (let '(_, _) := ?x in _) => destruct x
  end.
Ltac frame := repeat frame_step.

(** What no computation undoes: the answers the world will give stay the
    same, cursors only move forward, files are only added, and the trace
    only grows. *)
Record later (w w' : World) : Prop := mkLater {
  later_clock : clock w' = clock w;
  later_ticks : (ticks w <= ticks w')%nat;
  later_ctx : ctx_done w' = ctx_done w;
  later_coverage : coverage_out w' = coverage_out w;
  later_http : http_out w' = http_out w;
  later_requests : (requests w <= requests w')%nat;
  later_validate : validate_out w' = validate_out w;
  later_validations : (validations w <= validations w')%nat;
  later_io : io_out w' = io_out w;
  later_files : files w ⊆ files w';
  later_trace : trace w `suffix_of` trace w'
}.

#[global] Instance later_preorder : PreOrder later.
Proof.
  split; [by intros ?|].
  intros x y z [] []. split; try congruence; try lia; by etrans.
Qed.

(** The number of repairs ([FixBrokenTest]) a trace records. *)
Definition isFix (e : Event) : bool :=
  match e with EvFix _ => true | _ => false end.
Definition fixes (w : World) : nat :=
  length (List.filter isFix (trace w)).

(** Neither the validation tool nor the repair function is involved. *)
Definition aside : relation World := fun w w' =>
  validations w' = validations w /\ fixes w' = fixes w.

#[global] Instance aside_preorder : PreOrder aside.
Proof. split; [by intros ?|]. intros x y z [? ?] [? ?]. split; congruence. Qed.

Ltac prim :=
  intros []; unfold aside, fixes; simpl;
  first [ done
        | split; simpl; try done; try lia; try set_solver;
          try (by apply suffix_cons_r) ].

Create HintDb frame.

Lemma modify_respects {S} (R : relation S) (f : S -> S) :
  (forall s, R s (f s)) -> respects R (modify f).
Proof. intros Hf s. apply Hf. Qed.

Lemma Now_later : respects later Sys.Now. Proof. prim. Qed.
Lemma Done_later : respects later Sys.Done. Proof. prim. Qed.
Lemma RunCoverage_later : respects later Sys.RunCoverage. Proof. prim. Qed.
Lemma Do_later : respects later Sys.Do. Proof. prim. Qed.
Lemma ValidateTestFile_later f : respects later (Sys.ValidateTestFile f).
Proof. prim. Qed.
Lemma io_later : respects later Sys.io. Proof. prim. Qed.
Lemma log_later e : respects later (Sys.log e). Proof. prim. Qed.
Lemma Sleep_later d : respects later (Sys.Sleep d). Proof. prim. Qed.
#[global] Hint Resolve Now_later Done_later RunCoverage_later Do_later
  ValidateTestFile_later io_later log_later Sleep_later : frame.

Lemma WriteFile_later p : respects later (Sys.WriteFile p).
Proof.
  unfold Sys.WriteFile. frame; auto with frame. apply modify_respects. prim.
Qed.
Lemma WriteState_later p d : respects later (Sys.WriteState p d).
Proof.
  unfold Sys.WriteState. frame; auto with frame. apply modify_respects. prim.
Qed.
Lemma ReadState_later p : respects later (Sys.ReadState p).
Proof. unfold Sys.ReadState. frame; auto with frame. Qed.
#[global] Hint Resolve WriteFile_later WriteState_later ReadState_later : frame.

Lemma Now_aside : respects aside Sys.Now. Proof. prim. Qed.
Lemma Do_aside : respects aside Sys.Do. Proof. prim. Qed.
Lemma io_aside : respects aside Sys.io. Proof. prim. Qed.
Lemma Sleep_aside d : respects aside (Sys.Sleep d). Proof. prim. Qed.
Lemma WriteFile_aside p : respects aside (Sys.WriteFile p).
Proof.
  unfold Sys.WriteFile. frame; auto using io_aside. apply modify_respects. prim.
Qed.
#[global] Hint Resolve Now_aside Do_aside io_aside Sleep_aside WriteFile_aside
  : frame.

Section Frames.
Context `{GoLibrary} (analyzer : Analyzer).

Lemma makeRequest_later : respects later makeRequest.
Proof. unfold makeRequest. frame; auto with frame. Qed.
Lemma makeRequest_aside : respects aside makeRequest.
Proof. unfold makeRequest. frame; auto with frame. Qed.
Hint Resolve makeRequest_later makeRequest_aside : frame.

Lemma sendAttempts_later n : forall a l, respects later (sendAttempts n a l).
Proof. induction n as [|n IH]; intros a l; simpl; frame; auto with frame. Qed.
Lemma sendAttempts_aside n : forall a l, respects aside (sendAttempts n a l).
Proof. induction n as [|n IH]; intros a l; simpl; frame; auto with frame. Qed.

Lemma SendMessage_later : respects later SendMessage.
Proof. apply sendAttempts_later. Qed.
Lemma SendMessage_aside : respects aside SendMessage.
Proof. apply sendAttempts_aside. Qed.
Hint Resolve SendMessage_later SendMessage_aside : frame.

Lemma GenerateTestForFile_later f :
  respects later (GenerateTestForFile analyzer f).
Proof. unfold GenerateTestForFile. frame; auto with frame. Qed.
Lemma ImproveExistingTest_later f t : respects later (ImproveExistingTest f t).
Proof. unfold ImproveExistingTest. frame; auto with frame. Qed.
Lemma FixBrokenTest_later t o : respects later (FixBrokenTest t o).
Proof. unfold FixBrokenTest. frame; auto with frame. Qed.
Lemma ValidateTest_later t : respects later (ValidateTest t).
Proof. unfold ValidateTest. frame; auto with frame. Qed.
Hint Resolve FixBrokenTest_later ValidateTest_later : frame.

Lemma retryLadder_later t N left :
  forall attempt, respects later (retryLadder t N left attempt).
Proof.
  induction left as [|left IH]; intros attempt; simpl; frame; auto with frame.
Qed.
Lemma ValidateAndRetry_later t N : respects later (ValidateAndRetry t N).
Proof. apply retryLadder_later. Qed.
End Frames.

#[global] Hint Resolve makeRequest_aside SendMessage_aside
  makeRequest_later SendMessage_later
  GenerateTestForFile_later ImproveExistingTest_later FixBrokenTest_later
  ValidateTest_later ValidateAndRetry_later : frame.


Section ClientPolicy.
Context `{GoLibrary}.

Lemma makeRequest_requests w : requests (snd (makeRequest w)) = S (requests w).
Proof.
  destruct w; unfold makeRequest; run.
  match goal with |- context [match ?o with SendFailed _ => _ | _ => _ end] =>
    destruct o as [e|e|status h body] end; simpl; try done.
  destruct (status =? 429); simpl.
  - by destruct (String.eqb h "").
  - destruct (status =? 200); simpl; [|done]. by destruct (parsed body).
Qed.

Lemma sendAttempts_bound n : forall attempt last w,
  (requests (snd (sendAttempts n attempt last w)) <= requests w + n)%nat.
Proof.
  induction n as [|n IH]; intros attempt last w; [simpl; lia|].
  rewrite sendAttempts_step.
  pose proof (makeRequest_requests (pause attempt w)) as Hreq.
  destruct (pause_frame attempt w) as (Hr & _).
  destruct (makeRequest (pause attempt w)) as [[[|text ?]|err] w1]; simpl in *;
    try lia.
  destruct (asRateLimitError err); simpl; [lia|].
  specialize (IH (attempt + 1) (Some err) w1). lia.
Qed.

End ClientPolicy.

(** ** The state file: what is saved is what is loaded *)

Lemma marshal_float_Some f j : Json.marshal_float f = Some j -> j = JFloat f.
Proof.
  unfold Json.marshal_float. destruct (_ || _); [done|]. by intros [= <-].
Qed.

Lemma as_list_strings l :
  Json.as_list Json.as_string "" (Json.marshal_strings l) = Some l.
Proof. unfold Json.as_list, Json.marshal_strings. by apply mapM_fmap_Some. Qed.

Lemma rebuild_map {A} (m : gmap string A) :
  list_to_map (reverse (map_to_list m)) = m.
Proof.
  rewrite <- (list_to_map_to_list m) at 2.
  symmetry. apply list_to_map_proper; [apply NoDup_fst_map_to_list|].
  symmetry. apply reverse_Permutation.
Qed.

Lemma as_map_bools m :
  Json.as_map Json.as_bool false (Json.marshal_bool_map m) = Some m.
Proof.
  unfold Json.as_map, Json.marshal_bool_map.
  rewrite (mapM_fmap_Some _ (prod_map id JBool) (map_to_list m)) by (by intros []).
  simpl. by rewrite rebuild_map.
Qed.

Lemma as_map_strings m :
  Json.as_map Json.as_string "" (Json.marshal_string_map m) = Some m.
Proof.
  unfold Json.as_map, Json.marshal_string_map.
  rewrite (mapM_fmap_Some _ (prod_map id JString) (map_to_list m)) by (by intros []).
  simpl. by rewrite rebuild_map.
Qed.

Lemma as_snapshot_marshal c j :
  Json.marshal_snapshot c = Some j ->
  Json.elem Json.as_snapshot Json.zeroSnapshot j = Some c.
Proof.
  unfold Json.marshal_snapshot. destruct (Json.marshal_float _) as [cov|] eqn:Hc; [|done].
  apply marshal_float_Some in Hc as ->. intros [= <-]. by destruct c.
Qed.

Lemma as_list_snapshots h js :
  mapM Json.marshal_snapshot h = Some js ->
  Json.as_list Json.as_snapshot Json.zeroSnapshot (JArray js) = Some h.
Proof.
  intros Hm. simpl. apply mapM_Some. apply mapM_Some in Hm.
  induction Hm; constructor; [by apply as_snapshot_marshal|done].
Qed.

Lemma into_bool_map m :
  Json.into (Json.as_map Json.as_bool false) ∅ (Some (Json.marshal_bool_map m))
  = Some m.
Proof. apply as_map_bools. Qed.

Lemma into_string_map m :
  Json.into (Json.as_map Json.as_string "") ∅ (Some (Json.marshal_string_map m))
  = Some m.
Proof. apply as_map_strings. Qed.

Lemma into_strings l :
  Json.into (Json.as_list Json.as_string "") [] (Some (Json.marshal_strings l))
  = Some l.
Proof. apply as_list_strings. Qed.

Lemma into_snapshots h js :
  mapM Json.marshal_snapshot h = Some js ->
  Json.into (Json.as_list Json.as_snapshot Json.zeroSnapshot) [] (Some (JArray js))
  = Some h.
Proof. apply as_list_snapshots. Qed.

#[local] Arguments Json.into : simpl never.
#[local] Arguments Json.marshal_bool_map : simpl never.
#[local] Arguments Json.marshal_string_map : simpl never.
#[local] Arguments Json.marshal_strings : simpl never.

Lemma unmarshal_marshal_state s doc :
  Json.marshal_state s = Some doc -> Json.unmarshal_state doc = Some s.
Proof.
  unfold Json.marshal_state.
  destruct (Json.marshal_float (CurrentCoverage s)) as [cur|] eqn:Hcur; [|done].
  destruct (Json.marshal_float (TargetCoverage s)) as [tgt|] eqn:Htgt; [|done].
  destruct (mapM Json.marshal_snapshot (CoverageHistory s)) as [hist|] eqn:Hh; [|done].
  apply marshal_float_Some in Hcur as ->. apply marshal_float_Some in Htgt as ->.
  apply into_snapshots in Hh. simpl. intros [= <-].
  destruct s as [a b c d e f g h i j k l m n [p|] q];
    unfold Json.unmarshal_state, Json.member; simpl in *;
    rewrite into_bool_map, into_string_map, !into_strings, Hh; reflexivity.
Qed.

(** ** The prioritizer *)

Lemma StronglySorted_weaken {A} (R R' : A -> A -> Prop) l :
  (forall x y, R x y -> R' x y) -> StronglySorted R l -> StronglySorted R' l.
Proof.
  intros HR. induction 1 as [|x l Hs IH Hx]; constructor; [done|].
  eapply Forall_impl; [exact Hx|]. intros y. apply HR.
Qed.

Lemma omap_pointwise {A B} (f g : A -> option B) (l : list A) :
  (forall x, f x = g x) -> omap f l = omap g l.
Proof.
  intros E. induction l as [|x l IH]; [done|].
  change (omap f (x :: l)) with (from_option (fun y => y :: omap f l) (omap f l) (f x)).
  change (omap g (x :: l)) with (from_option (fun y => y :: omap g l) (omap g l) (g x)).
  by rewrite E, IH.
Qed.

Section SortSlice.
Context `{GoLibrary} {A : Type} (less : A -> A -> bool).

Lemma sort_Slice_perm l : sort_Slice less l ≡ₚ l.
Proof.
  unfold sort_Slice. destruct (_ <=? _)%nat;
    [apply insertionSort_perm|apply pdqsort_long_perm].
Qed.

Lemma sort_Slice_sorted l :
  (forall x, less x x = false) ->
  (forall x y z, less x y = true -> less y z = true -> less x z = true) ->
  (forall x y z, less x y = false -> less y z = false -> less x z = false) ->
  StronglySorted (fun x y => less y x = false) (sort_Slice less l).
Proof.
  intros. unfold sort_Slice. destruct (_ <=? _)%nat;
    [by apply insertionSort_sorted|by apply pdqsort_long_sorted].
Qed.

Lemma sort_Slice_stable (P : A -> Prop) `{!forall x, Decision (P x)} l :
  (length l <= maxInsertion)%nat ->
  (forall x y, P x -> P y -> less x y = false) ->
  filter P (sort_Slice less l) = filter P l.
Proof.
  intros Hlen Htie. unfold sort_Slice.
  destruct (Nat.leb_spec (length l) maxInsertion); [|lia].
  by apply insertionSort_stable.
Qed.
End SortSlice.

Section Prioritizer.
Context `{GoLibrary} (analyzer : Analyzer).

(** The work items before they are sorted. *)
Definition candidates (report : CoverageReport) (s : State) (fs : gset string)
    : list WorkItem :=
  omap (workItemFor analyzer report s fs) (Cov.UncoveredFiles report).

(** A unit the session has not classified yet. *)
Definition unclassified (s : State) (u : string) : Prop :=
  IsFileProcessed u s = false /\ FailedFiles s !! u = None.

#[global] Instance unclassified_dec s u : Decision (unclassified s u).
Proof. unfold unclassified. apply _. Defined.

Lemma IsFileFailed_false s u : IsFileFailed u s = false <-> FailedFiles s !! u = None.
Proof.
  unfold IsFileFailed. rewrite bool_decide_eq_false, <- eq_None_not_Some. done.
Qed.

Lemma workItemFor_Some report s fs u item :
  workItemFor analyzer report s fs u = Some item <->
  unclassified s u /\
  item = WI.mkWorkItem u (GetTestFilePath analyzer u)
           (default 0%float (Cov.FileCoverage report !! u))
           (default [] (Cov.UncoveredLines report !! u))
           (float_to_int
              (PrimFloat.sub 100%float
                 (default 0%float (Cov.FileCoverage report !! u))))
           (bool_decide (GetTestFilePath analyzer u ∈ fs)).
Proof.
  unfold workItemFor, unclassified. rewrite <- IsFileFailed_false.
  destruct (IsFileProcessed u s), (IsFileFailed u s);
    (split; [intros [= <-] || intros [=]|intros [[? ?] ->]]); done.
Qed.

Lemma candidates_units report s fs :
  WI.SourceFile <$> candidates report s fs
  = filter (unclassified s) (Cov.UncoveredFiles report).
Proof.
  unfold candidates. induction (Cov.UncoveredFiles report) as [|u l IH]; [done|].
  rewrite filter_cons. simpl in *.
  destruct (workItemFor analyzer report s fs u) as [item|] eqn:Hw.
  - apply workItemFor_Some in Hw as [Hu ->]. rewrite decide_True by done.
    simpl. f_equal. exact IH.
  - rewrite decide_False; [exact IH|]. intros Hu.
    by erewrite (proj2 (workItemFor_Some report s fs u _)) in Hw.
Qed.

Lemma prioritizeWorkItems_perm report s fs :
  prioritizeWorkItems analyzer report s fs ≡ₚ candidates report s fs.
Proof. apply sort_Slice_perm. Qed.

Lemma elem_of_candidates report s fs item :
  item ∈ candidates report s fs <->
  exists u, u ∈ Cov.UncoveredFiles report
            /\ workItemFor analyzer report s fs u = Some item.
Proof. unfold candidates. by rewrite list_elem_of_omap. Qed.

Lemma prioritizeWorkItems_sorted report s fs :
  StronglySorted (fun x y => WI.Priority y <= WI.Priority x)
                 (prioritizeWorkItems analyzer report s fs).
Proof.
  eapply StronglySorted_weaken;
    [|apply (sort_Slice_sorted higherPriority (candidates report s fs))];
    unfold higherPriority.
  - intros x y. lia.
  - intros x. lia.
  - intros x y z. lia.
  - intros x y z. lia.
Qed.

Lemma prioritizeWorkItems_stable report s fs p :
  (length (candidates report s fs) <= maxInsertion)%nat ->
  filter (fun item => WI.Priority item = p)
         (prioritizeWorkItems analyzer report s fs)
  = filter (fun item => WI.Priority item = p) (candidates report s fs).
Proof.
  intros Hlen. apply (sort_Slice_stable higherPriority); [done|].
  unfold higherPriority. intros x y -> ->. lia.
Qed.

(** The ledgers are all the prioritizer reads of the state. *)
Lemma prioritizeWorkItems_ledgers report s s' fs :
  ProcessedFiles s' = ProcessedFiles s ->
  FailedFiles s' = FailedFiles s ->
  prioritizeWorkItems analyzer report s' fs
  = prioritizeWorkItems analyzer report s fs.
Proof.
  intros Hp Hf. unfold prioritizeWorkItems. f_equal. apply omap_pointwise.
  intros u. unfold workItemFor, IsFileProcessed, IsFileFailed.
  by rewrite Hp, Hf.
Qed.

Lemma elem_of_prioritizeWorkItems report s fs item :
  item ∈ prioritizeWorkItems analyzer report s fs <->
  exists u, u ∈ Cov.UncoveredFiles report
            /\ workItemFor analyzer report s fs u = Some item.
Proof. by rewrite prioritizeWorkItems_perm, elem_of_candidates. Qed.

(** C2, as the code has it.  The prioritizer is a function of the report,
    of the two ledgers and of the set of files that exist (through
    [fileExists] on each test file).  Its result lists exactly the units of
    [UncoveredFiles] found in neither ledger, by descending priority
    [int(100 - coverage)]; among at most twelve candidates, units of equal
    priority keep the order of the report. *)
Theorem prioritizeWorkItems_order report s fs :
  let items := prioritizeWorkItems analyzer report s fs in
  WI.SourceFile <$> candidates report s fs
    = filter (unclassified s) (Cov.UncoveredFiles report)
  /\ items ≡ₚ candidates report s fs
  /\ (forall item, item ∈ items ->
        unclassified s (WI.SourceFile item)
        /\ WI.CurrentCoverage item
           = default 0%float (Cov.FileCoverage report !! WI.SourceFile item)
        /\ WI.Priority item
           = float_to_int (PrimFloat.sub 100%float (WI.CurrentCoverage item))
        /\ WI.Exists item
           = bool_decide (GetTestFilePath analyzer (WI.SourceFile item) ∈ fs))
  /\ StronglySorted (fun x y => WI.Priority y <= WI.Priority x) items
  /\ ((length (candidates report s fs) <= maxInsertion)%nat ->
      forall p, filter (fun item => WI.Priority item = p) items
                = filter (fun item => WI.Priority item = p)
                         (candidates report s fs))
  /\ (forall s', ProcessedFiles s' = ProcessedFiles s ->
                 FailedFiles s' = FailedFiles s ->
                 prioritizeWorkItems analyzer report s' fs = items).
Proof.
  intros items. split; [apply candidates_units|].
  split; [apply prioritizeWorkItems_perm|]. split.
  { intros item (u & _ & Hw)%elem_of_prioritizeWorkItems.
    by apply workItemFor_Some in Hw as [Hu ->]. }
  split; [apply prioritizeWorkItems_sorted|].
  split; [intros Hlen p; by apply prioritizeWorkItems_stable|].
  intros s'. apply prioritizeWorkItems_ledgers.
Qed.

(** C9, as the code has it.  A unit becomes a work item exactly when it is
    listed in [UncoveredFiles] and found in neither ledger, whether or not
    [UncoveredLines] has lines for it; its per-file coverage alone does not
    make it one. *)
Theorem prioritizeWorkItems_units report s fs u :
  (exists item, item ∈ prioritizeWorkItems analyzer report s fs
                /\ WI.SourceFile item = u
                /\ WI.UncoveredLines item
                   = default [] (Cov.UncoveredLines report !! u))
  <-> u ∈ Cov.UncoveredFiles report /\ unclassified s u.
Proof.
  split.
  - intros (item & (u' & Hin & Hw)%elem_of_prioritizeWorkItems & <- & _).
    by apply workItemFor_Some in Hw as [Hu ->].
  - intros [Hin Hu]. eexists. split; [|split].
    + apply elem_of_prioritizeWorkItems. exists u. split; [done|].
      by apply workItemFor_Some.
    + done.
    + done.
Qed.
End Prioritizer.

Definition freshState : State := NewState "." 80%float "Go" 0 0.

(** Two units whose coverage differs by less than a point, the better
    covered one listed first. *)
Definition closeReport : CoverageReport :=
  Cov.mkReport 50.5%float
    {[ "a.go" := 50.75%float; "b.go" := 50.25%float ]}
    ["a.go"; "b.go"]
    {[ "a.go" := [1]; "b.go" := [2] ]}
    "Go".

(** C2 fails as stated: a better covered unit can come first, and the
    result changes with the file system. *)
Lemma prioritizeWorkItems_not_by_coverage_alone :
  (forall L : GoLibrary,
      WI.SourceFile <$> @prioritizeWorkItems L GoAnalyzer closeReport freshState ∅
      = ["a.go"; "b.go"])
  /\ PrimFloat.ltb 50.25%float 50.75%float = true
  /\ (forall L : GoLibrary,
        @prioritizeWorkItems L GoAnalyzer closeReport freshState ∅
        <> @prioritizeWorkItems L GoAnalyzer closeReport freshState
             {[ "a_test.go" ]}).
Proof.
  split; [|split].
  - intros L. vm_compute. reflexivity.
  - reflexivity.
  - intros L. vm_compute. discriminate.
Qed.

(** What [parseCoverageJSON] makes of a file at 50% for which coverage.py
    lists no missing line. *)
Definition degradedReport : CoverageReport :=
  parseCoverageJSON 50%float [ ("a.py", mkPyFile 50%float []) ]
                    emptyPythonReport.

(** C9 fails as stated: the unit is below 100, in no ledger, and no work
    item. *)
Lemma degraded_unit_is_dropped :
  Cov.FileCoverage degradedReport !! "a.py" = Some 50%float
  /\ PrimFloat.ltb 50%float 100%float = true
  /\ Cov.UncoveredLines degradedReport !! "a.py" = None
  /\ IsFileProcessed "a.py" freshState = false
  /\ FailedFiles freshState !! "a.py" = None
  /\ (forall (L : GoLibrary) analyzer fs,
        @prioritizeWorkItems L analyzer degradedReport freshState fs = []).
Proof.
  repeat split; try reflexivity.
Qed.

(** ** The validate/repair ladder *)

Section Ladder.
Context `{GoLibrary} (analyzer : Analyzer).

Lemma ValidateTest_run t w :
  exists w', ValidateTest t w = (verdict (validate_out w (validations w)), w')
    /\ validate_out w' = validate_out w
    /\ validations w' = S (validations w)
    /\ fixes w' = fixes w.
Proof. destruct w. eexists. split; [reflexivity|]. done. Qed.

Lemma bind_snd {S A B} (m : M S A) (k : A -> M S B) s :
  snd (bind m k s) = snd (k (fst (m s)) (snd (m s))).
Proof. unfold bind. by destruct (m s). Qed.

Lemma FixBrokenTest_counts t o w :
  validations (snd (FixBrokenTest t o w)) = validations w
  /\ fixes (snd (FixBrokenTest t o w)) = S (fixes w).
Proof.
  unfold FixBrokenTest. rewrite bind_snd. cbv beta.
  set (w1 := snd (Sys.log (EvFix t) w)).
  assert (validations w1 = validations w /\ fixes w1 = S (fixes w)) as [Hv Hf]
    by (by destruct w).
  match goal with |- context [snd (?m w1)] =>
    assert (respects aside m) as Hm by (frame; auto with frame);
    destruct (Hm w1) as [Hv' Hf']
  end.
  split; [by rewrite <- Hv|by rewrite <- Hf].
Qed.

Lemma retryLadder_spec t N left : forall attempt w v w',
  retryLadder t N left attempt w = (v, w') ->
  validate_out w' = validate_out w
  /\ (validations w < validations w' <= validations w + left + 1)%nat
  /\ Z.of_nat (fixes w') <= Z.of_nat (fixes w) + Z.max 0 (N - attempt)
  /\ (fixes w' <= fixes w + left)%nat
  /\ (forall r, v = Checked r ->
        verdict (validate_out w (validations w' - 1)%nat) = inl r)
  /\ (forall i, (validations w <= i < validations w' - 1)%nat ->
        exists r, verdict (validate_out w i) = inl r /\ Success r = false).
Proof.
  induction left as [|left IH]; intros attempt w v w' Hrun; simpl in Hrun;
    unfold bind in Hrun;
    destruct (ValidateTest_run t w) as (w1 & Hval & Hout1 & Hn1 & Hf1);
    rewrite Hval in Hrun.
  - destruct (verdict _) as [r|err] eqn:Hv; injection Hrun as <- <-;
      rewrite Hn1, Hf1; repeat split; try done; try lia.
    all: try (intros i Hi; lia).
    intros r' [= <-].
    by replace (S (validations w) - 1)%nat with (validations w) by lia.
  - destruct (verdict _) as [r|err] eqn:Hv.
    2:{ injection Hrun as <- <-. rewrite Hn1, Hf1.
        repeat split; try done; try lia. all: try (intros i Hi; lia). }
    destruct (Success r) eqn:Hs.
    { injection Hrun as <- <-. rewrite Hn1, Hf1.
      repeat split; try done; try lia.
      all: try (intros i Hi; lia).
      intros r' [= <-].
      by replace (S (validations w) - 1)%nat with (validations w) by lia. }
    assert (forall w2, validate_out w2 = validate_out w ->
              validations w2 = S (validations w) ->
              Z.of_nat (fixes w2) <= Z.of_nat (fixes w) + (if attempt <? N then 1 else 0) ->
              (fixes w2 <= S (fixes w))%nat ->
              retryLadder t N left (attempt + 1) w2 = (v, w') ->
              validate_out w' = validate_out w
              /\ (validations w < validations w' <= validations w + S left + 1)%nat
              /\ Z.of_nat (fixes w') <= Z.of_nat (fixes w) + Z.max 0 (N - attempt)
              /\ (fixes w' <= fixes w + S left)%nat
              /\ (forall r, v = Checked r ->
                    verdict (validate_out w (validations w' - 1)%nat) = inl r)
              /\ (forall i, (validations w <= i < validations w' - 1)%nat ->
                    exists r, verdict (validate_out w i) = inl r /\ Success r = false))
      as Hrest.
    { intros w2 Hout2 Hn2 Hfx Hfx' Hrec.
      destruct (IH _ _ _ _ Hrec) as (Ho & Hn & Hfz & Hfn & Hlast & Hbefore).
      rewrite Hout2 in *. rewrite Hn2 in *.
      split; [done|]. split; [lia|]. split.
      { destruct (Z.ltb_spec attempt N); lia. }
      split; [lia|]. split; [done|].
      intros i Hi. destruct (decide (i = validations w)) as [->|Hne].
      - exists r. done.
      - apply Hbefore. lia. }
    destruct (attempt <? N) eqn:Hlt.
    + destruct (FixBrokenTest_counts t (Output r) w1) as [Hfv Hff].
      pose proof (FixBrokenTest_later t (Output r) w1) as Hlater.
      destruct (FixBrokenTest t (Output r) w1) as [[tf|err] w2]; simpl in *.
      * apply (Hrest w2); try done.
        -- by rewrite (later_validate _ _ Hlater).
        -- congruence.
        -- lia.
        -- lia.
      * injection Hrun as <- <-.
        rewrite (later_validate _ _ Hlater), Hfv, Hff, Hn1, Hf1, Hout1.
        apply Z.ltb_lt in Hlt.
        repeat split; try done; try lia. all: try (intros i Hi; lia).
    + apply (Hrest w1); try done; lia.
Qed.
End Ladder.

(** ** Reasoning about the orchestrator: weakest preconditions *)

(** [Q] holds of the result and final state of [m] run in [s]. *)
Definition wp {S A} (m : M S A) (Q : A -> S -> Prop) (s : S) : Prop :=
  Q (fst (m s)) (snd (m s)).

Lemma wp_ret {S A} (a : A) (Q : A -> S -> Prop) s : Q a s -> wp (ret a) Q s.
Proof. done. Qed.

Lemma wp_bind {S A B} (m : M S A) (k : A -> M S B) Q s :
  wp m (fun a s' => wp (k a) Q s') s -> wp (bind m k) Q s.
Proof. unfold wp, bind. by destruct (m s). Qed.

Lemma wp_gets {S A} (f : S -> A) (Q : A -> S -> Prop) s :
  Q (f s) s -> wp (gets f) Q s.
Proof. done. Qed.

Lemma wp_update f (Q : unit -> State * World -> Prop) s w :
  Q tt (f s, w) -> wp (update f) Q (s, w).
Proof. done. Qed.

Lemma wp_state (Q : State -> State * World -> Prop) s w :
  Q s (s, w) -> wp state Q (s, w).
Proof. done. Qed.

Lemma wp_lift {A} (m : W A) (Q : A -> State * World -> Prop) s w :
  (forall a w', m w = (a, w') -> Q a (s, w')) -> wp (lift m) Q (s, w).
Proof.
  intros HQ. unfold wp, lift. simpl. destruct (m w) as [a w'] eqn:E. by apply HQ.
Qed.

Lemma wp_mono {S A} (m : M S A) (Q Q' : A -> S -> Prop) s :
  wp m Q s -> (forall a s', Q a s' -> Q' a s') -> wp m Q' s.
Proof. unfold wp. auto. Qed.

Lemma wp_run {S A} (m : M S A) (Q : A -> S -> Prop) s a s' :
  m s = (a, s') -> wp m Q s -> Q a s'.
Proof. unfold wp. by intros ->. Qed.

Lemma respects_run {S A} (R : relation S) (m : M S A) s a s' :
  respects R m -> m s = (a, s') -> R s s'.
Proof. intros Hm E. specialize (Hm s). by rewrite E in Hm. Qed.

(** What the primitives answer. *)
Lemma Now_run w a w' :
  Sys.Now w = (a, w') ->
  a = clock w (ticks w) /\ ticks w' = S (ticks w) /\ later w w'
  /\ requests w' = requests w /\ validations w' = validations w
  /\ files w' = files w /\ trace w' = trace w
  /\ state_files w' = state_files w /\ io_ops w' = io_ops w
  /\ measurements w' = measurements w /\ polls w' = polls w.
Proof.
  intros E. pose proof (respects_run later _ _ _ _ Now_later E).
  destruct w. injection E as <- <-. done.
Qed.

Lemma Done_run w a w' :
  Sys.Done w = (a, w') ->
  a = ctx_done w (polls w) /\ later w w'
  /\ ticks w' = ticks w
  /\ requests w' = requests w /\ validations w' = validations w
  /\ files w' = files w /\ trace w' = trace w
  /\ state_files w' = state_files w /\ io_ops w' = io_ops w
  /\ measurements w' = measurements w.
Proof.
  intros E. pose proof (respects_run later _ _ _ _ Done_later E).
  destruct w. injection E as <- <-. done.
Qed.

Lemma RunCoverage_run w a w' :
  Sys.RunCoverage w = (a, w') ->
  a = coverage_out w (measurements w) /\ later w w'
  /\ ticks w' = ticks w
  /\ requests w' = requests w /\ validations w' = validations w
  /\ files w' = files w /\ trace w' = EvCoverage :: trace w
  /\ state_files w' = state_files w /\ io_ops w' = io_ops w
  /\ measurements w' = S (measurements w) /\ polls w' = polls w.
Proof.
  intros E. pose proof (respects_run later _ _ _ _ RunCoverage_later E).
  destruct w. injection E as <- <-. done.
Qed.

Section Orchestrator.
Context `{GoLibrary} (analyzer : Analyzer) (cfg : Config).

(** [SaveState] stamps the state and, if it can, writes it. *)
Lemma SaveState_run s w r s' w' :
  SaveState cfg (s, w) = (r, (s', w')) ->
  s' = set_LastUpdatedAt (clock w (ticks w)) s
  /\ later w w'
  /\ requests w' = requests w /\ validations w' = validations w
  /\ files w' = files w /\ measurements w' = measurements w
  /\ polls w' = polls w
  /\ match r with
     | None =>
         exists doc, Json.marshal_state s' = Some doc
           /\ io_out w (io_ops w) = None
           /\ state_files w' = <[Cfg.StateFile cfg := doc]> (state_files w)
           /\ trace w' = EvSaveState (Cfg.StateFile cfg) doc :: trace w
     | Some _ => state_files w' = state_files w /\ trace w' = trace w
     end.
Proof.
  unfold SaveState, bind, lift, update, state, gets, modify, ret. simpl.
  destruct w as [? ? ? ? ? ? ? ? ? ? answers cursor ? ? ?]; simpl.
  destruct (Json.marshal_state _) as [doc|] eqn:Hdoc; simpl.
  - unfold Sys.WriteState, bind, Sys.io, modify, ret; simpl.
    destruct (answers cursor) as [err|] eqn:Hio; simpl;
      intros [= <- <- <-]; simpl; (split; [done|]);
      (split; [split; simpl; try done; try lia; try by apply suffix_cons_r|]);
      repeat split; try done.
    exists doc. done.
  - intros [= <- <- <-]. split; [done|].
    split; [split; simpl; try done; lia|]. done.
Qed.
End Orchestrator.

Ltac wp_step :=
  match goal with
  | |- wp (bind _ _) _ _ => apply wp_bind
  | |- wp (ret _) _ _ => apply wp_ret
  | |- wp (update _) _ (_, _) => apply wp_update
  | |- wp state _ (_, _) => apply wp_state
  | |- wp (gets _) _ _ => apply wp_gets
  | |- wp (lift _) _ (_, _) => apply wp_lift; intros ? ? ?
  | |- wp (if ?b then _ else _) _ _ => destruct b eqn:?
  | |- wp (match ?x with _ => _ end) _ _ => destruct x eqn:?
  end.

(** Every step of a chain [w0, w1, ...] of worlds is brought back to [w0]. *)
Ltac later_from E lem :=
  let Hl := fresh "Hl" in
  pose proof (respects_run later _ _ _ _ lem E) as Hl.

Ltac chain :=
  repeat match goal with
  | H1 : later ?a ?b, H2 : later ?b ?c |- _ =>
      assert (later a c) by (etrans; [exact H1|exact H2]); clear H2
  end.

Section ProcessFile.
Context `{GoLibrary} (analyzer : Analyzer) (cfg : Config).

(** The fields of the state [processFile] never writes. *)
Definition sameProgress (s s' : State) : Prop :=
  CoverageHistory s' = CoverageHistory s
  /\ CurrentIteration s' = CurrentIteration s
  /\ RateLimitResetTime s' = RateLimitResetTime s.

(** What [processFile] does to the ledgers, by what it returns. *)
Definition processed (item : WorkItem) (s : State) (w : World)
    (r : option error) (s' : State) (w' : World) : Prop :=
  later w w' /\ sameProgress s s' /\
  match r with
  | Some err =>
      asRateLimitError err = None
      /\ ProcessedFiles s' = ProcessedFiles s
      /\ FailedFiles s' = FailedFiles s
  | None =>
      (ProcessedFiles s' = <[WI.SourceFile item := true]> (ProcessedFiles s)
       /\ FailedFiles s' = FailedFiles s
       /\ (Cfg.DryRun cfg = true
           \/ exists i r, verdict (validate_out w i) = inl r
                          /\ Success r = true))
      \/ (Cfg.DryRun cfg = false
          /\ ProcessedFiles s' = ProcessedFiles s
          /\ exists i r, verdict (validate_out w i) = inl r
               /\ Success r = false
               /\ FailedFiles s'
                  = <[WI.SourceFile item := ErrorMessage r]> (FailedFiles s))
  end.

Lemma ValidateAndRetry_verdict t N w v w' :
  ValidateAndRetry t N w = (v, w') ->
  later w w'
  /\ forall r, v = Checked r ->
       exists i, verdict (validate_out w i) = inl r.
Proof.
  intros E. split; [by eapply respects_run; [apply ValidateAndRetry_later|]|].
  unfold ValidateAndRetry in E.
  apply retryLadder_spec in E as (_ & _ & _ & _ & Hlast & _).
  intros r Hr. eexists. apply Hlast. exact Hr.
Qed.

Lemma checkAndRecord_spec item testFile s w s1 w1 :
  later w w1 -> sameProgress s s1 ->
  ProcessedFiles s1 = ProcessedFiles s -> FailedFiles s1 = FailedFiles s ->
  wp (checkAndRecord cfg item testFile)
     (fun r sw' => processed item s w r (fst sw') (snd sw')) (s1, w1).
Proof.
  intros Hw1 Hprog Hp Hf. unfold checkAndRecord.
  destruct (Cfg.DryRun cfg) eqn:Hdry; cbn [negb].
  - apply wp_bind, wp_update, wp_ret. cbn [fst snd].
    split; [done|]. split; [by destruct s1|]. left.
    rewrite <- Hp, <- Hf. split; [by destruct s1|]. split; [by destruct s1|].
    by left.
  - apply wp_bind, wp_lift. intros v w3 E3.
    apply ValidateAndRetry_verdict in E3 as [Hl3 Hv].
    assert (later w w3) by (by etrans).
    destruct v as [result|partial err].
    + destruct (Hv result eq_refl) as [i Hi].
      rewrite (later_validate _ _ Hw1) in Hi.
      destruct (Success result) eqn:Hs; cbn [negb];
        apply wp_bind, wp_update, wp_ret; cbn [fst snd];
        (split; [done|]); (split; [by destruct s1|]).
      * left. rewrite <- Hp, <- Hf.
        split; [by destruct s1|]. split; [by destruct s1|]. right. eauto.
      * right. split; [done|]. rewrite <- Hp, <- Hf.
        split; [by destruct s1|]. exists i, result.
        split; [done|]. split; [done|]. by destruct s1.
    + apply wp_ret. cbn [fst snd]. split; [done|]. by split.
Qed.

(** [obtainTest] leaves ledgers and progress alone, and no error it returns
    is a bare [RateLimitError]: the generator has wrapped it. *)
Lemma obtainTest_spec item s w :
  wp (obtainTest analyzer cfg item)
     (fun made sw' =>
        later w (snd sw') /\ sameProgress s (fst sw')
        /\ ProcessedFiles (fst sw') = ProcessedFiles s
        /\ FailedFiles (fst sw') = FailedFiles s
        /\ match made with
           | inr err => asRateLimitError err = None
           | inl _ => True
           end) (s, w).
Proof.
  unfold obtainTest.
  destruct (WI.Exists item); cbn [negb]; destruct (Cfg.DryRun cfg); cbn [negb].
  - apply wp_ret. cbn [fst snd]. by repeat split.
  - apply wp_bind, wp_lift. intros now w2 E2. later_from E2 Now_later.
    apply wp_bind, wp_update, wp_bind, wp_lift. intros g w3 E3.
    later_from E3 (ImproveExistingTest_later (WI.SourceFile item) (WI.TestFile item)).
    assert (later w w3) by (by etrans).
    destruct g as [testFile|err].
    + apply wp_bind, wp_update, wp_ret. cbn [fst snd].
      split; [done|]. by destruct s.
    + apply wp_ret. cbn [fst snd]. split; [done|]. by destruct s.
  - apply wp_ret. cbn [fst snd]. by repeat split.
  - apply wp_bind, wp_lift. intros now w2 E2. later_from E2 Now_later.
    apply wp_bind, wp_update, wp_bind, wp_lift. intros g w3 E3.
    later_from E3 (GenerateTestForFile_later analyzer (WI.SourceFile item)).
    assert (later w w3) by (by etrans).
    destruct g as [testFile|err].
    + apply wp_bind, wp_update, wp_ret. cbn [fst snd].
      split; [done|]. by destruct s.
    + apply wp_ret. cbn [fst snd]. split; [done|]. by destruct s.
Qed.

Lemma processFile_spec item s w :
  wp (processFile analyzer cfg item)
     (fun r sw' => processed item s w r (fst sw') (snd sw')) (s, w).
Proof.
  unfold processFile.
  apply wp_bind, wp_lift. intros c w1 E1. later_from E1 Done_later.
  destruct c.
  { apply wp_ret. split; [done|]. by split. }
  apply wp_bind. eapply wp_mono; [apply obtainTest_spec|].
  intros made [s2 w2] (Hl2 & Hprog & Hp & Hf & Hmade). cbn [fst snd] in *.
  assert (later w w2) by (by etrans).
  destruct made as [testFile|err].
  - by apply checkAndRecord_spec.
  - apply wp_ret. cbn [fst snd]. split; [done|]. by split.
Qed.
End ProcessFile.

(** ** What a session never undoes *)

(** The two ledgers are disjoint, and a key of [ProcessedFiles] is a
    processed unit. *)
Definition LedgersOK (s : State) : Prop :=
  (forall u b, ProcessedFiles s !! u = Some b -> b = true)
  /\ (forall u, is_Some (ProcessedFiles s !! u) -> FailedFiles s !! u = None).

(** A clock that does not run backwards. *)
Definition steadyClock (w : World) : Prop :=
  forall i j, (i <= j)%nat -> clock w i <= clock w j.

(** Snapshots are in order of iteration and of time, none from a later
    iteration than the current one or from after the next clock reading. *)
Definition inOrder (a b : CoverageSnapshot) : Prop :=
  Iteration a <= Iteration b /\ Timestamp a <= Timestamp b.

Definition HistoryOK (s : State) (w : World) : Prop :=
  StronglySorted inOrder (CoverageHistory s)
  /\ Forall (fun c => Iteration c <= CurrentIteration s
                      /\ Timestamp c <= clock w (ticks w))
            (CoverageHistory s).

(** Snapshots are in order of iteration, whatever the clocks said, and
    none is from a later iteration than the current one. *)
Definition IterationsOK (s : State) : Prop :=
  StronglySorted (fun a b => Iteration a <= Iteration b) (CoverageHistory s)
  /\ Forall (fun c => Iteration c <= CurrentIteration s) (CoverageHistory s).

Record advances (sw sw' : State * World) : Prop := mkAdvances {
  adv_later : later (snd sw) (snd sw');
  adv_processed : forall u,
    ProcessedFiles (fst sw) !! u = Some true ->
    ProcessedFiles (fst sw') !! u = Some true;
  adv_failed : forall u m,
    FailedFiles (fst sw) !! u = Some m -> FailedFiles (fst sw') !! u = Some m;
  adv_ledgers : LedgersOK (fst sw) -> LedgersOK (fst sw');
  adv_history : CoverageHistory (fst sw) `prefix_of` CoverageHistory (fst sw');
  adv_iteration : CurrentIteration (fst sw) <= CurrentIteration (fst sw');
  adv_ordered :
    steadyClock (snd sw) -> HistoryOK (fst sw) (snd sw) ->
    HistoryOK (fst sw') (snd sw');
  adv_iterations : IterationsOK (fst sw) -> IterationsOK (fst sw')
}.

Lemma steadyClock_later w w' : later w w' -> steadyClock w -> steadyClock w'.
Proof. intros Hl Hc i j Hij. rewrite (later_clock _ _ Hl). by apply Hc. Qed.

#[global] Instance advances_preorder : PreOrder advances.
Proof.
  split.
  - intros sw. by split.
  - intros x y z [] []. split; try (by etrans); auto.
    intros Hc Hx. apply adv_ordered1; [by eapply steadyClock_later|auto].
Qed.


Lemma HistoryOK_later s w s' w' :
  later w w' -> steadyClock w ->
  CoverageHistory s' = CoverageHistory s ->
  CurrentIteration s <= CurrentIteration s' ->
  HistoryOK s w -> HistoryOK s' w'.
Proof.
  intros Hl Hc Hh Hi [Hs Hb]. unfold HistoryOK. rewrite Hh. split; [done|].
  eapply Forall_impl; [exact Hb|]. intros c [? ?]. split; [lia|].
  rewrite (later_clock _ _ Hl).
  etrans; [eassumption|]. apply Hc, (later_ticks _ _ Hl).
Qed.

Lemma IterationsOK_same s s' :
  CoverageHistory s' = CoverageHistory s ->
  CurrentIteration s <= CurrentIteration s' ->
  IterationsOK s -> IterationsOK s'.
Proof.
  intros Hh Hi [Hs Hb]. unfold IterationsOK. rewrite Hh. split; [done|].
  eapply Forall_impl; [exact Hb|]. intros c Hc. cbn beta in *. lia.
Qed.

(** A step that touches neither ledger, nor the history. *)
Lemma advances_quiet s w s' w' :
  later w w' ->
  ProcessedFiles s' = ProcessedFiles s ->
  FailedFiles s' = FailedFiles s ->
  CoverageHistory s' = CoverageHistory s ->
  CurrentIteration s <= CurrentIteration s' ->
  advances (s, w) (s', w').
Proof.
  intros Hl Hp Hf Hh Hi. split; cbn [fst snd]; try done.
  - by rewrite Hp.
  - by rewrite Hf.
  - unfold LedgersOK. by rewrite Hp, Hf.
  - by rewrite Hh.
  - intros. by eapply HistoryOK_later.
  - by apply IterationsOK_same.
Qed.

(** A measurement is appended. *)
Lemma advances_snapshot s w w' cov :
  later w w' -> (ticks w < ticks w')%nat ->
  advances (s, w) (AddCoverageSnapshot (clock w (ticks w)) cov s, w').
Proof.
  intros Hl Ht. split; cbn [fst snd]; try done; try (by destruct s).
  - destruct s; simpl. by apply prefix_app_r.
  - intros Hc [Hs Hb]. destruct s; simpl in *. split.
    + apply StronglySorted_app_2; [|done|repeat constructor].
      intros a b Ha ->%list_elem_of_singleton. simpl.
      rewrite Forall_forall in Hb. destruct (Hb a Ha). done.
    + apply Forall_app. split.
      * eapply Forall_impl; [exact Hb|]. intros c [? ?]. split; [done|].
        rewrite (later_clock _ _ Hl). etrans; [eassumption|].
        apply Hc. lia.
      * constructor; [|constructor]. simpl. split; [lia|].
        rewrite (later_clock _ _ Hl). apply Hc. lia.
  - intros [Hs Hb]. destruct s; simpl in *. split.
    + apply StronglySorted_app_2; [|done|repeat constructor].
      intros a b Ha ->%list_elem_of_singleton. simpl.
      rewrite Forall_forall in Hb. exact (Hb a Ha).
    + apply Forall_app. split; [done|].
      constructor; [|constructor]. simpl. lia.
Qed.

(** A unit in neither ledger is put into one. *)
Lemma advances_processed s w s' w' u :
  later w w' -> IsFileProcessed u s = false -> FailedFiles s !! u = None ->
  ProcessedFiles s' = <[u := true]> (ProcessedFiles s) ->
  FailedFiles s' = FailedFiles s ->
  CoverageHistory s' = CoverageHistory s ->
  CurrentIteration s' = CurrentIteration s ->
  advances (s, w) (s', w').
Proof.
  intros Hl Hu Hfu Hp Hf Hh Hi. split; cbn [fst snd]; try done.
  - intros v Hv. rewrite Hp. destruct (decide (u = v)) as [->|Hne].
    + by rewrite lookup_insert_eq.
    + by rewrite lookup_insert_ne.
  - by rewrite Hf.
  - intros [H1 H2]. unfold LedgersOK. rewrite Hp, Hf. split.
    + intros v b. destruct (decide (u = v)) as [->|Hne].
      * rewrite lookup_insert_eq. by intros [= <-].
      * rewrite lookup_insert_ne by done. apply H1.
    + intros v. destruct (decide (u = v)) as [->|Hne]; [done|].
      rewrite lookup_insert_ne by done. apply H2.
  - by rewrite Hh.
  - lia.
  - intros. eapply HistoryOK_later; try done. lia.
  - apply IterationsOK_same; [done|lia].
Qed.

Lemma advances_failed s w s' w' u m :
  later w w' -> IsFileProcessed u s = false -> FailedFiles s !! u = None ->
  ProcessedFiles s' = ProcessedFiles s ->
  FailedFiles s' = <[u := m]> (FailedFiles s) ->
  CoverageHistory s' = CoverageHistory s ->
  CurrentIteration s' = CurrentIteration s ->
  advances (s, w) (s', w').
Proof.
  intros Hl Hu Hfu Hp Hf Hh Hi. split; cbn [fst snd]; try done.
  - by rewrite Hp.
  - intros v m' Hv. rewrite Hf. destruct (decide (u = v)) as [->|Hne].
    + congruence.
    + by rewrite lookup_insert_ne.
  - intros [H1 H2]. unfold LedgersOK. rewrite Hp, Hf. split; [done|].
    intros v Hv. destruct (decide (u = v)) as [->|Hne].
    + destruct Hv as [b Hb]. pose proof (H1 _ _ Hb) as ->.
      unfold IsFileProcessed in Hu. by rewrite Hb in Hu.
    + rewrite lookup_insert_ne by done. by apply H2.
  - by rewrite Hh.
  - lia.
  - intros. eapply HistoryOK_later; try done. lia.
  - apply IterationsOK_same; [done|lia].
Qed.

Section Session.
Context `{GoLibrary} (analyzer : Analyzer) (cfg : Config).

Lemma SaveState_advances s w :
  wp (SaveState cfg) (fun _ sw' => advances (s, w) sw') (s, w).
Proof.
  unfold wp. destruct (SaveState cfg (s, w)) as [r [s' w']] eqn:E.
  apply SaveState_run in E as (-> & Hl & _). cbn [fst snd].
  apply advances_quiet; [done|by destruct s..|by destruct s; simpl; lia].
Qed.

(** Chaining: from [sw0] to here, and from here on. *)
Lemma wp_advances {A} (m : M (State * World) A) sw0 sw :
  advances sw0 sw ->
  wp m (fun _ sw' => advances sw sw') sw ->
  wp m (fun _ sw' => advances sw0 sw') sw.
Proof. intros H0 Hm. eapply wp_mono; [exact Hm|]. intros a sw' ?. by etrans. Qed.

Lemma wp_bind_advances {A B} (m : M (State * World) A)
    (k : A -> M (State * World) B) sw0 sw :
  advances sw0 sw ->
  wp m (fun _ sw' => advances sw sw') sw ->
  (forall a sw', advances sw0 sw' ->
     wp (k a) (fun _ sw'' => advances sw0 sw'') sw') ->
  wp (bind m k) (fun _ sw'' => advances sw0 sw'') sw.
Proof.
  intros H0 Hm Hk. apply wp_bind. eapply wp_mono; [exact Hm|].
  intros a sw' Ha. apply Hk. by etrans.
Qed.

(** [e <~ SaveState; ret (f e)]. *)
Lemma save_and_return_advances {A} (f : option error -> A) sw0 s w :
  advances sw0 (s, w) ->
  wp (bind (SaveState cfg) (fun e => ret (f e)))
     (fun _ sw' => advances sw0 sw') (s, w).
Proof.
  intros H0. apply (wp_bind_advances _ _ _ _ H0); [apply SaveState_advances|].
  intros e sw' ?. by apply wp_ret.
Qed.

Lemma saveAndContinue_advances s w :
  wp (saveAndContinue cfg) (fun _ sw' => advances (s, w) sw') (s, w).
Proof.
  unfold saveAndContinue.
  apply (wp_bind_advances _ _ (s, w) (s, w)); [done|apply SaveState_advances|].
  intros [err|] sw' Hadv; by apply wp_ret.
Qed.

Lemma awaitTurn_advances s w :
  wp (awaitTurn cfg) (fun _ sw' => advances (s, w) sw') (s, w).
Proof.
  unfold awaitTurn.
  apply wp_bind, wp_lift. intros c w1 E1. later_from E1 Done_later.
  assert (advances (s, w) (s, w1)) as H1 by (by apply advances_quiet).
  destruct c; [by apply save_and_return_advances|].
  apply wp_bind, wp_state, wp_bind.
  assert (wp (if IsZero (RateLimitResetTime s) then ret (false, 0)
              else bind (lift Sys.Now)
                     (fun now => ret (ShouldWaitForRateLimit now s)))
             (fun _ sw' => advances (s, w) sw' /\ fst sw' = s) (s, w1)) as Hwait.
  { destruct (IsZero _).
    - by apply wp_ret.
    - apply wp_bind, wp_lift. intros now w2 E2. later_from E2 Now_later.
      apply wp_ret. split; [|done]. apply advances_quiet; try done.
      by etrans. }
  eapply wp_mono; [exact Hwait|]. intros wait [s2 w2] [H2 Hs2].
  cbn [fst] in Hs2. subst s2.
  destruct (fst wait); [|by apply wp_ret].
  apply (wp_bind_advances _ _ _ _ H2); [apply SaveState_advances|].
  intros sv [s3 w3] H3.
  destruct sv; [by apply wp_ret|].
  apply wp_bind, wp_lift. intros c w4 E4. later_from E4 Done_later.
  assert (advances (s, w) (s3, w4)) as H4.
  { etrans; [exact H3|]. by apply advances_quiet. }
  destruct c; [by apply save_and_return_advances|].
  apply wp_bind, wp_lift. intros u w5 E5. later_from E5 (Sleep_later (snd wait)).
  apply wp_ret. etrans; [exact H4|]. by apply advances_quiet.
Qed.

Lemma unclassified_head report s fs item rest :
  prioritizeWorkItems analyzer report s fs = item :: rest ->
  unclassified s (WI.SourceFile item).
Proof.
  intros Hp.
  assert (item ∈ prioritizeWorkItems analyzer report s fs) as Hin
    by (rewrite Hp; left).
  apply elem_of_prioritizeWorkItems in Hin as (u & _ & Hw).
  by apply workItemFor_Some in Hw as [Hu ->].
Qed.

Lemma improve_advances s w :
  wp (improve analyzer cfg) (fun _ sw' => advances (s, w) sw') (s, w).
Proof.
  unfold improve.
  apply wp_bind, wp_update, wp_bind, wp_lift. intros cov w1 E1.
  later_from E1 RunCoverage_later.
  set (s1 := set_CurrentIteration (CurrentIteration s + 1) s).
  assert (advances (s, w) (s1, w1)) as H1.
  { apply advances_quiet; [done|by destruct s..|by destruct s; simpl; lia]. }
  destruct cov as [report|err]; [|by apply wp_ret].
  apply wp_bind, wp_lift. intros now w2 E2.
  apply Now_run in E2 as (-> & Ht2 & Hl2 & _).
  apply wp_bind, wp_update.
  set (s2 := AddCoverageSnapshot _ _ s1).
  assert (advances (s, w) (s2, w2)) as H2.
  { etrans; [exact H1|]. apply advances_snapshot; [done|lia]. }
  destruct (PrimFloat.leb _ _); [by apply save_and_return_advances|].
  apply wp_bind, wp_gets. cbn [fst snd id].
  destruct (prioritizeWorkItems analyzer report s2 (files w2))
    as [|item rest] eqn:Hprio; [by apply save_and_return_advances|].
  apply unclassified_head in Hprio as [Hu Hfu].
  apply wp_bind. eapply wp_mono; [apply processFile_spec|].
  intros perr [s3 w3] (Hl3 & (Hh3 & Hi3 & _) & Hcase). cbn [fst snd] in *.
  destruct perr as [err|].
  - destruct Hcase as (_ & Hp3 & Hf3).
    assert (advances (s, w) (s3, w3)) as H3.
    { etrans; [exact H2|]. apply advances_quiet; try done. lia. }
    destruct (asRateLimitError err) as [[resetTime ?]|].
    + apply wp_bind, wp_update.
      assert (advances (s, w) (SetRateLimitReset resetTime s3, w3)) as H4.
      { etrans; [exact H3|].
        apply advances_quiet; [done|by destruct s3..|by destruct s3; simpl; lia]. }
      apply (wp_advances _ _ _ H4), saveAndContinue_advances.
    + apply wp_bind, wp_update.
      assert (advances (s, w)
                (MarkFileFailed (WI.SourceFile item) (Error err) s3, w3)) as H4.
      { etrans; [exact H2|].
        eapply advances_failed; try done.
        - by rewrite <- Hp3; destruct s3.
        - rewrite <- Hf3. by destruct s3.
        - by rewrite <- Hh3; destruct s3.
        - by rewrite <- Hi3; destruct s3. }
      apply (wp_advances _ _ _ H4), saveAndContinue_advances.
  - assert (advances (s, w) (s3, w3)) as H3.
    { etrans; [exact H2|].
      destruct Hcase as [(Hp3 & Hf3 & _)|(_ & Hp3 & i & r & _ & _ & Hf3)].
      - by eapply advances_processed.
      - by eapply advances_failed. }
    apply (wp_advances _ _ _ H3), saveAndContinue_advances.
Qed.

Lemma iteration_advances s w :
  wp (iteration analyzer cfg) (fun _ sw' => advances (s, w) sw') (s, w).
Proof.
  unfold iteration. apply wp_bind.
  eapply wp_mono; [apply awaitTurn_advances|].
  intros [e|] [s1 w1] H1; [by apply wp_ret|].
  apply (wp_advances _ _ _ H1), improve_advances.
Qed.

Lemma mainLoop_advances fuel : forall s w,
  wp (mainLoop analyzer cfg fuel) (fun _ sw' => advances (s, w) sw') (s, w).
Proof.
  induction fuel as [|fuel IH]; intros s w; simpl;
    apply wp_bind, wp_state; destruct (_ <? _).
  - by apply wp_ret.
  - by apply save_and_return_advances.
  - apply wp_bind. eapply wp_mono; [apply iteration_advances|].
    intros [|e] [s1 w1] H1; [|by apply wp_ret].
    apply (wp_advances _ _ _ H1), IH.
  - by apply save_and_return_advances.
Qed.

Lemma analyseFirst_advances s w :
  wp (analyseFirst cfg) (fun _ sw' => advances (s, w) sw') (s, w).
Proof.
  unfold analyseFirst.
  apply wp_bind, wp_lift. intros cov w1 E1. later_from E1 RunCoverage_later.
  destruct cov as [report|err]; [|apply wp_ret; by apply advances_quiet].
  apply wp_bind, wp_lift. intros now w2 E2.
  apply Now_run in E2 as (-> & Ht2 & Hl2 & _).
  apply wp_bind, wp_update.
  set (s2 := AddCoverageSnapshot _ _ s).
  assert (advances (s, w) (s2, w2)) as H2.
  { etrans; [apply (advances_quiet s w s w1); done|].
    apply advances_snapshot; [done|lia]. }
  destruct (PrimFloat.ltb _ _); [|by apply save_and_return_advances].
  apply wp_bind, wp_state. destruct (negb _).
  - by apply save_and_return_advances.
  - by apply wp_ret.
Qed.

Lemma Run_advances s w :
  wp (Run analyzer cfg) (fun _ sw' => advances (s, w) sw') (s, w).
Proof.
  unfold Run. apply wp_bind.
  eapply wp_mono; [apply analyseFirst_advances|].
  intros [e|] [s1 w1] H1; [by apply wp_ret|].
  apply wp_bind, wp_state.
  apply (wp_advances _ _ _ H1), mainLoop_advances.
Qed.
End Session.

(** ** One pass of the loop, path by path *)

Section Passes.
Context `{GoLibrary} (analyzer : Analyzer) (cfg : Config).

(** The state and the world right after the measurement of a pass that
    starts in [s] and [w] and is answered [report]. *)
Definition measured (s : State) (w : World) (report : CoverageReport)
    : State * World :=
  (AddCoverageSnapshot (clock w (ticks w)) (Cov.TotalCoverage report)
     (set_CurrentIteration (CurrentIteration s + 1) s),
   snd (Sys.Now (snd (Sys.RunCoverage w)))).

Lemma measured_ledgers s w report :
  ProcessedFiles (fst (measured s w report)) = ProcessedFiles s
  /\ FailedFiles (fst (measured s w report)) = FailedFiles s
  /\ files (snd (measured s w report)) = files w.
Proof. by destruct s, w. Qed.

(** How the pass goes on after [processFile]. *)
Definition recorded (item : WorkItem)
    (res : option error * (State * World)) : Step * (State * World) :=
  match fst res with
  | Some err =>
      match asRateLimitError err with
      | Some (resetTime, _) =>
          saveAndContinue cfg
            (SetRateLimitReset resetTime (fst (snd res)), snd (snd res))
      | None =>
          saveAndContinue cfg
            (MarkFileFailed (WI.SourceFile item) (Error err) (fst (snd res)),
             snd (snd res))
      end
  | None => saveAndContinue cfg (snd res)
  end.

Definition savedAndReturned (sw : State * World) : Step * (State * World) :=
  (Return (fst (SaveState cfg sw)), snd (SaveState cfg sw)).

Lemma improve_unfold s w report :
  coverage_out w (measurements w) = inl report ->
  improve analyzer cfg (s, w)
  = if PrimFloat.leb (Cfg.TargetCoverage cfg) (Cov.TotalCoverage report)
    then savedAndReturned (measured s w report)
    else match prioritizeWorkItems analyzer report s (files w) with
         | [] => savedAndReturned (measured s w report)
         | item :: _ =>
             recorded item (processFile analyzer cfg item (measured s w report))
         end.
Proof.
  intros Hcov.
  destruct (measured_ledgers s w report) as (Hp & Hf & Hfs).
  rewrite <- (prioritizeWorkItems_ledgers analyzer report s _ _ Hp Hf), <- Hfs.
  unfold improve, measured, savedAndReturned, recorded.
  unfold bind at 1. unfold update at 1, modify at 1. cbn [fst snd].
  unfold bind at 1. unfold lift at 1. cbn [fst snd].
  destruct w as [clk tk cd pl cvo ms ho rq vo vs ioo iop fl sf tr].
  cbn [coverage_out measurements] in Hcov. cbn [Sys.RunCoverage fst snd]. rewrite Hcov.
  unfold bind at 1. unfold lift at 1. cbn [Sys.Now fst snd].
  unfold bind at 1. unfold update at 1, modify at 1. cbn [fst snd].
  destruct (PrimFloat.leb _ _).
  { unfold bind at 1. by destruct (SaveState cfg _) as [e sw']. }
  unfold bind at 1. unfold gets at 1. cbn [fst snd id].
  destruct (prioritizeWorkItems _ _ _ _) as [|item rest].
  { unfold bind at 1. by destruct (SaveState cfg _) as [e sw']. }
  unfold bind at 1. destruct (processFile _ _ _ _) as [[err|] [s3 w3]]; cbn [fst snd].
  - destruct (asRateLimitError err) as [[resetTime ?]|]; unfold bind at 1; done.
  - done.
Qed.

Lemma measured_world s w report :
  let w1 := snd (measured s w report) in
  later w w1
  /\ requests w1 = requests w /\ validations w1 = validations w
  /\ files w1 = files w /\ polls w1 = polls w /\ io_ops w1 = io_ops w
  /\ state_files w1 = state_files w
  /\ ticks w1 = S (ticks w) /\ measurements w1 = S (measurements w)
  /\ trace w1 = EvCoverage :: trace w.
Proof.
  destruct w. cbn. split; [|done].
  split; simpl; try done; try lia. by apply suffix_cons_r.
Qed.

Lemma measured_state s w report :
  let s1 := fst (measured s w report) in
  CurrentIteration s1 = CurrentIteration s + 1
  /\ CurrentCoverage s1 = Cov.TotalCoverage report
  /\ CoverageHistory s1
     = CoverageHistory s
       ++ [ mkSnapshot (clock w (ticks w)) (Cov.TotalCoverage report)
              (CurrentIteration s + 1)
              (Z.of_nat (length (GeneratedTests s))
               + Z.of_nat (length (FixedTests s))) ]
  /\ GeneratedTests s1 = GeneratedTests s /\ FixedTests s1 = FixedTests s
  /\ APICallCount s1 = APICallCount s
  /\ RateLimitResetTime s1 = RateLimitResetTime s.
Proof. by destruct s. Qed.

(** The state [SaveState] leaves behind, and what was written. *)
Definition stamped (s : State) (w : World) : State :=
  set_LastUpdatedAt (clock w (ticks w)) s.

Lemma stamped_fields s w :
  ProcessedFiles (stamped s w) = ProcessedFiles s
  /\ FailedFiles (stamped s w) = FailedFiles s
  /\ CoverageHistory (stamped s w) = CoverageHistory s
  /\ CurrentIteration (stamped s w) = CurrentIteration s
  /\ CurrentCoverage (stamped s w) = CurrentCoverage s
  /\ GeneratedTests (stamped s w) = GeneratedTests s
  /\ FixedTests (stamped s w) = FixedTests s
  /\ APICallCount (stamped s w) = APICallCount s
  /\ RateLimitResetTime (stamped s w) = RateLimitResetTime s.
Proof. by destruct s. Qed.

Lemma saveAndContinue_run s w st s' w' :
  saveAndContinue cfg (s, w) = (st, (s', w')) ->
  s' = stamped s w
  /\ later w w'
  /\ requests w' = requests w /\ validations w' = validations w
  /\ files w' = files w /\ measurements w' = measurements w
  /\ ((st = Continue
       /\ exists doc, Json.marshal_state s' = Some doc
            /\ state_files w' = <[Cfg.StateFile cfg := doc]> (state_files w)
            /\ trace w' = EvSaveState (Cfg.StateFile cfg) doc :: trace w)
      \/ (exists e, st = Return (Some (wrapError "failed to save state" e))
                    /\ state_files w' = state_files w /\ trace w' = trace w)).
Proof.
  unfold saveAndContinue, bind.
  destruct (SaveState cfg (s, w)) as [sv [s1 w1]] eqn:E.
  apply SaveState_run in E as (-> & Hl & Hr & Hv & Hf & Hm & _ & Hsv).
  destruct sv as [e|]; intros [= <- <- <-];
    (split; [done|]); (split; [done|]); (split; [done|]); (split; [done|]);
    (split; [done|]); (split; [done|]).
  - right. destruct Hsv. eauto.
  - left. destruct Hsv as (doc & ? & _ & ? & ?). eauto.
Qed.

Lemma savedAndReturned_run sw e s' w' :
  savedAndReturned sw = (Return e, (s', w')) ->
  SaveState cfg sw = (e, (s', w')).
Proof.
  unfold savedAndReturned. destruct (SaveState cfg sw) as [e' [s1 w1]].
  by intros [= <- <- <-].
Qed.

(** A saved state can be read back. *)
Lemma LoadState_run s w doc loaded :
  state_files w !! Cfg.StateFile cfg = Some doc ->
  io_out w (io_ops w) = None ->
  Json.unmarshal_state doc = Some loaded ->
  exists w', LoadState cfg (s, w) = (None, (loaded, w')) /\ later w w'.
Proof.
  intros Hfile Hio Hdoc.
  pose proof (ReadState_later (Cfg.StateFile cfg) w) as Hl.
  unfold LoadState, bind, lift, update, modify, ret. cbn [fst snd].
  unfold Sys.ReadState, bind, gets, id, ret in *. rewrite Hfile in *.
  destruct w as [? ? ? ? ? ? ? ? ? ? answers cursor ? ? ?].
  cbn [Sys.io io_out io_ops fst snd] in *. rewrite Hio in *.
  cbn [fst snd] in *. rewrite Hdoc. eauto.
Qed.
End Passes.

Section Target.
Context `{GoLibrary} (analyzer : Analyzer) (cfg : Config).

(** A pass whose measurement is at or above the target saves the state and
    makes [Run] return in that pass; between the measurement and the
    return nothing is generated, validated or written but the state
    file. *)
Lemma improve_at_target (s : State) (w : World) (report : CoverageReport) :
  coverage_out w (measurements w) = inl report ->
  PrimFloat.leb (Cfg.TargetCoverage cfg) (Cov.TotalCoverage report) = true ->
  exists e s' w',
    improve analyzer cfg (s, w) = (Return e, (s', w'))
    /\ (forall fuel s0 w0,
          (CurrentIteration s0 <? Cfg.MaxIterations cfg) = true ->
          awaitTurn cfg (s0, w0) = (None, (s, w)) ->
          mainLoop analyzer cfg (S fuel) (s0, w0) = (Finished e, (s', w')))
    /\ CurrentIteration s' = CurrentIteration s + 1
    /\ CurrentCoverage s' = Cov.TotalCoverage report
    /\ APICallCount s' = APICallCount s
    /\ ProcessedFiles s' = ProcessedFiles s /\ FailedFiles s' = FailedFiles s
    /\ requests w' = requests w /\ validations w' = validations w
    /\ files w' = files w /\ measurements w' = S (measurements w)
    /\ match e with
       | None =>
           exists doc,
             trace w' = EvSaveState (Cfg.StateFile cfg) doc
                          :: EvCoverage :: trace w
             /\ state_files w' !! Cfg.StateFile cfg = Some doc
             /\ Json.unmarshal_state doc = Some s'
       | Some _ => trace w' = EvCoverage :: trace w
       end.
Proof.
  intros Hcov Hleb.
  pose proof (improve_unfold analyzer cfg s w report Hcov) as Himp.
  rewrite Hleb in Himp. unfold savedAndReturned in Himp.
  destruct (SaveState cfg (measured s w report)) as [e [s' w']] eqn:Hsave.
  cbn [fst snd] in Himp. exists e, s', w'. split; [done|].
  destruct (measured s w report) as [s1 w1] eqn:Hm.
  pose proof (measured_world s w report) as Hw. rewrite Hm in Hw.
  pose proof (measured_state s w report) as Hs. rewrite Hm in Hs.
  cbn [fst snd] in Hw, Hs.
  destruct Hw as (_ & Hrq & Hvs & Hfl & _ & _ & _ & _ & Hms & Htr).
  destruct Hs as (Hit & Hcur & _ & _ & _ & Hapi & _).
  assert (ProcessedFiles s1 = ProcessedFiles s /\ FailedFiles s1 = FailedFiles s)
    as [Hp1 Hf1].
  { pose proof (measured_ledgers s w report) as Hl. rewrite Hm in Hl. tauto. }
  apply SaveState_run in Hsave as (-> & _ & Hrq' & Hvs' & Hfl' & Hms' & _ & Hsv).
  fold (stamped s1 w1).
  destruct (stamped_fields s1 w1) as (Hp & Hf & _ & Hi & Hc & _ & _ & Ha & _).
  split.
  { intros fuel s0 w0 Hguard Hturn. cbn [mainLoop]. unfold bind at 1.
    unfold state, gets. cbn [fst snd]. rewrite Hguard.
    unfold bind at 1, iteration. unfold bind at 1. rewrite Hturn, Himp. done. }
  repeat (split; [congruence|]).
  destruct e as [err|].
  - destruct Hsv as [_ Ht]. congruence.
  - destruct Hsv as (doc & Hdoc & _ & Hsf & Ht). exists doc.
    split; [congruence|]. split; [by rewrite Hsf, lookup_insert_eq|].
    by apply unmarshal_marshal_state.
Qed.
End Target.

(** *** The scenario of the specification: target 80, measurements 65, 70
    and 82 in the first three passes (and 65 in the analysis before the
    loop, which looks at the same tree as the first pass). *)

Definition quietWorld : World :=
  {| clock := fun n => 1000 * Second + Z.of_nat n * Second; ticks := 0;
     ctx_done := fun _ => false; polls := 0;
     coverage_out := fun _ => inr (errorString "no coverage tool");
     measurements := 0;
     http_out := fun _ => SendFailed (errorString "connection refused");
     requests := 0;
     validate_out := fun _ => (true, "ok", None); validations := 0;
     io_out := fun _ => None; io_ops := 0;
     files := ∅; state_files := ∅; trace := [] |}.

Definition with_coverage (f : nat -> CoverageReport + error) (w : World) : World :=
  let 'mkWorld a b c d _ f' g h i j k l m n o := w in
  mkWorld a b c d f f' g h i j k l m n o.
Definition with_http (g : nat -> HttpOutcome) (w : World) : World :=
  let 'mkWorld a b c d e f _ h i j k l m n o := w in
  mkWorld a b c d e f g h i j k l m n o.
Definition with_validate (i : nat -> bool * string * option error) (w : World)
    : World :=
  let 'mkWorld a b c d e f g h _ j k l m n o := w in
  mkWorld a b c d e f g h i j k l m n o.
Definition with_ctx (c : nat -> bool) (w : World) : World :=
  let 'mkWorld a b _ d e f g h i j k l m n o := w in
  mkWorld a b c d e f g h i j k l m n o.
Definition with_clock (t : nat -> time) (w : World) : World :=
  let 'mkWorld _ b c d e f g h i j k l m n o := w in
  mkWorld t b c d e f g h i j k l m n o.

(** Three source files without tests, and a report at a given total. *)
Definition reportAt (total : float) : CoverageReport :=
  Cov.mkReport total
    {[ "a.go" := 10%float; "b.go" := 20%float; "c.go" := 30%float ]}
    ["a.go"; "b.go"; "c.go"]
    {[ "a.go" := [3; 4]; "b.go" := [7]; "c.go" := [1; 2; 9] ]}
    "Go".

Definition okReply : HttpOutcome :=
  HttpResponse 200 "" (mkBody "" (inl ["package main"])).

Definition cfg80 : Config :=
  Cfg.mkConfig "." 80%float "state.json" false 100 "key".

Definition scenarioWorld : World :=
  with_http (fun _ => okReply)
    (with_coverage
       (answers [inl (reportAt 65%float); inl (reportAt 65%float);
                 inl (reportAt 70%float); inl (reportAt 82%float)]
                (inl (reportAt 82%float)))
       quietWorld).

(** The state and the world after [n] passes of the loop. *)
Fixpoint passes `{GoLibrary} (analyzer : Analyzer) (cfg : Config) (n : nat)
    (sw : State * World) : State * World :=
  match n with
  | O => sw
  | S n' => passes analyzer cfg n' (snd (iteration analyzer cfg sw))
  end.

(** The state and the world in which the third pass measures. *)
Definition thirdPass : State * World :=
  snd (awaitTurn cfg80
         (passes GoAnalyzer cfg80 2
            (snd (analyseFirst cfg80 (New GoAnalyzer cfg80 scenarioWorld))))).


(** ** The ledgers over a session *)

(** A unit of a ledger is no work item. *)
Lemma classified_not_prioritized `{GoLibrary} analyzer report s fs u :
  IsFileProcessed u s = true \/ is_Some (FailedFiles s !! u) ->
  u ∉ WI.SourceFile <$> prioritizeWorkItems analyzer report s fs.
Proof.
  intros Hu (item & -> & Hin)%list_elem_of_fmap.
  apply elem_of_prioritizeWorkItems in Hin as (u & _ & Hw).
  apply workItemFor_Some in Hw as [[Hp Hf] ->]. cbn [WI.SourceFile] in Hu.
  destruct Hu as [Hu|[m Hu]]; congruence.
Qed.

Section Ledgers.
Context `{GoLibrary} (analyzer : Analyzer) (cfg : Config).

Lemma NewState_LedgersOK p t l n1 n2 : LedgersOK (NewState p t l n1 n2).
Proof. split; intros u; simpl; [intros b|]; by rewrite lookup_empty. Qed.

Lemma run_advances {A} (m : M (State * World) A) sw :
  (forall s w, wp m (fun _ sw' => advances (s, w) sw') (s, w)) ->
  advances sw (snd (m sw)).
Proof. intros Hm. destruct sw as [s w]. apply Hm. Qed.

Lemma passes_advances n : forall sw, advances sw (passes analyzer cfg n sw).
Proof.
  induction n as [|n IH]; intros sw; simpl; [done|].
  etrans; [|apply IH]. apply run_advances. apply iteration_advances.
Qed.

Lemma main_advances w r s w' :
  main analyzer cfg false w = (r, s, w') ->
  advances (New analyzer cfg w) (s, w').
Proof.
  unfold main, bind.
  destruct (New analyzer cfg w) as [s0 w0]. cbn [ret].
  pose proof (Run_advances analyzer cfg s0 w0) as HR. unfold wp in HR.
  destruct (Run analyzer cfg (s0, w0)) as [r' [s2 w2]]. cbn [fst snd] in HR.
  destruct r' as [[err|]|]; [|by intros [= <- <- <-]..].
  pose proof (SaveState_advances cfg s2 w2) as HS. unfold wp in HS.
  destruct (SaveState cfg (s2, w2)) as [e [s3 w3]]. cbn [fst snd] in *.
  intros [= <- <- <-]. etrans; [exact HR|exact HS].
Qed.

(** C3.  A session starts from [NewState] with the analysis before the
    loop.  After any number [n] of passes no unit is in both ledgers; and
    what a ledger holds for a unit then, it holds after any [m] further
    passes, the other ledger still not holding the unit: the same flag, the
    same error message.  Such a unit is no work item of any later pass, so
    it is not classified again.  The ledgers of the state [main] ends with
    are disjoint too. *)
Theorem classified_at_most_once (p : string) (t : float) (l : string)
    (n1 n2 : time) (w : World) (n m : nat) :
  let begun := snd (analyseFirst cfg (NewState p t l n1 n2, w)) in
  let reached := fst (passes analyzer cfg n begun) in
  let after := fst (passes analyzer cfg m (passes analyzer cfg n begun)) in
  (forall u, ~ (is_Some (ProcessedFiles reached !! u)
                /\ is_Some (FailedFiles reached !! u)))
  /\ (forall u b, ProcessedFiles reached !! u = Some b ->
        b = true
        /\ ProcessedFiles after !! u = Some true
        /\ FailedFiles after !! u = None)
  /\ (forall u msg, FailedFiles reached !! u = Some msg ->
        FailedFiles after !! u = Some msg
        /\ ProcessedFiles after !! u = None)
  /\ (forall u report fs,
        is_Some (ProcessedFiles reached !! u)
        \/ is_Some (FailedFiles reached !! u) ->
        u ∉ WI.SourceFile <$> prioritizeWorkItems analyzer report after fs)
  /\ (forall w0 u,
        ~ (is_Some (ProcessedFiles (snd (fst (main analyzer cfg false w0))) !! u)
           /\ is_Some (FailedFiles (snd (fst (main analyzer cfg false w0))) !! u))).
Proof.
  intros begun reached after.
  assert (advances (NewState p t l n1 n2, w) begun) as H0
    by (apply run_advances, analyseFirst_advances).
  assert (advances begun (passes analyzer cfg n begun)) as H1
    by apply passes_advances.
  assert (advances (passes analyzer cfg n begun)
            (passes analyzer cfg m (passes analyzer cfg n begun))) as H2
    by apply passes_advances.
  assert (LedgersOK reached) as [Hr1 Hr2].
  { apply (adv_ledgers _ _ H1), (adv_ledgers _ _ H0), NewState_LedgersOK. }
  assert (LedgersOK after) as [Ha1 Ha2].
  { by apply (adv_ledgers _ _ H2). }
  subst reached after.
  split; [|split; [|split; [|split]]].
  - intros u [Hp [msg Hf]]. apply Hr2 in Hp. congruence.
  - intros u b Hb. pose proof (Hr1 _ _ Hb) as ->. split; [done|].
    pose proof (adv_processed _ _ H2 _ Hb) as Hb'. split; [done|].
    apply Ha2. by eexists.
  - intros u msg Hf. pose proof (adv_failed _ _ H2 _ _ Hf) as Hf'.
    split; [done|].
    match goal with |- ?x = None => destruct x as [b|] eqn:Hb; [|done] end.
    rewrite Ha2 in Hf'; [done|by eexists].
  - intros u report fs Hu. apply classified_not_prioritized.
    destruct Hu as [[b Hb]|[msg Hf]].
    + left. pose proof (Hr1 _ _ Hb) as ->. unfold IsFileProcessed.
      by rewrite (adv_processed _ _ H2 _ Hb).
    + right. exists msg. exact (adv_failed _ _ H2 _ _ Hf).
  - intros w0 u.
    destruct (main analyzer cfg false w0) as [[r s] w'] eqn:Hmain.
    cbn [fst snd]. intros [Hp [msg Hf]].
    apply main_advances in Hmain as Hm.
    assert (LedgersOK (fst (New analyzer cfg w0))) as Hnew.
    { destruct w0. apply NewState_LedgersOK. }
    apply (adv_ledgers _ _ Hm) in Hnew as [_ Hdis]. cbn [fst] in Hdis.
    apply Hdis in Hp. congruence.
Qed.
End Ledgers.

(** ** Dry runs *)


Lemma Done_world w :
  requests (snd (Sys.Done w)) = requests w
  /\ validations (snd (Sys.Done w)) = validations w
  /\ files (snd (Sys.Done w)) = files w
  /\ trace (snd (Sys.Done w)) = trace w.
Proof. by destruct w. Qed.

Section DryRun.
Context `{GoLibrary} (analyzer : Analyzer) (cfg : Config).

Lemma processFile_dry item s w :
  Cfg.DryRun cfg = true ->
  ctx_done w (polls w) = false ->
  processFile analyzer cfg item (s, w)
  = (None, (MarkFileProcessed (WI.SourceFile item) s, snd (Sys.Done w))).
Proof.
  intros Hdry Hctx.
  unfold processFile, obtainTest, checkAndRecord. rewrite Hdry. cbn [negb].
  unfold bind at 1. unfold lift at 1.
  destruct w as [clk tk cd pl cvo ms ho rq vo vs ioo iop fl sf tr].
  cbn [ctx_done polls] in Hctx. cbn [Sys.Done fst snd]. rewrite Hctx.
  by destruct (WI.Exists item).
Qed.

End DryRun.

(** A dry run over three untested Go files at 65% of a target of 80%. *)
Definition dryCfg : Config :=
  Cfg.mkConfig "." 80%float "state.json" true 100 "key".

Definition dryWorld : World :=
  with_coverage (fun _ => inl (reportAt 65%float)) quietWorld.

Definition dryStart : State * World := New GoAnalyzer dryCfg dryWorld.

Definition dryItem : WorkItem :=
  WI.mkWorkItem "a.go" "a_test.go" 10%float [3; 4] 90 false.


(** ** Errors of the validation tool *)

Lemma log_aside e : isFix e = false -> respects aside (Sys.log e).
Proof. intros He []. unfold aside, fixes. simpl. by rewrite He. Qed.

Section HardError.
Context `{GoLibrary} (analyzer : Analyzer) (cfg : Config).

Lemma GenerateTestForFile_aside f : respects aside (GenerateTestForFile analyzer f).
Proof.
  unfold GenerateTestForFile. frame; auto with frame. by apply log_aside.
Qed.

Lemma ImproveExistingTest_aside f t : respects aside (ImproveExistingTest f t).
Proof.
  unfold ImproveExistingTest. frame; auto with frame. by apply log_aside.
Qed.

Lemma obtainTest_aside item : respects (onWorld aside) (obtainTest analyzer cfg item).
Proof.
  unfold obtainTest.
  destruct (negb (WI.Exists item)), (negb (Cfg.DryRun cfg)); frame;
    auto using GenerateTestForFile_aside, ImproveExistingTest_aside with frame.
Qed.

(** [processFile] when the context is not cancelled. *)
Lemma processFile_live item s w :
  ctx_done w (polls w) = false ->
  processFile analyzer cfg item (s, w)
  = let res := obtainTest analyzer cfg item (s, snd (Sys.Done w)) in
    match fst res with
    | inr err => (Some err, snd res)
    | inl testFile => checkAndRecord cfg item testFile (snd res)
    end.
Proof.
  intros Hctx. unfold processFile.
  unfold bind at 1. unfold lift at 1.
  destruct w as [clk tk cd pl cvo ms ho rq vo vs ioo iop fl sf tr].
  cbn [ctx_done polls] in Hctx. cbn [Sys.Done fst snd]. rewrite Hctx.
  unfold bind at 1.
  destruct (obtainTest analyzer cfg item _) as [[t|err] sw']; reflexivity.
Qed.

Lemma ValidateTest_world t w :
  exists w', ValidateTest t w = (verdict (validate_out w (validations w)), w')
    /\ later w w'
    /\ validations w' = S (validations w) /\ fixes w' = fixes w
    /\ requests w' = requests w /\ files w' = files w
    /\ trace w' = EvValidate t :: trace w.
Proof.
  pose proof (ValidateTest_later t w) as Hl.
  destruct w. eexists. split; [reflexivity|]. split; [exact Hl|]. done.
Qed.

(** A hard error of the first validation ends [ValidateAndRetry] at once. *)
Lemma ValidateAndRetry_hard t N w ok out e :
  validate_out w (validations w) = (ok, out, Some e) ->
  exists w',
    ValidateAndRetry t N w = (Broken None (wrapError "validation error" e), w')
    /\ later w w'
    /\ validations w' = S (validations w) /\ fixes w' = fixes w
    /\ requests w' = requests w /\ files w' = files w.
Proof.
  intros Hout.
  destruct (ValidateTest_world t w) as (w' & E & Hl & Hv & Hf & Hr & Hfl & _).
  rewrite Hout in E. cbn [verdict] in E.
  exists w'. split; [|done].
  unfold ValidateAndRetry.
  destruct (Z.to_nat (N + 1)); cbn [retryLadder]; unfold bind; by rewrite E.
Qed.

Lemma checkAndRecord_hard item t s w ok out e :
  Cfg.DryRun cfg = false ->
  validate_out w (validations w) = (ok, out, Some e) ->
  exists w',
    checkAndRecord cfg item t (s, w)
    = (Some (wrapError "validation error" (wrapError "validation error" e)),
       (s, w'))
    /\ later w w'
    /\ validations w' = S (validations w) /\ fixes w' = fixes w
    /\ requests w' = requests w /\ files w' = files w.
Proof.
  intros Hdry Hout.
  destruct (ValidateAndRetry_hard t 2 w ok out e Hout) as (w' & E & Hfacts).
  exists w'. split; [|exact Hfacts].
  unfold checkAndRecord. rewrite Hdry. cbn [negb].
  unfold bind, lift. cbn [fst snd]. by rewrite E.
Qed.

(** What the code does with an error of [ValidateTestFile], were an
    analyzer to return one: [ValidateTest] gives no result but the wrapped
    error, and [ValidateAndRetry] passes it on without a repair.  The
    orchestrator treats it like every other error of [processFile]: in a
    pass that got its test file it puts the unit into [FailedFiles] with
    the error's text, saves the state and goes on to the next pass; [Run]
    returns from this pass only if saving fails. *)
Lemma hard_error_pass
    (s : State) (w : World) (report : CoverageReport)
    (item : WorkItem) (rest : list WorkItem)
    (t : string) (ok : bool) (out : string) (e : error) :
  Cfg.DryRun cfg = false ->
  coverage_out w (measurements w) = inl report ->
  PrimFloat.leb (Cfg.TargetCoverage cfg) (Cov.TotalCoverage report) = false ->
  prioritizeWorkItems analyzer report s (files w) = item :: rest ->
  ctx_done w (polls w) = false ->
  fst (obtainTest analyzer cfg item
         (fst (measured s w report),
          snd (Sys.Done (snd (measured s w report))))) = inl t ->
  validate_out w (validations w) = (ok, out, Some e) ->
  verdict (ok, out, Some e) = inr (wrapError "validation error" e)
  /\ (forall N w0, validate_out w0 (validations w0) = (ok, out, Some e) ->
        fst (ValidateAndRetry t N w0)
        = Broken None (wrapError "validation error" e)
        /\ fixes (snd (ValidateAndRetry t N w0)) = fixes w0)
  /\ exists st s' w',
       improve analyzer cfg (s, w) = (st, (s', w'))
       /\ FailedFiles s'
          = <[WI.SourceFile item :=
                Error (wrapError "validation error"
                         (wrapError "validation error" e))]> (FailedFiles s)
       /\ ProcessedFiles s' = ProcessedFiles s
       /\ validations w' = S (validations w)
       /\ fixes w' = fixes w
       /\ (st = Continue
           \/ exists e', st = Return (Some (wrapError "failed to save state" e')))
       /\ (forall n analyzer' cfg' report' fs,
             WI.SourceFile item
             ∉ WI.SourceFile
                 <$> prioritizeWorkItems analyzer' report'
                       (fst (passes analyzer' cfg' n (s', w'))) fs).
Proof.
  intros Hdry Hcov Hleb Hprio Hctx Hmade Hval.
  split; [reflexivity|]. split.
  { intros N w0 H0.
    destruct (ValidateAndRetry_hard t N w0 ok out e H0) as (w1 & E & _ & _ & Hf & _).
    by rewrite E. }
  pose proof (improve_unfold analyzer cfg s w report Hcov) as Himp.
  rewrite Hleb, Hprio in Himp.
  destruct (measured s w report) as [s1 w1] eqn:Hm.
  pose proof (measured_world s w report) as Hw. rewrite Hm in Hw.
  pose proof (measured_ledgers s w report) as Hl. rewrite Hm in Hl.
  cbn [fst snd] in Hw, Hl, Hmade.
  destruct Hw as (Hlater & _ & Hvs & _ & Hpl & _ & _ & _ & _ & Htr).
  destruct Hl as (Hp1 & Hf1 & _).
  rewrite processFile_live in Himp by (by rewrite (later_ctx _ _ Hlater), Hpl).
  cbv zeta in Himp.
  destruct (Done_world w1) as (_ & Hv2 & _ & Ht2).
  assert (later w1 (snd (Sys.Done w1))) as Hld by apply Done_later.
  set (w2 := snd (Sys.Done w1)) in *.
  destruct (obtainTest analyzer cfg item (s1, w2)) as [made [s3 w3]] eqn:Hobt.
  cbn [fst snd] in Hmade, Himp. subst made.
  pose proof (wp_run _ _ _ _ _ Hobt (obtainTest_spec analyzer cfg item s1 w2))
    as (Hl3 & _ & Hp3 & Hf3 & _).
  pose proof (respects_run _ _ _ _ _ (obtainTest_aside item) Hobt) as [Hv3 Hx3].
  cbn [fst snd] in Hl3, Hp3, Hf3, Hv3, Hx3.
  assert (validate_out w3 (validations w3) = (ok, out, Some e)) as Hval3.
  { rewrite (later_validate _ _ Hl3), (later_validate _ _ Hld),
      (later_validate _ _ Hlater), Hv3, Hv2, Hvs. exact Hval. }
  destruct (checkAndRecord_hard item t s3 w3 ok out e Hdry Hval3)
    as (w4 & E & Hl4 & Hv4 & Hx4 & _).
  rewrite E in Himp. unfold recorded in Himp.
  cbn [fst snd asRateLimitError] in Himp.
  destruct (saveAndContinue cfg _) as [st [s' w']] eqn:Hsave.
  exists st, s', w'. split; [exact Himp|].
  apply saveAndContinue_run in Hsave as (-> & Hl5 & _ & Hv5 & _ & _ & Hst).
  set (msg := Error _) in *.
  set (s4 := MarkFileFailed (WI.SourceFile item) msg s3) in *.
  destruct (stamped_fields s4 w4) as (Hp & Hf & _).
  assert (FailedFiles s4 = <[WI.SourceFile item := msg]> (FailedFiles s)
          /\ ProcessedFiles s4 = ProcessedFiles s) as [Hf4 Hp4].
  { rewrite <- Hf1, <- Hf3, <- Hp1, <- Hp3. unfold s4. by destruct s3. }
  split; [congruence|]. split; [congruence|].
  split; [congruence|].
  split.
  { assert (fixes w1 = fixes w) as Hx1 by (unfold fixes; by rewrite Htr).
    assert (fixes w2 = fixes w1) as Hx2 by (unfold fixes; by rewrite Ht2).
    assert (fixes w' = fixes w4) as Hx5.
    { destruct Hst as [(_ & doc & _ & _ & Ht)|(e' & _ & _ & Ht)];
        unfold fixes; by rewrite Ht. }
    congruence. }
  split.
  { destruct Hst as [(-> & _)|(e' & -> & _)]; [by left|right; by exists e']. }
  intros n analyzer' cfg' report' fs.
  apply classified_not_prioritized. right.
  pose proof (passes_advances analyzer' cfg' n (stamped s4 w4, w')) as Hadv.
  exists msg. apply (adv_failed _ _ Hadv). cbn [fst].
  by rewrite Hf, Hf4, lookup_insert_eq.
Qed.
End HardError.

(** What [cmd.Run] returns when the tool cannot be started. *)
Definition toolError : error :=
  errorString "exec: go: executable file not found in $PATH".

Definition cfgTwoPasses : Config :=
  Cfg.mkConfig "." 80%float "state.json" false 2 "key".

(** ** Throttling, as the orchestrator sees it *)

Section Throttled.
Context `{GoLibrary} (analyzer : Analyzer) (cfg : Config).

(** The reset time in the state after a computation is the one before. *)
Definition keepsReset {A} (m : M (State * World) A) : Prop :=
  forall s w, RateLimitResetTime (fst (snd (m (s, w)))) = RateLimitResetTime s.

Lemma keepsReset_ret {A} (a : A) : keepsReset (ret a).
Proof. by intros s w. Qed.

Lemma keepsReset_bind {A B} (m : M (State * World) A)
    (k : A -> M (State * World) B) :
  keepsReset m -> (forall a, keepsReset (k a)) -> keepsReset (bind m k).
Proof.
  intros Hm Hk s w. unfold bind. specialize (Hm s w).
  destruct (m (s, w)) as [a [s1 w1]]. cbn [fst snd] in Hm.
  by rewrite Hk.
Qed.

Lemma keepsReset_lift {A} (m : W A) : keepsReset (lift m).
Proof. intros s w. unfold lift. cbn [fst snd]. by destruct (m w). Qed.

Lemma keepsReset_state : keepsReset state.
Proof. by intros s w. Qed.

Lemma keepsReset_SaveState : keepsReset (SaveState cfg).
Proof.
  intros s w. destruct (SaveState cfg (s, w)) as [r [s' w']] eqn:E.
  apply SaveState_run in E as (-> & _). by destruct s.
Qed.

Lemma keepsReset_saveAndContinue : keepsReset (saveAndContinue cfg).
Proof.
  apply keepsReset_bind; [apply keepsReset_SaveState|].
  intros [e|]; apply keepsReset_ret.
Qed.

Lemma keepsReset_processFile item : keepsReset (processFile analyzer cfg item).
Proof.
  intros s w.
  pose proof (processFile_spec analyzer cfg item s w) as Hp. unfold wp in Hp.
  by destruct Hp as (_ & (_ & _ & Hr) & _).
Qed.

Lemma keepsReset_awaitTurn : keepsReset (awaitTurn cfg).
Proof.
  unfold awaitTurn.
  apply keepsReset_bind; [apply keepsReset_lift|]. intros [|].
  { apply keepsReset_bind; [apply keepsReset_SaveState|].
    intros e. apply keepsReset_ret. }
  apply keepsReset_bind; [apply keepsReset_state|]. intros s0.
  apply keepsReset_bind.
  { destruct (IsZero _); [apply keepsReset_ret|].
    apply keepsReset_bind; [apply keepsReset_lift|].
    intros now. apply keepsReset_ret. }
  intros wait. destruct (fst wait); [|apply keepsReset_ret].
  apply keepsReset_bind; [apply keepsReset_SaveState|].
  intros [e|]; [apply keepsReset_ret|].
  apply keepsReset_bind; [apply keepsReset_lift|]. intros [|].
  { apply keepsReset_bind; [apply keepsReset_SaveState|].
    intros e. apply keepsReset_ret. }
  apply keepsReset_bind; [apply keepsReset_lift|]. intros _.
  apply keepsReset_ret.
Qed.

(** The branch of [Run] for a rate limit is never taken: [processFile]
    returns no [RateLimitError] that is not wrapped. *)
Lemma keepsReset_improve : keepsReset (improve analyzer cfg).
Proof.
  intros s w. unfold improve.
  apply (wp_bind _ _ (fun _ sw' => RateLimitResetTime (fst sw') = _)), wp_update.
  apply wp_bind, wp_lift. intros cov w1 _.
  destruct cov as [report|err]; [|apply wp_ret; by destruct s].
  apply wp_bind, wp_lift. intros now w2 _.
  apply wp_bind, wp_update.
  set (s2 := AddCoverageSnapshot _ _ _).
  assert (RateLimitResetTime s2 = RateLimitResetTime s) as H2 by (by destruct s).
  rewrite <- H2. clearbody s2. clear H2.
  assert (forall sw, wp (bind (SaveState cfg) (fun e => ret (Return e)))
            (fun _ sw' => RateLimitResetTime (fst sw') = RateLimitResetTime (fst sw))
            sw) as Hsave.
  { intros [s0 w0]. unfold wp.
    apply (keepsReset_bind _ _ keepsReset_SaveState).
    intros e. apply keepsReset_ret. }
  destruct (PrimFloat.leb _ _); [apply (Hsave (s2, w2))|].
  apply wp_bind, wp_gets. cbn [fst snd id].
  destruct (prioritizeWorkItems analyzer report s2 (files w2))
    as [|item rest]; [apply (Hsave (s2, w2))|].
  apply wp_bind. eapply wp_mono; [apply processFile_spec|].
  intros perr [s3 w3] (_ & (_ & _ & Hr3) & Hcase). cbn [fst snd] in *.
  rewrite <- Hr3.
  destruct perr as [err|]; [|apply (keepsReset_saveAndContinue s3 w3)].
  destruct Hcase as (-> & _).
  apply wp_bind, wp_update. unfold wp.
  rewrite keepsReset_saveAndContinue. by destruct s3.
Qed.

Lemma keepsReset_iteration : keepsReset (iteration analyzer cfg).
Proof.
  apply keepsReset_bind; [apply keepsReset_awaitTurn|].
  intros [e|]; [apply keepsReset_ret|apply keepsReset_improve].
Qed.

Lemma keepsReset_mainLoop fuel : keepsReset (mainLoop analyzer cfg fuel).
Proof.
  induction fuel as [|fuel IH]; simpl;
    (apply keepsReset_bind; [apply keepsReset_state|]); intros s0;
    destruct (_ <? _); try apply keepsReset_ret;
    try (apply keepsReset_bind; [apply keepsReset_SaveState|];
         intros e; apply keepsReset_ret).
  apply keepsReset_bind; [apply keepsReset_iteration|].
  intros [|e]; [apply IH|apply keepsReset_ret].
Qed.

Lemma keepsReset_analyseFirst : keepsReset (analyseFirst cfg).
Proof.
  intros s w. unfold analyseFirst.
  apply (wp_bind _ _ (fun _ sw' => RateLimitResetTime (fst sw') = _)), wp_lift.
  intros cov w1 _. destruct cov as [report|err]; [|by apply wp_ret].
  apply wp_bind, wp_lift. intros now w2 _.
  apply wp_bind, wp_update.
  set (s2 := AddCoverageSnapshot _ _ _).
  assert (RateLimitResetTime s2 = RateLimitResetTime s) as H2 by (by destruct s).
  rewrite <- H2. clearbody s2. clear H2.
  assert (wp (bind (SaveState cfg) (fun e => ret (Some e)))
            (fun _ sw' => RateLimitResetTime (fst sw') = RateLimitResetTime s2)
            (s2, w2)) as Hsave.
  { unfold wp. apply (keepsReset_bind _ _ keepsReset_SaveState).
    intros e. apply keepsReset_ret. }
  destruct (PrimFloat.ltb _ _); [|exact Hsave].
  apply wp_bind, wp_state. destruct (negb _); [exact Hsave|by apply wp_ret].
Qed.

Lemma keepsReset_Run : keepsReset (Run analyzer cfg).
Proof.
  apply keepsReset_bind; [apply keepsReset_analyseFirst|].
  intros [e|]; [apply keepsReset_ret|].
  apply keepsReset_bind; [apply keepsReset_state|].
  intros s0. apply keepsReset_mainLoop.
Qed.

(** C1, what the code does instead.  When [processFile] fails in a pass
    with an error that holds a [RateLimitError] of the client, that error
    is wrapped and the type assertion of [Run] does not see it: the reset
    time of the state stays what it was, the unit is put into [FailedFiles]
    with the error's text, and the prioritizer never gives it out again. *)
Theorem throttled_unit_is_marked_failed
    (s : State) (w : World) (report : CoverageReport)
    (item : WorkItem) (rest : list WorkItem)
    (err : error) (resetTime : time) (retryAfter : Z) :
  coverage_out w (measurements w) = inl report ->
  PrimFloat.leb (Cfg.TargetCoverage cfg) (Cov.TotalCoverage report) = false ->
  prioritizeWorkItems analyzer report s (files w) = item :: rest ->
  fst (processFile analyzer cfg item (measured s w report)) = Some err ->
  unwrapRateLimitError err = Some (resetTime, retryAfter) ->
  asRateLimitError err = None
  /\ exists st s' w',
       improve analyzer cfg (s, w) = (st, (s', w'))
       /\ RateLimitResetTime s' = RateLimitResetTime s
       /\ FailedFiles s'
          = <[WI.SourceFile item := Error err]> (FailedFiles s)
       /\ ProcessedFiles s' = ProcessedFiles s
       /\ (st = Continue
           \/ exists e', st = Return (Some (wrapError "failed to save state" e')))
       /\ (forall n analyzer' cfg' report' fs,
             WI.SourceFile item
             ∉ WI.SourceFile
                 <$> prioritizeWorkItems analyzer' report'
                       (fst (passes analyzer' cfg' n (s', w'))) fs).
Proof.
  intros Hcov Hleb Hprio Hperr Hthrottled.
  pose proof (improve_unfold analyzer cfg s w report Hcov) as Himp.
  rewrite Hleb, Hprio in Himp.
  pose proof (keepsReset_improve s w) as Hreset.
  destruct (measured s w report) as [s1 w1] eqn:Hm.
  pose proof (measured_ledgers s w report) as Hl. rewrite Hm in Hl.
  cbn [fst snd] in Hl. destruct Hl as (Hp1 & Hf1 & _).
  pose proof (processFile_spec analyzer cfg item s1 w1) as Hspec.
  unfold wp in Hspec.
  destruct (processFile analyzer cfg item (s1, w1)) as [perr [s2 w2]].
  cbn [fst snd] in Hperr, Hspec. subst perr.
  destruct Hspec as (_ & _ & Hbare & Hp2 & Hf2).
  split; [exact Hbare|].
  unfold recorded in Himp. cbn [fst snd] in Himp. rewrite Hbare in Himp.
  destruct (saveAndContinue cfg _) as [st [s' w']] eqn:Hsave.
  exists st, s', w'. split; [exact Himp|].
  rewrite Himp in Hreset. cbn [fst snd] in Hreset. split; [exact Hreset|].
  apply saveAndContinue_run in Hsave as (-> & _ & _ & _ & _ & _ & Hst).
  set (s3 := MarkFileFailed (WI.SourceFile item) (Error err) s2) in *.
  destruct (stamped_fields s3 w2) as (Hp & Hf & _).
  assert (FailedFiles s3 = <[WI.SourceFile item := Error err]> (FailedFiles s)
          /\ ProcessedFiles s3 = ProcessedFiles s) as [Hf3 Hp3].
  { rewrite <- Hf1, <- Hf2, <- Hp1, <- Hp2. unfold s3. by destruct s2. }
  split; [congruence|]. split; [congruence|].
  split.
  { destruct Hst as [(-> & _)|(e' & -> & _)]; [by left|right; by exists e']. }
  intros n analyzer' cfg' report' fs.
  apply classified_not_prioritized. right.
  pose proof (passes_advances analyzer' cfg' n (stamped s3 w2, w')) as Hadv.
  exists (Error err). apply (adv_failed _ _ Hadv). cbn [fst].
  by rewrite Hf, Hf3, lookup_insert_eq.
Qed.
End Throttled.

(** A session whose first request is answered with status 429 and
    [retry-after: 30]; every later request succeeds. *)
Definition throttledReply : HttpOutcome :=
  HttpResponse 429 "30" (mkBody "" (inl [])).

Definition throttledOnce : World :=
  with_http (answers [throttledReply] okReply)
    (with_coverage (fun _ => inl (reportAt 65%float)) quietWorld).

Definition throttledStart : State * World :=
  New GoAnalyzer cfgTwoPasses throttledOnce.

Definition throttledError : error :=
  wrapError "failed to generate test"
    (wrapError "failed to generate test"
       (RateLimitError (1004 * Second + 30 * Second) 30)).

Lemma throttled_pass :
  (http_out (snd throttledStart) (requests (snd throttledStart))
   = throttledReply
   /\ fst (processFile GoAnalyzer cfgTwoPasses dryItem
             (measured (fst throttledStart) (snd throttledStart)
                (reportAt 65%float))) = Some throttledError)
  /\ exists st s' w',
       improve GoAnalyzer cfgTwoPasses throttledStart = (st, (s', w'))
       /\ IsZero (RateLimitResetTime s') = true
       /\ FailedFiles s' !! "a.go" = Some (Error throttledError)
       /\ ProcessedFiles s' = ∅
       /\ "a.go" ∉ WI.SourceFile
                     <$> prioritizeWorkItems GoAnalyzer (reportAt 65%float)
                           s' (files w').
Proof.
  assert (fst (processFile GoAnalyzer cfgTwoPasses dryItem
                 (measured (fst throttledStart) (snd throttledStart)
                    (reportAt 65%float))) = Some throttledError) as Hperr
    by (vm_compute; reflexivity).
  split; [split; [reflexivity|exact Hperr]|].
  assert (prioritizeWorkItems GoAnalyzer (reportAt 65%float)
            (fst throttledStart) (files (snd throttledStart))
          = dryItem
            :: [WI.mkWorkItem "b.go" "b_test.go" 20%float [7] 80 false;
                WI.mkWorkItem "c.go" "c_test.go" 30%float [1; 2; 9] 70 false])
    as Hprio by (vm_compute; reflexivity).
  destruct (throttled_unit_is_marked_failed GoAnalyzer cfgTwoPasses
              (fst throttledStart) (snd throttledStart)
              (reportAt 65%float) dryItem _ throttledError
              (1004 * Second + 30 * Second) 30
              eq_refl eq_refl Hprio Hperr eq_refl)
    as (_ & st & s' & w' & Himp & Hr & Hf & Hp & _ & Hex).
  exists st, s', w'. rewrite <- surjective_pairing in Himp.
  split; [exact Himp|].
  split; [by rewrite Hr|].
  split; [rewrite Hf; apply lookup_insert_eq|].
  split; [exact Hp|].
  exact (Hex 0%nat GoAnalyzer cfgTwoPasses (reportAt 65%float) (files w')).
Defined.

(** C1, the whole session: the throttled unit is a failed unit, no reset
    time is recorded, and the second pass sends its request for the next
    unit without any wait. *)
Lemma throttled_session :
  let '(r, s, w) := main GoAnalyzer cfgTwoPasses false throttledOnce in
  r = Finished None
  /\ IsZero (RateLimitResetTime s) = true
  /\ FailedFiles s !! "a.go"
     = Some (Error (wrapError "failed to generate test"
                      (wrapError "failed to generate test"
                         (RateLimitError (1035 * Second) 30))))
  /\ ProcessedFiles s !! "a.go" = None
  /\ ProcessedFiles s !! "b.go" = Some true
  /\ GeneratedTests s = ["b_test.go"]
  /\ CurrentIteration s = 2
  /\ requests w = 2%nat
  /\ sleeps w = [].
Proof. vm_compute. repeat split; reflexivity. Qed.

(** ** Validation with repairs *)

Section Repairs.
Context `{GoLibrary} (analyzer : Analyzer) (cfg : Config).

(** What [ValidateAndRetry] returns after it has been through all its
    passes: what the validation after the loop says. *)
Lemma retryLadder_exhausted t N left : forall attempt w v w',
  retryLadder t N left attempt w = (v, w') ->
  (validations w' = validations w + left + 1)%nat ->
  v = match verdict (validate_out w (validations w + left)%nat) with
      | inl r => Checked r
      | inr e => Broken None e
      end.
Proof.
  induction left as [|left IH]; intros attempt w v w' Hrun Hall;
    cbn [retryLadder] in Hrun; unfold bind in Hrun;
    destruct (ValidateTest_run t w) as (w1 & Hval & Hout1 & Hn1 & Hf1);
    rewrite Hval in Hrun.
  - replace (validations w + 0)%nat with (validations w) by lia.
    destruct (verdict _) as [r|err]; by injection Hrun as <- <-.
  - destruct (verdict (validate_out w (validations w))) as [r|err] eqn:Hv.
    2:{ injection Hrun as <- <-. lia. }
    destruct (Success r) eqn:Hs.
    { injection Hrun as <- <-. lia. }
    assert (forall w2, validate_out w2 = validate_out w ->
              validations w2 = S (validations w) ->
              retryLadder t N left (attempt + 1) w2 = (v, w') ->
              v = match verdict (validate_out w (validations w + S left)%nat) with
                  | inl r => Checked r
                  | inr e => Broken None e
                  end) as Hrest.
    { intros w2 Hout2 Hn2 Hrec.
      rewrite (IH _ _ _ _ Hrec) by lia. rewrite Hout2, Hn2.
      by replace (S (validations w) + left)%nat
        with (validations w + S left)%nat by lia. }
    destruct (attempt <? N).
    + destruct (FixBrokenTest_counts t (Output r) w1) as [Hfv Hff].
      pose proof (FixBrokenTest_later t (Output r) w1) as Hlater.
      destruct (FixBrokenTest t (Output r) w1) as [[tf|err] w2];
        cbn [fst snd] in *.
      * apply (Hrest w2); [|congruence|done].
        by rewrite (later_validate _ _ Hlater).
      * injection Hrun as <- <-. lia.
    + by apply (Hrest w1).
Qed.

Lemma checkAndRecord_live item t s w :
  Cfg.DryRun cfg = false ->
  checkAndRecord cfg item t (s, w)
  = let res := ValidateAndRetry t 2 w in
    match fst res with
    | Broken _ err => (Some (wrapError "validation error" err), (s, snd res))
    | Checked r =>
        if Success r
        then (None, (MarkFileProcessed (WI.SourceFile item) s, snd res))
        else (None, (MarkFileFailed (WI.SourceFile item) (ErrorMessage r) s,
                     snd res))
    end.
Proof.
  intros Hdry. unfold checkAndRecord. rewrite Hdry. cbn [negb].
  unfold bind at 1. unfold lift at 1. cbn [fst snd]. cbv zeta.
  destruct (ValidateAndRetry t 2 w) as [[r|p err] w']; cbn [fst snd];
    [destruct (Success r)|]; reflexivity.
Qed.

(** An error of [ValidateAndRetry] is the hard error of its last
    validation, or the error of a repair. *)
Lemma retryLadder_broken t N left : forall attempt w p err w',
  retryLadder t N left attempt w = (Broken p err, w') ->
  (p = None /\ verdict (validate_out w (validations w' - 1)%nat) = inr err)
  \/ (exists e, err = wrapError "failed to fix test" e).
Proof.
  induction left as [|left IH]; intros attempt w p err w' Hrun;
    cbn [retryLadder] in Hrun; unfold bind in Hrun;
    destruct (ValidateTest_run t w) as (w1 & Hval & Hout1 & Hn1 & Hf1);
    rewrite Hval in Hrun.
  - destruct (verdict _) as [r|e] eqn:Hv; [done|].
    injection Hrun as <- <- <-. left. split; [done|].
    rewrite Hn1. by replace (S (validations w) - 1)%nat with (validations w) by lia.
  - destruct (verdict (validate_out w (validations w))) as [r|e] eqn:Hv.
    2:{ injection Hrun as <- <- <-. left. split; [done|].
        rewrite Hn1.
        by replace (S (validations w) - 1)%nat with (validations w) by lia. }
    destruct (Success r); [done|].
    destruct (attempt <? N).
    + pose proof (FixBrokenTest_later t (Output r) w1) as Hlater.
      destruct (FixBrokenTest t (Output r) w1) as [[tf|e] w2];
        cbn [fst snd] in *.
      * apply IH in Hrun as [[-> Hlast]|Hfix]; [left|by right].
        split; [done|].
        by rewrite <- Hout1, <- (later_validate _ _ Hlater).
      * injection Hrun as <- <- <-. right. by exists e.
    + apply IH in Hrun as [[-> Hlast]|Hfix]; [left|by right].
      split; [done|]. by rewrite <- Hout1.
Qed.

End Repairs.

(** A session in which every generated test fails its tests. *)
Definition neverPasses : World :=
  with_validate (fun _ => (false, "--- FAIL: TestA", None))
    (with_http (fun _ => okReply)
       (with_coverage (fun _ => inl (reportAt 65%float)) quietWorld)).

Definition neverPassesStart : State * World :=
  New GoAnalyzer cfgTwoPasses neverPasses.

(** The numbers of that session: one generation and two repairs for each
    of the two units, four validations each, and both units failed. *)
Lemma never_passing_session :
  (let res := ValidateAndRetry "a_test.go" 2 neverPasses in
   fst res = Checked (mkResult false true false "--- FAIL: TestA" "Tests failed")
   /\ fixes (snd res) = 2%nat /\ validations (snd res) = 4%nat)
  /\ (let '(r, s, w) := main GoAnalyzer cfgTwoPasses false neverPasses in
      r = Finished None
      /\ FailedFiles s !! "a.go" = Some "Tests failed"
      /\ FailedFiles s !! "b.go" = Some "Tests failed"
      /\ ProcessedFiles s = ∅
      /\ fixes w = 4%nat /\ validations w = 8%nat /\ requests w = 6%nat).
Proof. split; vm_compute; repeat split; reflexivity. Qed.

(** ** Saving, and resuming in another process *)

Section Resume.
Context `{GoLibrary}.

(** The initial analysis of [Run] adds a snapshot that carries the
    iteration number the state has. *)
Lemma analyseFirst_history cfg s w report :
  coverage_out w (measurements w) = inl report ->
  CoverageHistory (fst (snd (analyseFirst cfg (s, w))))
  = CoverageHistory s
    ++ [ {| Timestamp := clock w (ticks w);
            Coverage := Cov.TotalCoverage report;
            Iteration := CurrentIteration s;
            FilesAdded := Z.of_nat (length (GeneratedTests s))
                          + Z.of_nat (length (FixedTests s)) |} ].
Proof.
  intros Hcov. unfold analyseFirst.
  apply (wp_bind _ _ (fun _ sw' => CoverageHistory (fst sw') = _)), wp_lift.
  intros cov w1 E1.
  apply RunCoverage_run in E1 as (-> & Hl1 & Ht1 & _).
  rewrite Hcov.
  apply wp_bind, wp_lift. intros now w2 E2.
  apply Now_run in E2 as (-> & Ht2 & Hl2 & _).
  apply wp_bind, wp_update.
  set (s2 := AddCoverageSnapshot _ _ s).
  assert (CoverageHistory s2
          = CoverageHistory s
            ++ [ {| Timestamp := clock w (ticks w);
                    Coverage := Cov.TotalCoverage report;
                    Iteration := CurrentIteration s;
                    FilesAdded := Z.of_nat (length (GeneratedTests s))
                                  + Z.of_nat (length (FixedTests s)) |} ]) as H2.
  { unfold s2. replace (clock w1 (ticks w1)) with (clock w (ticks w)).
    - by destruct s.
    - by rewrite (later_clock _ _ Hl1), Ht1. }
  rewrite <- H2. clearbody s2. clear H2.
  assert (wp (bind (SaveState cfg) (fun e => ret (Some e)))
            (fun _ sw' => CoverageHistory (fst sw') = CoverageHistory s2)
            (s2, w2)) as Hsave.
  { apply wp_bind. unfold wp.
    destruct (SaveState cfg (s2, w2)) as [r [s3 w3]] eqn:E.
    apply SaveState_run in E as (-> & _). cbn [fst snd]. by destruct s2. }
  destruct (PrimFloat.ltb _ _); [|exact Hsave].
  apply wp_bind, wp_state. destruct (negb _); [exact Hsave|by apply wp_ret].
Qed.

Lemma LoadState_measurements cfg s w :
  measurements (snd (snd (LoadState cfg (s, w)))) = measurements w.
Proof.
  unfold LoadState, bind, lift, update, modify, ret. cbn [fst snd].
  unfold Sys.ReadState, bind, gets, id, ret.
  destruct (state_files w !! Cfg.StateFile cfg) as [doc|]; [|done].
  destruct w as [? ? ? ? ? ? ? ? ? ? answers cursor ? ? ?].
  cbn [Sys.io fst snd].
  destruct (answers cursor); [done|].
  by destruct (Json.unmarshal_state doc).
Qed.

(** C4, as the code has it.  A state that [SaveState] has written is the
    state [LoadState] reads back, in a process of any configuration that
    names the same state file: every field is the one saved, the iteration
    counter, both ledgers and the history among them.  In the run resumed
    from it the ledgers only grow, no unit of a ledger is given out by the
    prioritizer again, and the history is the saved one with entries added
    at its end, still in order of iteration number, whatever the clock of
    the new process says, and in order of time as well when that clock is
    not behind.  The order is not strict: the initial analysis of the
    resumed run adds an entry that carries the saved iteration number once
    more. *)
Theorem resumed_run_continues_saved_state
    (analyzer' : Analyzer) (cfg cfg' : Config)
    (s s0 : State) (w w2 : World) :
  fst (SaveState cfg (s, w)) = None ->
  Cfg.StateFile cfg' = Cfg.StateFile cfg ->
  state_files w2 !! Cfg.StateFile cfg
  = state_files (snd (snd (SaveState cfg (s, w)))) !! Cfg.StateFile cfg ->
  io_out w2 (io_ops w2) = None ->
  let saved := fst (snd (SaveState cfg (s, w))) in
  exists w3,
    LoadState cfg' (s0, w2) = (None, (saved, w3))
    /\ saved = set_LastUpdatedAt (clock w (ticks w)) s
    /\ CurrentIteration saved = CurrentIteration s
    /\ ProcessedFiles saved = ProcessedFiles s
    /\ FailedFiles saved = FailedFiles s
    /\ CoverageHistory saved = CoverageHistory s
    /\ let resumed := snd (Run analyzer' cfg' (saved, w3)) in
       (forall u, ProcessedFiles s !! u = Some true ->
          ProcessedFiles (fst resumed) !! u = Some true)
       /\ (forall u m, FailedFiles s !! u = Some m ->
             FailedFiles (fst resumed) !! u = Some m)
       /\ (LedgersOK s -> LedgersOK (fst resumed))
       /\ (forall n report fs u,
             IsFileProcessed u s = true \/ is_Some (FailedFiles s !! u) ->
             u ∉ WI.SourceFile
                   <$> prioritizeWorkItems analyzer' report
                         (fst (passes analyzer' cfg' n
                                 (snd (analyseFirst cfg' (saved, w3))))) fs)
       /\ CoverageHistory s `prefix_of` CoverageHistory (fst resumed)
       /\ CurrentIteration s <= CurrentIteration (fst resumed)
       /\ (IterationsOK s -> IterationsOK (fst resumed))
       /\ (steadyClock w2 -> HistoryOK s w2 ->
           HistoryOK (fst resumed) (snd resumed))
       /\ (forall report, coverage_out w2 (measurements w2) = inl report ->
             exists snapshot,
               CoverageHistory (fst (snd (analyseFirst cfg' (saved, w3))))
               = CoverageHistory s ++ [snapshot]
               /\ Iteration snapshot = CurrentIteration s
               /\ Coverage snapshot = Cov.TotalCoverage report).
Proof.
  intros Hsaved Hpath Hfile Hio saved. subst saved.
  destruct (SaveState cfg (s, w)) as [r [s1 w1]] eqn:Hsave.
  cbn [fst snd] in *. subst r.
  apply SaveState_run in Hsave as (Hs1 & _ & _ & _ & _ & _ & _ & Hdoc).
  destruct Hdoc as (doc & Hdoc & _ & Hsf & _).
  rewrite Hsf, lookup_insert_eq in Hfile.
  apply unmarshal_marshal_state in Hdoc.
  destruct (LoadState_run cfg' s0 w2 doc s1) as (w3 & Hload & Hl3);
    [by rewrite Hpath|done|done|].
  exists w3. split; [exact Hload|]. split; [exact Hs1|].
  assert (CurrentIteration s1 = CurrentIteration s
          /\ ProcessedFiles s1 = ProcessedFiles s
          /\ FailedFiles s1 = FailedFiles s
          /\ CoverageHistory s1 = CoverageHistory s) as (Hi & Hp & Hf & Hh)
    by (rewrite Hs1; by destruct s).
  repeat (split; [done|]).
  pose proof (Run_advances analyzer' cfg' s1 w3) as Hrun. unfold wp in Hrun.
  cbv zeta. set (resumed := snd (Run analyzer' cfg' (s1, w3))) in *.
  destruct Hrun as [_ Hap Haf Hal Hah Hai Hao Hit]. cbn [fst snd] in *.
  split; [intros u Hu; apply Hap; by rewrite Hp|].
  split; [intros u m Hu; apply Haf; by rewrite Hf|].
  split.
  { intros Hok. apply Hal. unfold LedgersOK in *. by rewrite Hp, Hf. }
  split.
  { intros n report fs u Hu.
    pose proof (analyseFirst_advances cfg' s1 w3) as Ha1. unfold wp in Ha1.
    pose proof (passes_advances analyzer' cfg' n
                  (snd (analyseFirst cfg' (s1, w3)))) as Ha2.
    assert (advances (s1, w3)
              (passes analyzer' cfg' n (snd (analyseFirst cfg' (s1, w3)))))
      as [_ Hbp Hbf _ _ _ _] by (by etrans).
    cbn [fst snd] in Hbp, Hbf.
    apply classified_not_prioritized.
    destruct Hu as [Hu|[m Hu]].
    - left. unfold IsFileProcessed in *.
      destruct (ProcessedFiles s !! u) as [[|]|] eqn:Hlook; try done.
      rewrite (Hbp u); [done|]. by rewrite Hp.
    - right. exists m. apply Hbf. by rewrite Hf. }
  split; [by rewrite <- Hh|]. split; [lia|].
  split.
  { intros Hok. apply Hit. apply (IterationsOK_same s); [done|lia|done]. }
  split.
  { intros Hclock Hok. apply Hao.
    - by eapply steadyClock_later.
    - eapply (HistoryOK_later s w2); try done. lia. }
  intros report Hcov.
  eexists. rewrite analyseFirst_history with (report := report).
  - rewrite Hh. split; [reflexivity|]. cbn [Iteration Coverage]. done.
  - pose proof (LoadState_measurements cfg' s0 w2) as Hms.
    rewrite Hload in Hms. cbn [fst snd] in Hms.
    by rewrite (later_coverage _ _ Hl3), Hms.
Qed.
End Resume.

(** A dry run that is interrupted when its second pass begins, and the
    run that resumes it. *)
Definition interrupted : World :=
  with_ctx (answers [false; false] true) dryWorld.

Definition atInterrupt : State * World :=
  passes GoAnalyzer dryCfg 1
    (snd (analyseFirst dryCfg (New GoAnalyzer dryCfg interrupted))).

Definition restarted : World :=
  with_ctx (fun _ => false) (snd (snd (SaveState dryCfg atInterrupt))).

Lemma resumed_dry_run :
  (fst (SaveState dryCfg (fst atInterrupt, snd atInterrupt)) = None
   /\ io_out restarted (io_ops restarted) = None)
  /\ exists w3,
       LoadState dryCfg (zeroState, restarted)
       = (None, (fst (snd (SaveState dryCfg atInterrupt)), w3))
       /\ CurrentIteration (fst (snd (SaveState dryCfg atInterrupt))) = 1
       /\ ProcessedFiles (fst (snd (SaveState dryCfg atInterrupt))) !! "a.go"
          = Some true
       /\ Iteration
            <$> CoverageHistory
                  (fst (snd (analyseFirst dryCfg
                               (fst (snd (SaveState dryCfg atInterrupt)), w3))))
          = [0; 1; 1]
       /\ IterationsOK
            (fst (snd (Run GoAnalyzer dryCfg
                         (fst (snd (SaveState dryCfg atInterrupt)), w3))))
       /\ "a.go" ∉ WI.SourceFile
                     <$> prioritizeWorkItems GoAnalyzer (reportAt 65%float)
                           (fst (snd (analyseFirst dryCfg
                                        (fst (snd (SaveState dryCfg atInterrupt)),
                                         w3)))) ∅.
Proof.
  assert (fst (SaveState dryCfg (fst atInterrupt, snd atInterrupt)) = None)
    as Hsave by (vm_compute; reflexivity).
  assert (io_out restarted (io_ops restarted) = None) as Hio by reflexivity.
  split; [exact (conj Hsave Hio)|].
  assert (state_files restarted !! Cfg.StateFile dryCfg
          = (state_files
               (snd (snd (SaveState dryCfg (fst atInterrupt, snd atInterrupt)))))
              !! Cfg.StateFile dryCfg) as Hfile by (vm_compute; reflexivity).
  pose proof (resumed_run_continues_saved_state GoAnalyzer dryCfg dryCfg
                (fst atInterrupt) zeroState (snd atInterrupt) restarted
                Hsave eq_refl Hfile Hio) as Hthm.
  cbv zeta in Hthm. rewrite <- surjective_pairing in Hthm.
  destruct Hthm as (w3 & Hload & _ & Hi & Hp & _ & _ & _ & _ & _ & Hex & _
                    & _ & Hord & _ & Hdup).
  exists w3. split; [exact Hload|].
  split; [rewrite Hi; vm_compute; reflexivity|].
  split; [rewrite Hp; vm_compute; reflexivity|].
  split.
  { destruct (Hdup (reportAt 65%float)) as (snapshot & Hh & Hit & _);
      [vm_compute; reflexivity|].
    rewrite Hh, fmap_app. cbn [fmap list_fmap]. rewrite Hit.
    vm_compute. reflexivity. }
  split.
  { apply Hord. unfold IterationsOK. vm_compute.
    split; repeat constructor; done. }
  apply (Hex 0%nat (reportAt 65%float) ∅ "a.go"). left.
  vm_compute. reflexivity.
Defined.

(** C4 fails as stated: the interrupted
    session has the entries of iterations 0 and 1 in its history, and the
    run that resumes it adds a second entry of iteration 1 before it goes
    on with iterations 2, 3 and 4.  And when the process that resumes has
    a clock that is behind (here one that starts again from zero), the
    entries it adds carry earlier times than the saved ones: the history
    is in order of iteration number, and not of time. *)
Lemma resumed_run_repeats_iteration_entry :
  let '(r1, s1, w1) := main GoAnalyzer dryCfg false interrupted in
  let '(r2, s2, w2) :=
    main GoAnalyzer dryCfg true (with_ctx (fun _ => false) w1) in
  let '(r3, s3, w3) :=
    main GoAnalyzer dryCfg true
      (with_clock (fun n => Z.of_nat n * Second)
         (with_ctx (fun _ => false) w1)) in
  r1 = Finished None
  /\ CurrentIteration s1 = 1
  /\ Iteration <$> CoverageHistory s1 = [0; 1]
  /\ state_files w1 !! "state.json" = Json.marshal_state s1
  /\ r2 = Finished None
  /\ Iteration <$> CoverageHistory s2 = [0; 1; 1; 2; 3; 4]
  /\ ProcessedFiles s2 !! "a.go" = Some true
  /\ r3 = Finished None
  /\ Iteration <$> CoverageHistory s3 = [0; 1; 1; 2; 3; 4]
  /\ Timestamp <$> CoverageHistory s3
     = [1002 * Second; 1003 * Second; 8 * Second; 9 * Second;
        11 * Second; 13 * Second].
Proof. vm_compute. repeat split; reflexivity. Qed.

(** ** [Run] returns *)

Section Returns.
Context `{GoLibrary} (analyzer : Analyzer) (cfg : Config).

(** The iteration counter in the state after a computation is the one
    before, plus [d]. *)
Definition counts {A} (d : Z) (m : M (State * World) A) : Prop :=
  forall s w, CurrentIteration (fst (snd (m (s, w)))) = CurrentIteration s + d.

Lemma counts_ret {A} (a : A) : counts 0 (ret a).
Proof. intros s w. cbn. lia. Qed.

Lemma counts_bind {A B} d1 d2 (m : M (State * World) A)
    (k : A -> M (State * World) B) :
  counts d1 m -> (forall a, counts d2 (k a)) -> counts (d1 + d2) (bind m k).
Proof.
  intros Hm Hk s w. unfold bind. specialize (Hm s w).
  destruct (m (s, w)) as [a [s1 w1]]. cbn [fst snd] in Hm.
  rewrite Hk. lia.
Qed.

Lemma counts_lift {A} (m : W A) : counts 0 (lift m).
Proof. intros s w. unfold lift. cbn [fst snd]. destruct (m w). cbn. lia. Qed.

Lemma counts_state : counts 0 state.
Proof. intros s w. cbn. lia. Qed.

Lemma counts_SaveState : counts 0 (SaveState cfg).
Proof.
  intros s w. destruct (SaveState cfg (s, w)) as [r [s' w']] eqn:E.
  apply SaveState_run in E as (-> & _). destruct s. cbn. lia.
Qed.

Lemma counts_save_and_return {A} (f : option error -> A) :
  counts 0 (bind (SaveState cfg) (fun e => ret (f e))).
Proof.
  apply (counts_bind 0 0); [apply counts_SaveState|].
  intros e. apply counts_ret.
Qed.

Lemma counts_saveAndContinue : counts 0 (saveAndContinue cfg).
Proof.
  apply (counts_bind 0 0); [apply counts_SaveState|].
  intros [e|]; apply counts_ret.
Qed.

Lemma counts_processFile item : counts 0 (processFile analyzer cfg item).
Proof.
  intros s w.
  pose proof (processFile_spec analyzer cfg item s w) as Hp. unfold wp in Hp.
  destruct Hp as (_ & (_ & Hi & _) & _). lia.
Qed.

Lemma counts_awaitTurn : counts 0 (awaitTurn cfg).
Proof.
  unfold awaitTurn.
  apply (counts_bind 0 0); [apply counts_lift|]. intros [|].
  { apply counts_save_and_return. }
  apply (counts_bind 0 0); [apply counts_state|]. intros s0.
  apply (counts_bind 0 0).
  { destruct (IsZero _); [apply counts_ret|].
    apply (counts_bind 0 0); [apply counts_lift|].
    intros now. apply counts_ret. }
  intros wait. destruct (fst wait); [|apply counts_ret].
  apply (counts_bind 0 0); [apply counts_SaveState|].
  intros [e|]; [apply counts_ret|].
  apply (counts_bind 0 0); [apply counts_lift|]. intros [|].
  { apply counts_save_and_return. }
  apply (counts_bind 0 0); [apply counts_lift|]. intros _.
  apply counts_ret.
Qed.

(** Every pass that gets to its measurement counts one iteration. *)
Lemma counts_improve : counts 1 (improve analyzer cfg).
Proof.
  intros s w. unfold improve.
  apply (wp_bind _ _ (fun _ sw' => CurrentIteration (fst sw') = _)), wp_update.
  apply wp_bind, wp_lift. intros cov w1 _.
  destruct cov as [report|err]; [|apply wp_ret; by destruct s].
  apply wp_bind, wp_lift. intros now w2 _.
  apply wp_bind, wp_update.
  set (s2 := AddCoverageSnapshot _ _ _).
  assert (CurrentIteration s2 = CurrentIteration s + 1) as H2 by (by destruct s).
  rewrite <- H2. clearbody s2. clear H2.
  assert (forall sw, wp (bind (SaveState cfg) (fun e => ret (Return e)))
            (fun _ sw' => CurrentIteration (fst sw') = CurrentIteration (fst sw))
            sw) as Hsave.
  { intros [s0 w0]. unfold wp. rewrite counts_save_and_return. cbn. lia. }
  destruct (PrimFloat.leb _ _); [apply (Hsave (s2, w2))|].
  apply wp_bind, wp_gets. cbn [fst snd id].
  destruct (prioritizeWorkItems analyzer report s2 (files w2))
    as [|item rest]; [apply (Hsave (s2, w2))|].
  apply wp_bind. eapply wp_mono; [apply processFile_spec|].
  intros perr [s3 w3] (_ & (_ & Hi3 & _) & Hcase). cbn [fst snd] in *.
  rewrite <- Hi3.
  assert (forall s4, CurrentIteration s4 = CurrentIteration s3 ->
            wp (saveAndContinue cfg)
              (fun _ sw' => CurrentIteration (fst sw') = CurrentIteration s3)
              (s4, w3)) as Hgo.
  { intros s4 H4. unfold wp. rewrite counts_saveAndContinue. lia. }
  destruct perr as [err|]; [|by apply Hgo].
  destruct (asRateLimitError err) as [[resetTime ?]|];
    apply wp_bind, wp_update, Hgo; by destruct s3.
Qed.

Lemma counts_analyseFirst : counts 0 (analyseFirst cfg).
Proof.
  intros s w. unfold analyseFirst.
  apply (wp_bind _ _ (fun _ sw' => CurrentIteration (fst sw') = _)), wp_lift.
  intros cov w1 _. destruct cov as [report|err]; [|apply wp_ret; cbn; lia].
  apply wp_bind, wp_lift. intros now w2 _.
  apply wp_bind, wp_update.
  set (s2 := AddCoverageSnapshot _ _ _).
  assert (CurrentIteration s2 = CurrentIteration s + 0) as H2
    by (destruct s; cbn; lia).
  rewrite <- H2. clearbody s2. clear H2.
  assert (wp (bind (SaveState cfg) (fun e => ret (Some e)))
            (fun _ sw' => CurrentIteration (fst sw') = CurrentIteration s2)
            (s2, w2)) as Hsave.
  { unfold wp. rewrite counts_save_and_return. lia. }
  destruct (PrimFloat.ltb _ _); [|exact Hsave].
  apply wp_bind, wp_state. destruct (negb _); [exact Hsave|by apply wp_ret].
Qed.

(** A pass that goes on has counted one iteration, so the fuel [Run] gives
    its loop is enough. *)
Lemma mainLoop_returns fuel : forall s w,
  Cfg.MaxIterations cfg - CurrentIteration s <= Z.of_nat fuel ->
  exists e, fst (mainLoop analyzer cfg fuel (s, w)) = Finished e.
Proof.
  induction fuel as [|fuel IH]; intros s w Hfuel; cbn [mainLoop];
    unfold bind at 1; cbn [state gets fst snd];
    destruct (Z.ltb_spec (CurrentIteration s) (Cfg.MaxIterations cfg)) as [Hlt|Hge];
    try lia.
  - unfold bind, ret. destruct (SaveState cfg (s, w)) as [e sw']. by exists e.
  - unfold bind at 1.
    pose proof (counts_awaitTurn s w) as Hwait.
    unfold iteration. unfold bind at 1.
    destruct (awaitTurn cfg (s, w)) as [[e|] [s1 w1]]; cbn [fst snd] in *.
    { by exists e. }
    pose proof (counts_improve s1 w1) as Himp.
    destruct (improve analyzer cfg (s1, w1)) as [[|e] [s2 w2]];
      cbn [fst snd] in *; [|by exists e].
    apply IH. lia.
  - unfold bind, ret. destruct (SaveState cfg (s, w)) as [e sw']. by exists e.
Qed.

Lemma Run_returns s w : exists e, fst (Run analyzer cfg (s, w)) = Finished e.
Proof.
  unfold Run. unfold bind at 1.
  destruct (analyseFirst cfg (s, w)) as [[e|] [s1 w1]]; [by exists e|].
  unfold bind at 1. cbn [state gets fst snd].
  apply mainLoop_returns. lia.
Qed.

Lemma main_returns resume w :
  exists e, fst (fst (main analyzer cfg resume w)) = Finished e.
Proof.
  unfold main. unfold bind at 1.
  destruct (New analyzer cfg w) as [s0 w0].
  destruct ((if resume then LoadState cfg else ret None) (s0, w0))
    as [[err|] [s1 w1]]; [by eexists|].
  destruct (Run_returns s1 w1) as [e He].
  destruct (Run analyzer cfg (s1, w1)) as [r [s2 w2]]. cbn [fst] in He. subst r.
  destruct e as [err|]; [|by eexists].
  destruct (SaveState cfg (s2, w2)) as [? [s3 w3]]. by eexists.
Qed.
End Returns.

(** ** What a session costs *)

(** [m] moves the counter [cost] up by at most [n]. *)
Definition within {S A} (cost : S -> nat) (n : nat) (m : M S A) : Prop :=
  forall s, (cost (snd (m s)) <= cost s + n)%nat.

Lemma within_ret {S A} (cost : S -> nat) (a : A) : within cost 0 (ret a).
Proof. intros s. simpl. lia. Qed.

Lemma within_gets {S A} (cost : S -> nat) (f : S -> A) : within cost 0 (gets f).
Proof. intros s. simpl. lia. Qed.

Lemma within_bind {S A B} (cost : S -> nat) a b (m : M S A) (k : A -> M S B) :
  within cost a m -> (forall x, within cost b (k x)) ->
  within cost (a + b) (bind m k).
Proof.
  intros Hm Hk s. unfold bind. specialize (Hm s).
  destruct (m s) as [x s1]. cbn [snd] in Hm. specialize (Hk x s1). lia.
Qed.

Lemma within_weaken {S A} (cost : S -> nat) a b (m : M S A) :
  within cost a m -> (a <= b)%nat -> within cost b m.
Proof. intros Hm Hab s. specialize (Hm s). lia. Qed.

Lemma within_lift {A} (cost : World -> nat) n (m : W A) :
  within cost n m -> within (fun sw => cost (snd sw)) n (lift m).
Proof.
  intros Hm [s w]. unfold lift. cbn [fst snd]. specialize (Hm w).
  by destruct (m w).
Qed.

Lemma within_update (cost : World -> nat) f :
  within (fun sw : State * World => cost (snd sw)) 0 (update f).
Proof. intros [s w]. simpl. lia. Qed.

(** A computation that leaves a component of the world as it is. *)
Definition keeps {S B} (f : S -> B) : relation S := fun s s' => f s' = f s.

#[global] Instance keeps_preorder {S B} (f : S -> B) : PreOrder (keeps f).
Proof. split; [by intros ?|]. intros x y z ? ?. unfold keeps in *. congruence. Qed.

Lemma keeps_within {S A} (cost : S -> nat) (m : M S A) :
  respects (keeps cost) m -> within cost 0 m.
Proof. intros Hm s. rewrite (Hm s). lia. Qed.

Ltac kept := intros []; unfold keeps; reflexivity.

Lemma Now_requests : respects (keeps requests) Sys.Now. Proof. kept. Qed.
Lemma Done_requests : respects (keeps requests) Sys.Done. Proof. kept. Qed.
Lemma io_requests : respects (keeps requests) Sys.io. Proof. kept. Qed.
Lemma log_requests e : respects (keeps requests) (Sys.log e). Proof. kept. Qed.
Lemma Sleep_requests d : respects (keeps requests) (Sys.Sleep d).
Proof. kept. Qed.
Lemma RunCoverage_requests : respects (keeps requests) Sys.RunCoverage.
Proof. kept. Qed.
Lemma ValidateTestFile_requests t :
  respects (keeps requests) (Sys.ValidateTestFile t).
Proof. kept. Qed.
Lemma WriteFile_requests p : respects (keeps requests) (Sys.WriteFile p).
Proof.
  unfold Sys.WriteFile. frame; auto using io_requests.
  apply modify_respects. kept.
Qed.

Lemma Now_measurements : respects (keeps measurements) Sys.Now.
Proof. kept. Qed.
Lemma Done_measurements : respects (keeps measurements) Sys.Done.
Proof. kept. Qed.
Lemma Do_measurements : respects (keeps measurements) Sys.Do.
Proof. kept. Qed.
Lemma io_measurements : respects (keeps measurements) Sys.io.
Proof. kept. Qed.
Lemma log_measurements e : respects (keeps measurements) (Sys.log e).
Proof. kept. Qed.
Lemma Sleep_measurements d : respects (keeps measurements) (Sys.Sleep d).
Proof. kept. Qed.
Lemma ValidateTestFile_measurements t :
  respects (keeps measurements) (Sys.ValidateTestFile t).
Proof. kept. Qed.
Lemma WriteFile_measurements p : respects (keeps measurements) (Sys.WriteFile p).
Proof.
  unfold Sys.WriteFile. frame; auto using io_measurements.
  apply modify_respects. kept.
Qed.

Create HintDb tally.
#[global] Hint Resolve Now_requests Done_requests io_requests log_requests
  Sleep_requests RunCoverage_requests ValidateTestFile_requests
  WriteFile_requests
  Now_measurements Done_measurements Do_measurements io_measurements
  log_measurements Sleep_measurements ValidateTestFile_measurements
  WriteFile_measurements : tally.

Section Budget.
Context `{GoLibrary} (analyzer : Analyzer) (cfg : Config).

(** *** Coverage measurements: only [Run] itself measures *)

Lemma makeRequest_measurements : respects (keeps measurements) makeRequest.
Proof. unfold makeRequest. frame; auto with tally. Qed.

Lemma sendAttempts_measurements n :
  forall a l, respects (keeps measurements) (sendAttempts n a l).
Proof.
  induction n as [|n IH]; intros a l; simpl; frame;
    auto using makeRequest_measurements with tally.
Qed.

Lemma GenerateTestForFile_measurements f :
  respects (keeps measurements) (GenerateTestForFile analyzer f).
Proof.
  unfold GenerateTestForFile, SendMessage. frame;
    auto using sendAttempts_measurements with tally.
Qed.

Lemma ImproveExistingTest_measurements f t :
  respects (keeps measurements) (ImproveExistingTest f t).
Proof.
  unfold ImproveExistingTest, SendMessage. frame;
    auto using sendAttempts_measurements with tally.
Qed.

Lemma FixBrokenTest_measurements t o :
  respects (keeps measurements) (FixBrokenTest t o).
Proof.
  unfold FixBrokenTest, SendMessage. frame;
    auto using sendAttempts_measurements with tally.
Qed.

Lemma retryLadder_measurements t N left :
  forall attempt, respects (keeps measurements) (retryLadder t N left attempt).
Proof.
  induction left as [|left IH]; intros attempt; simpl; unfold ValidateTest;
    frame; auto using FixBrokenTest_measurements with tally.
Qed.

Lemma processFile_measurements item :
  respects (onWorld (keeps measurements)) (processFile analyzer cfg item).
Proof.
  unfold processFile, obtainTest, checkAndRecord, ValidateAndRetry.
  frame;
    auto using GenerateTestForFile_measurements,
      ImproveExistingTest_measurements, retryLadder_measurements with tally.
Qed.

(** *** Requests: at most three for a message *)

Lemma SendMessage_within : within requests 3 SendMessage.
Proof. intros w. apply (sendAttempts_bound 3). Qed.

Lemma GenerateTestForFile_within f :
  within requests 3 (GenerateTestForFile analyzer f).
Proof.
  unfold GenerateTestForFile.
  apply (within_bind _ 0 3); [apply keeps_within; auto with tally|]. intros _.
  apply (within_bind _ 0 3); [apply keeps_within; auto with tally|].
  intros [err|]; [apply (within_weaken _ 0); [apply within_ret|lia]|].
  apply (within_bind _ 3 0); [apply SendMessage_within|].
  intros [text|err]; [|apply within_ret].
  apply (within_bind _ 0 0); [apply keeps_within; auto with tally|].
  intros [err|]; [apply within_ret|].
  apply (within_bind _ 0 0); [apply keeps_within; auto with tally|].
  intros [err|]; apply within_ret.
Qed.

Lemma ImproveExistingTest_within f t :
  within requests 3 (ImproveExistingTest f t).
Proof.
  unfold ImproveExistingTest.
  apply (within_bind _ 0 3); [apply keeps_within; auto with tally|]. intros _.
  apply (within_bind _ 0 3); [apply keeps_within; auto with tally|].
  intros [err|]; [apply (within_weaken _ 0); [apply within_ret|lia]|].
  apply (within_bind _ 0 3); [apply keeps_within; auto with tally|].
  intros [err|]; [apply (within_weaken _ 0); [apply within_ret|lia]|].
  apply (within_bind _ 3 0); [apply SendMessage_within|].
  intros [text|err]; [|apply within_ret].
  apply (within_bind _ 0 0); [apply keeps_within; auto with tally|].
  intros [err|]; apply within_ret.
Qed.

Lemma FixBrokenTest_within t o : within requests 3 (FixBrokenTest t o).
Proof.
  unfold FixBrokenTest.
  apply (within_bind _ 0 3); [apply keeps_within; auto with tally|]. intros _.
  apply (within_bind _ 0 3); [apply keeps_within; auto with tally|].
  intros [err|]; [apply (within_weaken _ 0); [apply within_ret|lia]|].
  apply (within_bind _ 3 0); [apply SendMessage_within|].
  intros [text|err]; [|apply within_ret].
  apply (within_bind _ 0 0); [apply keeps_within; auto with tally|].
  intros [err|]; apply within_ret.
Qed.

Lemma ValidateTest_within t : within requests 0 (ValidateTest t).
Proof.
  unfold ValidateTest.
  apply (within_bind _ 0 0); [apply keeps_within; auto with tally|].
  intros out. apply within_ret.
Qed.

(** A repair is a message, and there are at most [N - attempt] repairs. *)
Lemma retryLadder_within t N left : forall attempt,
  within requests (3 * Z.to_nat (N - attempt)) (retryLadder t N left attempt).
Proof.
  induction left as [|left IH]; intros attempt; cbn [retryLadder].
  - apply (within_weaken _ 0); [|lia].
    apply (within_bind _ 0 0); [apply ValidateTest_within|].
    intros [r|err]; apply within_ret.
  - apply (within_bind _ 0 (3 * Z.to_nat (N - attempt)));
      [apply ValidateTest_within|].
    intros [r|err]; [|apply (within_weaken _ 0); [apply within_ret|lia]].
    destruct (Success r); [apply (within_weaken _ 0); [apply within_ret|lia]|].
    destruct (Z.ltb_spec attempt N) as [Hlt|Hge].
    + apply (within_weaken _ (3 + 3 * Z.to_nat (N - (attempt + 1)))); [|lia].
      apply within_bind; [apply FixBrokenTest_within|].
      intros [tf|err]; [apply IH|].
      apply (within_weaken _ 0); [apply within_ret|lia].
    + apply (within_weaken _ (3 * Z.to_nat (N - (attempt + 1)))); [|lia].
      apply IH.
Qed.

Lemma ValidateAndRetry_within t N :
  within requests (3 * Z.to_nat N) (ValidateAndRetry t N).
Proof.
  unfold ValidateAndRetry.
  eapply within_weaken; [apply retryLadder_within|]. lia.
Qed.

Abbreviation requested := (fun sw : State * World => requests (snd sw)).

Lemma processFile_within item :
  within requested 9 (processFile analyzer cfg item).
Proof.
  unfold processFile.
  apply (within_bind _ 0 9);
    [apply within_lift, keeps_within; auto with tally|].
  intros [|]; [apply (within_weaken _ 0); [apply within_ret|lia]|].
  apply (within_bind _ 3 6).
  { unfold obtainTest.
    destruct (negb (WI.Exists item)), (negb (Cfg.DryRun cfg));
      try (apply (within_weaken _ 0); [apply within_ret|lia]).
    - apply (within_bind _ 0 3);
        [apply within_lift, keeps_within; auto with tally|]. intros now.
      apply (within_bind _ 0 3); [apply within_update|]. intros _.
      apply (within_bind _ 3 0);
        [apply within_lift, GenerateTestForFile_within|].
      intros [tf|err]; [|apply within_ret].
      apply (within_bind _ 0 0); [apply within_update|]. intros _.
      apply within_ret.
    - apply (within_bind _ 0 3);
        [apply within_lift, keeps_within; auto with tally|]. intros now.
      apply (within_bind _ 0 3); [apply within_update|]. intros _.
      apply (within_bind _ 3 0);
        [apply within_lift, ImproveExistingTest_within|].
      intros [tf|err]; [|apply within_ret].
      apply (within_bind _ 0 0); [apply within_update|]. intros _.
      apply within_ret. }
  intros [testFile|err]; [|apply (within_weaken _ 0); [apply within_ret|lia]].
  unfold checkAndRecord. destruct (negb (Cfg.DryRun cfg)).
  - apply (within_bind _ 6 0);
      [apply within_lift, (ValidateAndRetry_within testFile 2)|].
    intros [r|p err]; [|apply within_ret].
    destruct (negb (Success r));
      (apply (within_bind _ 0 0); [apply within_update|]);
      intros _; apply within_ret.
  - apply (within_weaken _ 0); [|lia].
    apply (within_bind _ 0 0); [apply within_update|].
    intros _. apply within_ret.
Qed.

(** *** Passes *)

Lemma WriteState_requests p d : respects (keeps requests) (Sys.WriteState p d).
Proof.
  unfold Sys.WriteState. frame; auto with tally. apply modify_respects. kept.
Qed.
Lemma WriteState_measurements p d :
  respects (keeps measurements) (Sys.WriteState p d).
Proof.
  unfold Sys.WriteState. frame; auto with tally. apply modify_respects. kept.
Qed.

Lemma SaveState_requests : respects (onWorld (keeps requests)) (SaveState cfg).
Proof.
  unfold SaveState, state. frame;
    auto using WriteState_requests with tally.
Qed.
Lemma SaveState_measurements :
  respects (onWorld (keeps measurements)) (SaveState cfg).
Proof.
  unfold SaveState, state. frame;
    auto using WriteState_measurements with tally.
Qed.

Lemma awaitTurn_requests : respects (onWorld (keeps requests)) (awaitTurn cfg).
Proof.
  unfold awaitTurn, state. frame;
    auto using SaveState_requests with tally.
Qed.
Lemma awaitTurn_measurements :
  respects (onWorld (keeps measurements)) (awaitTurn cfg).
Proof.
  unfold awaitTurn, state. frame;
    auto using SaveState_measurements with tally.
Qed.

(** What a computation adds to the iteration counter, to the number of
    measurements and to the number of requests: [k] iterations, [k]
    measurements and at most [9 * k] requests. *)
Definition spent (k : Z) (sw sw' : State * World) : Prop :=
  CurrentIteration (fst sw') = CurrentIteration (fst sw) + k
  /\ Z.of_nat (measurements (snd sw')) = Z.of_nat (measurements (snd sw)) + k
  /\ Z.of_nat (requests (snd sw')) <= Z.of_nat (requests (snd sw)) + 9 * k.

Lemma spent_trans a b x y z : spent a x y -> spent b y z -> spent (a + b) x z.
Proof. unfold spent. intros (? & ? & ?) (? & ? & ?). lia. Qed.

Lemma SaveState_spent sw : spent 0 sw (snd (SaveState cfg sw)).
Proof.
  destruct sw as [s w]. unfold spent.
  pose proof (counts_SaveState cfg s w) as Hi.
  pose proof (SaveState_requests (s, w)) as Hr.
  pose proof (SaveState_measurements (s, w)) as Hm.
  unfold onWorld, keeps in Hr, Hm. cbn [fst snd] in *. lia.
Qed.

Lemma awaitTurn_spent sw : spent 0 sw (snd (awaitTurn cfg sw)).
Proof.
  destruct sw as [s w]. unfold spent.
  pose proof (counts_awaitTurn cfg s w) as Hi.
  pose proof (awaitTurn_requests (s, w)) as Hr.
  pose proof (awaitTurn_measurements (s, w)) as Hm.
  unfold onWorld, keeps in Hr, Hm. cbn [fst snd] in *. lia.
Qed.

(** A pass that gets to its measurement counts one iteration, measures
    once and sends at most nine requests: three for the test, three for
    each of two repairs. *)
Lemma improve_spent sw : spent 1 sw (snd (improve analyzer cfg sw)).
Proof.
  destruct sw as [s w]. unfold spent. cbn [fst snd].
  split; [apply (counts_improve analyzer cfg s w)|].
  unfold improve.
  apply (wp_bind _ _ (fun _ sw' =>
           Z.of_nat (measurements (snd sw')) = Z.of_nat (measurements w) + 1
           /\ Z.of_nat (requests (snd sw')) <= Z.of_nat (requests w) + 9 * 1)),
    wp_update.
  apply wp_bind, wp_lift. intros cov w1 E1.
  apply RunCoverage_run in E1 as (_ & _ & _ & Hr1 & _ & _ & _ & _ & _ & Hm1 & _).
  destruct cov as [report|err]; [|apply wp_ret; cbn [snd]; lia].
  apply wp_bind, wp_lift. intros now w2 E2.
  apply Now_run in E2 as (_ & _ & _ & Hr2 & _ & _ & _ & _ & _ & Hm2 & _).
  apply wp_bind, wp_update.
  set (s2 := AddCoverageSnapshot _ _ _). clearbody s2.
  assert (forall s0 w0 (f : option error -> Step),
            measurements w0 = measurements w2 ->
            (requests w0 <= requests w2 + 9)%nat ->
            wp (bind (SaveState cfg) (fun e => ret (f e)))
              (fun _ sw' =>
                 Z.of_nat (measurements (snd sw')) = Z.of_nat (measurements w) + 1
                 /\ Z.of_nat (requests (snd sw')) <= Z.of_nat (requests w) + 9 * 1)
              (s0, w0)) as Hsave.
  { intros s0 w0 f Hm0 Hr0. apply wp_bind. unfold wp at 1.
    destruct (SaveState_spent (s0, w0)) as (_ & Hm & Hr).
    destruct (SaveState cfg (s0, w0)) as [e [s5 w5]]. cbn [fst snd] in *.
    apply wp_ret. cbn [snd]. lia. }
  destruct (PrimFloat.leb _ _); [apply Hsave; lia|].
  apply wp_bind, wp_gets. cbn [fst snd id].
  destruct (prioritizeWorkItems analyzer report s2 (files w2))
    as [|item rest]; [apply Hsave; lia|].
  apply wp_bind. unfold wp at 1.
  pose proof (processFile_within item (s2, w2)) as Hr3.
  pose proof (processFile_measurements item (s2, w2)) as Hm3.
  unfold onWorld, keeps in Hm3.
  destruct (processFile analyzer cfg item (s2, w2)) as [perr [s3 w3]].
  cbn [fst snd] in *.
  assert (forall s4, wp (saveAndContinue cfg)
            (fun _ sw' =>
               Z.of_nat (measurements (snd sw')) = Z.of_nat (measurements w) + 1
               /\ Z.of_nat (requests (snd sw')) <= Z.of_nat (requests w) + 9 * 1)
            (s4, w3)) as Hgo.
  { intros s4. unfold saveAndContinue. apply wp_bind. unfold wp at 1.
    destruct (SaveState_spent (s4, w3)) as (_ & Hm & Hr).
    destruct (SaveState cfg (s4, w3)) as [[e|] [s5 w5]]; cbn [fst snd] in *;
      apply wp_ret; cbn [snd]; lia. }
  destruct perr as [err|]; [|apply Hgo].
  destruct (asRateLimitError err) as [[resetTime ?]|];
    apply wp_bind, wp_update, Hgo.
Qed.

Lemma iteration_spent sw :
  exists k, (k = 0 \/ k = 1)
    /\ spent k sw (snd (iteration analyzer cfg sw))
    /\ (fst (iteration analyzer cfg sw) = Continue -> k = 1).
Proof.
  unfold iteration, bind.
  pose proof (awaitTurn_spent sw) as Hwait.
  destruct (awaitTurn cfg sw) as [[e|] sw1]; cbn [fst snd] in *.
  - exists 0. split; [by left|]. split; [exact Hwait|done].
  - exists 1. split; [by right|]. split; [|done].
    apply (spent_trans 0 1 _ _ _ Hwait), improve_spent.
Qed.

Lemma mainLoop_spent fuel : forall sw,
  exists k, 0 <= k
    /\ spent k sw (snd (mainLoop analyzer cfg fuel sw))
    /\ CurrentIteration (fst sw) + k
       <= Z.max (CurrentIteration (fst sw)) (Cfg.MaxIterations cfg).
Proof.
  induction fuel as [|fuel IH]; intros [s w]; cbn [mainLoop];
    unfold bind at 1; cbn [state gets fst snd];
    destruct (Z.ltb_spec (CurrentIteration s) (Cfg.MaxIterations cfg))
      as [Hlt|Hge].
  - exists 0. split; [done|]. split; [|lia]. unfold spent. cbn. lia.
  - exists 0. split; [done|]. split; [|lia].
    unfold bind. pose proof (SaveState_spent (s, w)) as Hs.
    by destruct (SaveState cfg (s, w)).
  - unfold bind at 1.
    destruct (iteration_spent (s, w)) as (k & Hk & Hsp & Hgo).
    destruct (iteration analyzer cfg (s, w)) as [[|e] sw1]; cbn [fst snd] in *.
    + destruct (IH sw1) as (k' & Hk' & Hsp' & Hmax).
      exists (k + k'). split; [lia|].
      split; [by eapply spent_trans|].
      destruct Hsp as (Hi & _). cbn [fst] in Hi. rewrite Hgo in * by done. lia.
    + exists k. split; [lia|]. split; [exact Hsp|]. lia.
  - exists 0. split; [done|]. split; [|lia].
    unfold bind. pose proof (SaveState_spent (s, w)) as Hs.
    by destruct (SaveState cfg (s, w)).
Qed.

Lemma analyseFirst_requests :
  respects (onWorld (keeps requests)) (analyseFirst cfg).
Proof.
  unfold analyseFirst, state. frame;
    auto using SaveState_requests with tally.
Qed.

Lemma analyseFirst_measurements s w :
  measurements (snd (snd (analyseFirst cfg (s, w)))) = S (measurements w).
Proof.
  unfold analyseFirst.
  apply (wp_bind _ _ (fun _ sw' => measurements (snd sw') = _)), wp_lift.
  intros cov w1 E1.
  apply RunCoverage_run in E1 as (_ & _ & _ & _ & _ & _ & _ & _ & _ & Hm1 & _).
  rewrite <- Hm1.
  match goal with |- wp ?m _ _ =>
    assert (respects (onWorld (keeps measurements)) m) as Hrest
  end.
  { unfold state. frame; auto using SaveState_measurements with tally. }
  apply (Hrest (s, w1)).
Qed.

Lemma Run_unfold s w :
  Run analyzer cfg (s, w)
  = match analyseFirst cfg (s, w) with
    | (Some e, sw1) => (Finished e, sw1)
    | (None, sw1) =>
        mainLoop analyzer cfg
          (Z.to_nat (Cfg.MaxIterations cfg - CurrentIteration (fst sw1))) sw1
    end.
Proof.
  unfold Run, bind.
  by destruct (analyseFirst cfg (s, w)) as [[e|] [s1 w1]].
Qed.

(** X1.  [Run] returns, after at most [MaxIterations - CurrentIteration] passes
    that got to their measurement: the counter never passes
    [MaxIterations], there is one measurement before the loop and one for
    each iteration counted, and there are at most nine requests for each. *)
Theorem Run_stays_within_MaxIterations (s : State) (w : World) :
  let r := fst (Run analyzer cfg (s, w)) in
  let s' := fst (snd (Run analyzer cfg (s, w))) in
  let w' := snd (snd (Run analyzer cfg (s, w))) in
  (exists e, r = Finished e)
  /\ CurrentIteration s <= CurrentIteration s'
     <= Z.max (CurrentIteration s) (Cfg.MaxIterations cfg)
  /\ Z.of_nat (measurements w')
     = Z.of_nat (measurements w) + 1 + (CurrentIteration s' - CurrentIteration s)
  /\ Z.of_nat (requests w')
     <= Z.of_nat (requests w) + 9 * (CurrentIteration s' - CurrentIteration s).
Proof.
  intros r s' w'. subst r s' w'.
  split; [apply Run_returns|].
  rewrite Run_unfold.
  pose proof (counts_analyseFirst cfg s w) as Hi.
  pose proof (analyseFirst_measurements s w) as Hm.
  pose proof (analyseFirst_requests (s, w)) as Hr.
  unfold onWorld, keeps in Hr.
  destruct (analyseFirst cfg (s, w)) as [[e|] [s1 w1]]; cbn [fst snd] in *.
  { lia. }
  destruct (mainLoop_spent
              (Z.to_nat (Cfg.MaxIterations cfg - CurrentIteration s1)) (s1, w1))
    as (k & Hk & (Hi' & Hm' & Hr') & Hmax).
  cbn [fst snd] in *. lia.
Qed.
End Budget.

(** ** Sessions that end before the loop *)

Section Early.
Context `{GoLibrary} (analyzer : Analyzer) (cfg : Config).

(** The state and the world right after the initial analysis of [Run] was
    answered [report]. *)
Definition analysed (s : State) (w : World) (report : CoverageReport)
    : State * World :=
  (AddCoverageSnapshot (clock w (ticks w)) (Cov.TotalCoverage report) s,
   snd (Sys.Now (snd (Sys.RunCoverage w)))).

Lemma analyseFirst_unfold s w report :
  coverage_out w (measurements w) = inl report ->
  analyseFirst cfg (s, w)
  = if PrimFloat.ltb 0%float
         (PrimFloat.sub (Cfg.TargetCoverage cfg) (Cov.TotalCoverage report))
    then if NeedsTestGeneration (fst (analysed s w report))
         then (None, analysed s w report)
         else (Some (fst (SaveState cfg (analysed s w report))),
               snd (SaveState cfg (analysed s w report)))
    else (Some (fst (SaveState cfg (analysed s w report))),
          snd (SaveState cfg (analysed s w report))).
Proof.
  intros Hcov. unfold analyseFirst, analysed.
  unfold bind at 1. unfold lift at 1. cbn [fst snd].
  destruct w as [clk tk cd pl cvo ms ho rq vo vs ioo iop fl sf tr].
  cbn [coverage_out measurements] in Hcov.
  cbn [Sys.RunCoverage fst snd]. rewrite Hcov.
  unfold bind at 1. unfold lift at 1. cbn [Sys.Now fst snd clock ticks].
  unfold bind at 1. unfold update at 1, modify at 1. cbn [fst snd].
  destruct (PrimFloat.ltb _ _).
  - unfold bind at 1. unfold state at 1, gets at 1. cbn [fst snd].
    destruct (NeedsTestGeneration _); cbn [negb]; [done|].
    unfold bind at 1. by destruct (SaveState cfg _) as [e sw'].
  - unfold bind at 1. by destruct (SaveState cfg _) as [e sw'].
Qed.

Lemma analysed_fields s w report :
  let s1 := fst (analysed s w report) in
  let w1 := snd (analysed s w report) in
  CurrentCoverage s1 = Cov.TotalCoverage report
  /\ TargetCoverage s1 = TargetCoverage s
  /\ CurrentIteration s1 = CurrentIteration s
  /\ ProcessedFiles s1 = ProcessedFiles s /\ FailedFiles s1 = FailedFiles s
  /\ requests w1 = requests w /\ validations w1 = validations w
  /\ measurements w1 = S (measurements w)
  /\ trace w1 = EvCoverage :: trace w.
Proof. by destruct s, w. Qed.

(** X2.  [Run] does not enter its loop when the initial analysis is at or above
    the target of the configuration ([coverageGap > 0] fails), or at or
    above the target recorded in the state ([NeedsTestGeneration] fails;
    after [-resume] that is the target of the earlier session).  It records
    the measurement, saves the state and returns what the save returns: no
    iteration is counted and nothing is sent or validated. *)
Theorem Run_returns_before_the_loop (s : State) (w : World)
    (report : CoverageReport) :
  coverage_out w (measurements w) = inl report ->
  PrimFloat.ltb 0%float
    (PrimFloat.sub (Cfg.TargetCoverage cfg) (Cov.TotalCoverage report)) = false
  \/ PrimFloat.ltb (Cov.TotalCoverage report) (TargetCoverage s) = false ->
  exists e s' w',
    Run analyzer cfg (s, w) = (Finished e, (s', w'))
    /\ SaveState cfg (analysed s w report) = (e, (s', w'))
    /\ CurrentIteration s' = CurrentIteration s
    /\ CurrentCoverage s' = Cov.TotalCoverage report
    /\ Coverage <$> CoverageHistory s'
       = (Coverage <$> CoverageHistory s) ++ [Cov.TotalCoverage report]
    /\ ProcessedFiles s' = ProcessedFiles s /\ FailedFiles s' = FailedFiles s
    /\ measurements w' = S (measurements w)
    /\ requests w' = requests w /\ validations w' = validations w.
Proof.
  intros Hcov Hstop.
  destruct (SaveState cfg (analysed s w report)) as [e [s' w']] eqn:Hsave.
  exists e, s', w'.
  assert (analyseFirst cfg (s, w) = (Some e, (s', w'))) as Hfirst.
  { rewrite (analyseFirst_unfold s w report Hcov), Hsave. cbn [fst snd].
    destruct (analysed_fields s w report) as (Hcur & Htgt & _).
    destruct (PrimFloat.ltb 0 _) eqn:Hgap; [|done].
    destruct Hstop as [?|Hstate]; [done|].
    unfold NeedsTestGeneration. by rewrite Hcur, Htgt, Hstate. }
  split; [by rewrite Run_unfold, Hfirst|]. split; [done|].
  pose proof (analyseFirst_history cfg s w report Hcov) as Hh.
  rewrite Hfirst in Hh. cbn [fst snd] in Hh.
  destruct (analysed_fields s w report)
    as (Hcur & _ & Hit & Hp & Hf & Hr & Hv & Hm & _).
  destruct (analysed s w report) as [s1 w1]. cbn [fst snd] in *.
  apply SaveState_run in Hsave as (-> & _ & Hr' & Hv' & _ & Hm' & _).
  split; [rewrite <- Hit; by destruct s1|].
  split; [rewrite <- Hcur; by destruct s1|].
  split; [by rewrite Hh, fmap_app|].
  split; [rewrite <- Hp; by destruct s1|].
  split; [rewrite <- Hf; by destruct s1|].
  split; [congruence|]. split; congruence.
Qed.
End Early.

(** A project that is at 82% when the session with target 80 starts. *)
Definition reachedWorld : World :=
  with_coverage (fun _ => inl (reportAt 82%float)) quietWorld.

Definition reachedStart : State * World := New GoAnalyzer cfg80 reachedWorld.

Lemma already_at_target :
  (coverage_out (snd reachedStart) (measurements (snd reachedStart))
   = inl (reportAt 82%float)
   /\ PrimFloat.ltb 0%float (PrimFloat.sub 80%float 82%float) = false)
  /\ exists s' w',
       Run GoAnalyzer cfg80 reachedStart = (Finished None, (s', w'))
       /\ CurrentIteration s' = 0
       /\ Coverage <$> CoverageHistory s' = [82%float]
       /\ measurements w' = 1%nat
       /\ requests w' = 0%nat.
Proof.
  split; [split; reflexivity|].
  destruct (Run_returns_before_the_loop GoAnalyzer cfg80
              (fst reachedStart) (snd reachedStart) (reportAt 82%float)
              eq_refl (or_introl eq_refl))
    as (e & s' & w' & Hrun & Hsave & Hit & _ & Hh & _ & _ & Hm & Hr & _).
  assert (e = None) as ->.
  { apply (f_equal fst) in Hsave. cbn [fst] in Hsave. rewrite <- Hsave.
    vm_compute. reflexivity. }
  exists s', w'. rewrite <- surjective_pairing in Hrun.
  split; [exact Hrun|]. split; [exact Hit|]. split; [exact Hh|].
  split; [exact Hm|exact Hr].
Defined.

(** ** Cancellation *)

Section Cancel.
Context `{GoLibrary} (analyzer : Analyzer) (cfg : Config).

Lemma awaitTurn_cancelled s w :
  ctx_done w (polls w) = true ->
  awaitTurn cfg (s, w)
  = (Some (fst (SaveState cfg (s, snd (Sys.Done w)))),
     snd (SaveState cfg (s, snd (Sys.Done w)))).
Proof.
  intros Hctx. unfold awaitTurn.
  unfold bind at 1. unfold lift at 1.
  destruct w as [clk tk cd pl cvo ms ho rq vo vs ioo iop fl sf tr].
  cbn [ctx_done polls] in Hctx. cbn [Sys.Done fst snd]. rewrite Hctx.
  unfold bind at 1. by destruct (SaveState cfg _) as [e sw'].
Qed.

(** X3.  A cancellation seen where a pass begins: the loop saves the state and
    [Run] returns what the save returns, without a measurement, a request
    or a change of the ledgers or of the iteration counter. *)
Theorem cancelled_loop_saves_and_returns (fuel : nat) (s : State) (w : World) :
  CurrentIteration s < Cfg.MaxIterations cfg ->
  ctx_done w (polls w) = true ->
  exists e s' w',
    mainLoop analyzer cfg (S fuel) (s, w) = (Finished e, (s', w'))
    /\ SaveState cfg (s, snd (Sys.Done w)) = (e, (s', w'))
    /\ s' = set_LastUpdatedAt (clock w (ticks w)) s
    /\ measurements w' = measurements w
    /\ requests w' = requests w /\ validations w' = validations w
    /\ (e = None ->
        exists doc, state_files w' !! Cfg.StateFile cfg = Some doc
                    /\ Json.unmarshal_state doc = Some s').
Proof.
  intros Hlt Hctx.
  destruct (SaveState cfg (s, snd (Sys.Done w))) as [e [s' w']] eqn:Hsave.
  exists e, s', w'. split.
  { cbn [mainLoop]. unfold bind at 1. cbn [state gets fst snd].
    apply Z.ltb_lt in Hlt. rewrite Hlt.
    unfold bind at 1. unfold iteration. unfold bind at 1.
    by rewrite (awaitTurn_cancelled s w Hctx), Hsave. }
  split; [done|].
  destruct (Done_world w) as (Hr & Hv & _ & _).
  assert (measurements (snd (Sys.Done w)) = measurements w
          /\ clock (snd (Sys.Done w)) = clock w
          /\ ticks (snd (Sys.Done w)) = ticks w) as (Hm & Hc & Ht)
    by (by destruct w).
  apply SaveState_run in Hsave as (-> & _ & Hr' & Hv' & _ & Hm' & _ & Hdoc).
  rewrite Hc, Ht. split; [done|].
  split; [congruence|]. split; [congruence|]. split; [congruence|].
  intros ->. destruct Hdoc as (doc & Hdoc & _ & Hsf & _).
  exists doc. split; [by rewrite Hsf, lookup_insert_eq|].
  apply unmarshal_marshal_state in Hdoc. by rewrite Hc, Ht in Hdoc.
Qed.

Lemma processFile_cancelled item s w :
  ctx_done w (polls w) = true ->
  processFile analyzer cfg item (s, w)
  = (Some contextCanceled, (s, snd (Sys.Done w))).
Proof.
  intros Hctx. unfold processFile.
  unfold bind at 1. unfold lift at 1.
  destruct w as [clk tk cd pl cvo ms ho rq vo vs ioo iop fl sf tr].
  cbn [ctx_done polls] in Hctx. cbn [Sys.Done fst snd]. by rewrite Hctx.
Qed.

(** X4.  A cancellation that [processFile] sees (it came while the pass was
    measuring): [ctx.Err()] is an error like any other for [Run], so the
    unit the pass had chosen is put into [FailedFiles] with the text
    "context canceled", and the prioritizer never gives it out again;
    nothing is sent or validated, and the state is saved. *)
Theorem cancelled_unit_is_marked_failed (s : State) (w : World)
    (report : CoverageReport) (item : WorkItem) (rest : list WorkItem) :
  coverage_out w (measurements w) = inl report ->
  PrimFloat.leb (Cfg.TargetCoverage cfg) (Cov.TotalCoverage report) = false ->
  prioritizeWorkItems analyzer report s (files w) = item :: rest ->
  ctx_done w (polls w) = true ->
  exists st s' w',
    improve analyzer cfg (s, w) = (st, (s', w'))
    /\ FailedFiles s'
       = <[WI.SourceFile item := "context canceled"]> (FailedFiles s)
    /\ ProcessedFiles s' = ProcessedFiles s
    /\ requests w' = requests w /\ validations w' = validations w
    /\ files w' = files w
    /\ ((st = Continue
         /\ exists doc, state_files w' !! Cfg.StateFile cfg = Some doc
                        /\ Json.unmarshal_state doc = Some s')
        \/ exists e, st = Return (Some (wrapError "failed to save state" e)))
    /\ (forall n analyzer' cfg' report' fs,
          WI.SourceFile item
          ∉ WI.SourceFile
              <$> prioritizeWorkItems analyzer' report'
                    (fst (passes analyzer' cfg' n (s', w'))) fs).
Proof.
  intros Hcov Hleb Hprio Hctx.
  pose proof (improve_unfold analyzer cfg s w report Hcov) as Himp.
  rewrite Hleb, Hprio in Himp.
  destruct (measured s w report) as [s1 w1] eqn:Hm.
  pose proof (measured_world s w report) as Hw. rewrite Hm in Hw.
  pose proof (measured_ledgers s w report) as Hl. rewrite Hm in Hl.
  cbn [fst snd] in Hw, Hl.
  destruct Hw as (Hlater & Hrq & Hvs & Hfl & Hpl & _).
  destruct Hl as (Hp1 & Hf1 & _).
  rewrite processFile_cancelled in Himp
    by (by rewrite (later_ctx _ _ Hlater), Hpl).
  unfold recorded in Himp. cbn [fst snd asRateLimitError contextCanceled] in Himp.
  destruct (saveAndContinue cfg _) as [st [s' w']] eqn:Hsave.
  exists st, s', w'. split; [exact Himp|].
  apply saveAndContinue_run in Hsave as (-> & _ & Hrq' & Hvs' & Hfl' & _ & Hst).
  destruct (Done_world w1) as (Hr2 & Hv2 & Hf2 & _).
  set (s2 := MarkFileFailed (WI.SourceFile item) _ s1) in *.
  set (w2 := snd (Sys.Done w1)) in *.
  destruct (stamped_fields s2 w2) as (Hp & Hf & _).
  assert (FailedFiles s2
          = <[WI.SourceFile item := "context canceled"]> (FailedFiles s)
          /\ ProcessedFiles s2 = ProcessedFiles s) as [Hf3 Hp3].
  { rewrite <- Hf1, <- Hp1. unfold s2. by destruct s1. }
  split; [congruence|]. split; [congruence|].
  split; [congruence|]. split; [congruence|]. split; [congruence|].
  split.
  { destruct Hst as [(-> & doc & Hdoc & Hsf & _)|(e & -> & _)].
    - left. split; [done|]. exists doc.
      split; [by rewrite Hsf, lookup_insert_eq|].
      by apply unmarshal_marshal_state.
    - right. by exists e. }
  intros n analyzer' cfg' report' fs.
  apply classified_not_prioritized. right.
  pose proof (passes_advances analyzer' cfg' n (stamped s2 w2, w')) as Hadv.
  exists "context canceled". apply (adv_failed _ _ Hadv). cbn [fst].
  by rewrite Hf, Hf3, lookup_insert_eq.
Qed.
End Cancel.

(** A session that is cancelled from its start on. *)
Definition cancelledWorld : World :=
  with_ctx (fun _ => true)
    (with_coverage (fun _ => inl (reportAt 65%float)) quietWorld).

Definition cancelledStart : State * World := New GoAnalyzer cfg80 cancelledWorld.

Lemma cancelled_before_a_pass :
  (CurrentIteration (fst cancelledStart) < Cfg.MaxIterations cfg80
   /\ ctx_done (snd cancelledStart) (polls (snd cancelledStart)) = true)
  /\ exists s' w',
       mainLoop GoAnalyzer cfg80 1 cancelledStart = (Finished None, (s', w'))
       /\ measurements w' = 0%nat /\ requests w' = 0%nat
       /\ is_Some (state_files w' !! "state.json").
Proof.
  assert (CurrentIteration (fst cancelledStart) < Cfg.MaxIterations cfg80)
    as Hlt by (vm_compute; reflexivity).
  split; [split; [exact Hlt|reflexivity]|].
  destruct (cancelled_loop_saves_and_returns GoAnalyzer cfg80 0
              (fst cancelledStart) (snd cancelledStart) Hlt eq_refl)
    as (e & s' & w' & Hrun & Hsave & _ & Hm & Hr & _ & Hdoc).
  assert (e = None) as ->.
  { apply (f_equal fst) in Hsave. cbn [fst] in Hsave. rewrite <- Hsave.
    vm_compute. reflexivity. }
  exists s', w'. rewrite <- surjective_pairing in Hrun.
  split; [exact Hrun|]. split; [exact Hm|]. split; [exact Hr|].
  destruct (Hdoc eq_refl) as (doc & Hfile & _). by exists doc.
Defined.

Lemma cancelled_while_measuring :
  (coverage_out (snd cancelledStart) (measurements (snd cancelledStart))
   = inl (reportAt 65%float)
   /\ ctx_done (snd cancelledStart) (polls (snd cancelledStart)) = true)
  /\ exists st s' w',
       improve GoAnalyzer cfg80 cancelledStart = (st, (s', w'))
       /\ FailedFiles s' !! "a.go" = Some "context canceled"
       /\ ProcessedFiles s' = ∅
       /\ requests w' = 0%nat
       /\ "a.go" ∉ WI.SourceFile
                     <$> prioritizeWorkItems GoAnalyzer (reportAt 65%float)
                           s' (files w').
Proof.
  split; [split; reflexivity|].
  assert (prioritizeWorkItems GoAnalyzer (reportAt 65%float)
            (fst cancelledStart) (files (snd cancelledStart))
          = dryItem
            :: [WI.mkWorkItem "b.go" "b_test.go" 20%float [7] 80 false;
                WI.mkWorkItem "c.go" "c_test.go" 30%float [1; 2; 9] 70 false])
    as Hprio by (vm_compute; reflexivity).
  destruct (cancelled_unit_is_marked_failed GoAnalyzer cfg80
              (fst cancelledStart) (snd cancelledStart)
              (reportAt 65%float) dryItem _ eq_refl eq_refl Hprio eq_refl)
    as (st & s' & w' & Himp & Hf & Hp & Hr & _ & _ & _ & Hex).
  exists st, s', w'. rewrite <- surjective_pairing in Himp.
  split; [exact Himp|].
  split; [rewrite Hf; apply lookup_insert_eq|].
  split; [exact Hp|]. split; [exact Hr|].
  exact (Hex 0%nat GoAnalyzer cfg80 (reportAt 65%float) (files w')).
Defined.

(** ** Nothing left to work on *)

Section Exhausted.
Context `{GoLibrary} (analyzer : Analyzer) (cfg : Config).

Lemma prioritizeWorkItems_nil report s fs :
  prioritizeWorkItems analyzer report s fs = []
  <-> forall u, u ∈ Cov.UncoveredFiles report -> ~ unclassified s u.
Proof.
  split.
  - intros Hnil u Hin Hu.
    assert (exists item, item ∈ prioritizeWorkItems analyzer report s fs)
      as [item Hitem].
    { eexists. apply elem_of_prioritizeWorkItems. exists u. split; [done|].
      by apply workItemFor_Some. }
    rewrite Hnil in Hitem. by apply not_elem_of_nil in Hitem.
  - intros Hall.
    destruct (prioritizeWorkItems analyzer report s fs) as [|item l] eqn:Hp;
      [done|].
    assert (item ∈ prioritizeWorkItems analyzer report s fs) as Hin
      by (rewrite Hp; left).
    apply elem_of_prioritizeWorkItems in Hin as (u & Hu & Hw).
    apply workItemFor_Some in Hw as [Hun _]. by destruct (Hall u Hu).
Qed.

(** X5.  A pass below the target that finds every unit of [UncoveredFiles] in a
    ledger (or none listed) ends the session: it counts the iteration,
    records the measurement, saves the state and [Run] returns what the
    save returns, without a request, although the target is not reached. *)
Theorem no_candidates_end_the_session (s : State) (w : World)
    (report : CoverageReport) :
  coverage_out w (measurements w) = inl report ->
  PrimFloat.leb (Cfg.TargetCoverage cfg) (Cov.TotalCoverage report) = false ->
  (forall u, u ∈ Cov.UncoveredFiles report -> ~ unclassified s u) ->
  exists e s' w',
    improve analyzer cfg (s, w) = (Return e, (s', w'))
    /\ SaveState cfg (measured s w report) = (e, (s', w'))
    /\ CurrentIteration s' = CurrentIteration s + 1
    /\ CurrentCoverage s' = Cov.TotalCoverage report
    /\ ProcessedFiles s' = ProcessedFiles s /\ FailedFiles s' = FailedFiles s
    /\ requests w' = requests w /\ validations w' = validations w
    /\ files w' = files w.
Proof.
  intros Hcov Hleb Hall.
  pose proof (improve_unfold analyzer cfg s w report Hcov) as Himp.
  apply (prioritizeWorkItems_nil report s (files w)) in Hall.
  rewrite Hleb, Hall in Himp. unfold savedAndReturned in Himp.
  destruct (SaveState cfg (measured s w report)) as [e [s' w']] eqn:Hsave.
  exists e, s', w'. split; [exact Himp|]. split; [done|].
  destruct (measured s w report) as [s1 w1] eqn:Hm.
  pose proof (measured_world s w report) as Hw. rewrite Hm in Hw.
  pose proof (measured_state s w report) as Hs. rewrite Hm in Hs.
  pose proof (measured_ledgers s w report) as Hl. rewrite Hm in Hl.
  cbn [fst snd] in Hw, Hs, Hl.
  destruct Hw as (_ & Hrq & Hvs & Hfl & _).
  destruct Hs as (Hit & Hcur & _).
  destruct Hl as (Hp1 & Hf1 & _).
  apply SaveState_run in Hsave as (-> & _ & Hr' & Hv' & Hf' & _).
  split; [rewrite <- Hit; by destruct s1|].
  split; [rewrite <- Hcur; by destruct s1|].
  split; [rewrite <- Hp1; by destruct s1|].
  split; [rewrite <- Hf1; by destruct s1|].
  split; [congruence|]. split; congruence.
Qed.
End Exhausted.

(** A session whose three units have all failed before. *)
Definition allFailed : State * World :=
  let sw := New GoAnalyzer cfg80 dryWorld in
  (MarkFileFailed "a.go" "Tests failed"
     (MarkFileFailed "b.go" "Tests failed"
        (MarkFileProcessed "c.go" (fst sw))), snd sw).

Lemma nothing_left_to_do :
  (coverage_out (snd allFailed) (measurements (snd allFailed))
   = inl (reportAt 65%float)
   /\ forall u, u ∈ Cov.UncoveredFiles (reportAt 65%float) ->
                ~ unclassified (fst allFailed) u)
  /\ exists s' w',
       improve GoAnalyzer cfg80 allFailed = (Return None, (s', w'))
       /\ CurrentIteration s' = 1
       /\ requests w' = 0%nat.
Proof.
  assert (forall u, u ∈ Cov.UncoveredFiles (reportAt 65%float) ->
                    ~ unclassified (fst allFailed) u) as Hall.
  { intros u Hu [Hp Hf]. cbn [reportAt Cov.UncoveredFiles] in Hu.
    repeat (apply elem_of_cons in Hu as [->|Hu]);
      [vm_compute in Hf; discriminate..|vm_compute in Hp; discriminate|].
    by apply not_elem_of_nil in Hu. }
  split; [split; [reflexivity|exact Hall]|].
  destruct (no_candidates_end_the_session GoAnalyzer cfg80
              (fst allFailed) (snd allFailed) (reportAt 65%float)
              eq_refl eq_refl Hall)
    as (e & s' & w' & Himp & Hsave & Hit & _ & _ & _ & Hr & _).
  assert (e = None) as ->.
  { apply (f_equal fst) in Hsave. cbn [fst] in Hsave. rewrite <- Hsave.
    vm_compute. reflexivity. }
  exists s', w'. rewrite <- surjective_pairing in Himp.
  split; [exact Himp|]. split; [rewrite Hit; vm_compute; reflexivity|exact Hr].
Defined.

(** ** The state file when the program ends *)

(** The state file holds the document of the state in memory. *)
Definition savedAs (cfg : Config) (sw : State * World) : Prop :=
  exists doc, state_files (snd sw) !! Cfg.StateFile cfg = Some doc
              /\ Json.marshal_state (fst sw) = Some doc.

Lemma marshal_state_stamp t s :
  is_Some (Json.marshal_state (set_LastUpdatedAt t s))
  <-> is_Some (Json.marshal_state s).
Proof.
  destruct s. unfold Json.marshal_state. cbn.
  destruct (Json.marshal_float _); [|done]. cbn.
  destruct (Json.marshal_float _); [|done]. cbn.
  destruct (mapM _ _); cbn; [|done]. split; intros _; by eexists.
Qed.

Section AtExit.
Context `{GoLibrary} (analyzer : Analyzer) (cfg : Config).

Lemma New_later : respects later (New analyzer cfg).
Proof. unfold New. frame; auto with frame. Qed.

Lemma SaveState_result s w :
  fst (SaveState cfg (s, w)) = None
  <-> is_Some (Json.marshal_state s) /\ io_out w (io_ops w) = None.
Proof.
  unfold SaveState, bind, lift, update, state, gets, modify, ret.
  cbn [fst snd].
  destruct w as [clk tk cd pl cvo ms ho rq vo vs ioo iop fl sf tr].
  cbn [Sys.Now fst snd io_out io_ops].
  rewrite <- (marshal_state_stamp (clk tk) s).
  destruct (Json.marshal_state _) as [doc|]; cbn [fst snd].
  - unfold Sys.WriteState, bind, Sys.io, modify, ret. cbn [fst snd].
    destruct (ioo iop) as [err|]; cbn [fst snd].
    + split; [done|]. by intros [_ ?].
    + split; [|done]. intros _. split; [by eexists|done].
  - split; [done|]. intros [[? ?] _]. done.
Qed.

Lemma SaveState_savedAs s w :
  fst (SaveState cfg (s, w)) = None -> savedAs cfg (snd (SaveState cfg (s, w))).
Proof.
  destruct (SaveState cfg (s, w)) as [e [s' w']] eqn:E. cbn [fst snd].
  intros ->. apply SaveState_run in E as (-> & _ & _ & _ & _ & _ & _ & Hdoc).
  destruct Hdoc as (doc & Hdoc & _ & Hsf & _).
  exists doc. cbn [fst snd]. by rewrite Hsf, lookup_insert_eq.
Qed.

(** [e <~ SaveState; ret (f e)] with an injective [f]. *)
Lemma save_and_return_saved {A} (f : option error -> A) sw :
  (forall e, f e = f None -> e = None) ->
  wp (bind (SaveState cfg) (fun e => ret (f e)))
     (fun a sw' => a = f None -> savedAs cfg sw') sw.
Proof.
  intros Hinj. apply wp_bind. unfold wp at 1. destruct sw as [s w].
  pose proof (SaveState_savedAs s w) as Hs.
  destruct (SaveState cfg (s, w)) as [e sw']. cbn [fst snd] in *.
  apply wp_ret. intros He. apply Hs. by apply Hinj.
Qed.

Lemma awaitTurn_saved sw :
  wp (awaitTurn cfg)
     (fun r sw' => r = Some None -> savedAs cfg sw') sw.
Proof.
  destruct sw as [s w]. unfold awaitTurn.
  apply wp_bind, wp_lift. intros c w1 _.
  destruct c; [apply (save_and_return_saved Some); by intros e [= ->]|].
  apply wp_bind, wp_state, wp_bind.
  apply (wp_mono _ (fun _ _ => True)); [done|]. intros wait [s2 w2] _.
  destruct (fst wait); [|by apply wp_ret].
  apply wp_bind. apply (wp_mono _ (fun _ _ => True)); [done|].
  intros sv [s3 w3] _. destruct sv; [by apply wp_ret|].
  apply wp_bind, wp_lift. intros c w4 _.
  destruct c; [apply (save_and_return_saved Some); by intros e [= ->]|].
  apply wp_bind, wp_lift. intros u w5 _. by apply wp_ret.
Qed.

Lemma saveAndContinue_saved sw :
  wp (saveAndContinue cfg)
     (fun st sw' => st = Return None -> savedAs cfg sw') sw.
Proof.
  unfold saveAndContinue. apply wp_bind.
  apply (wp_mono _ (fun _ _ => True)); [done|].
  intros [e|] sw' _; by apply wp_ret.
Qed.

Lemma improve_saved sw :
  wp (improve analyzer cfg)
     (fun st sw' => st = Return None -> savedAs cfg sw') sw.
Proof.
  destruct sw as [s w]. unfold improve.
  apply wp_bind, wp_update, wp_bind, wp_lift. intros cov w1 _.
  destruct cov as [report|err]; [|by apply wp_ret].
  apply wp_bind, wp_lift. intros now w2 _.
  apply wp_bind, wp_update.
  destruct (PrimFloat.leb _ _);
    [apply (save_and_return_saved Return); by intros e [= ->]|].
  apply wp_bind, wp_gets.
  destruct (prioritizeWorkItems _ _ _ _) as [|item rest];
    [apply (save_and_return_saved Return); by intros e [= ->]|].
  apply wp_bind. apply (wp_mono _ (fun _ _ => True)); [done|].
  intros perr [s3 w3] _.
  destruct perr as [err|]; [|apply saveAndContinue_saved].
  destruct (asRateLimitError err) as [[resetTime ?]|];
    apply wp_bind, wp_update, saveAndContinue_saved.
Qed.

Lemma mainLoop_saved fuel : forall sw,
  wp (mainLoop analyzer cfg fuel)
     (fun r sw' => r = Finished None -> savedAs cfg sw') sw.
Proof.
  induction fuel as [|fuel IH]; intros [s w]; cbn [mainLoop];
    apply wp_bind, wp_state; destruct (_ <? _).
  - by apply wp_ret.
  - apply (save_and_return_saved Finished). by intros e [= ->].
  - apply wp_bind. unfold iteration. apply wp_bind.
    eapply wp_mono; [apply awaitTurn_saved|].
    intros [e|] sw1 H1.
    + apply wp_ret, wp_ret. intros [= ->]. by apply H1.
    + eapply wp_mono; [apply improve_saved|].
      intros [|e] sw2 H2; [apply IH|].
      apply wp_ret. intros [= ->]. by apply H2.
  - apply (save_and_return_saved Finished). by intros e [= ->].
Qed.

Lemma Run_saved sw :
  wp (Run analyzer cfg)
     (fun r sw' => r = Finished None -> savedAs cfg sw') sw.
Proof.
  destruct sw as [s w]. unfold Run. apply wp_bind.
  assert (wp (analyseFirst cfg)
            (fun r sw' => r = Some None -> savedAs cfg sw') (s, w)) as Hfirst.
  { unfold analyseFirst. apply wp_bind, wp_lift. intros cov w1 _.
    destruct cov as [report|err]; [|by apply wp_ret].
    apply wp_bind, wp_lift. intros now w2 _.
    apply wp_bind, wp_update.
    destruct (PrimFloat.ltb _ _);
      [|apply (save_and_return_saved Some); by intros e [= ->]].
    apply wp_bind, wp_state.
    destruct (negb _); [|by apply wp_ret].
    apply (save_and_return_saved Some). by intros e [= ->]. }
  eapply wp_mono; [exact Hfirst|].
  intros [e|] [s1 w1] H1.
  - apply wp_ret. intros [= ->]. by apply H1.
  - apply wp_bind, wp_state, mainLoop_saved.
Qed.

(** X6.  When [Run] returns nil, the state file holds the state [Run] ends
    with; and when [main] (without [-resume]) ends, after its own
    [SaveState] on an error of [Run], the state file holds the final state
    if only no file operation failed and the state can be marshalled (no
    coverage value in it is NaN or infinite).  The document decodes to that
    state. *)
Theorem state_file_holds_the_final_state (w : World) :
  (forall s,
     fst (Run analyzer cfg (s, w)) = Finished None ->
     exists doc,
       state_files (snd (snd (Run analyzer cfg (s, w)))) !! Cfg.StateFile cfg
       = Some doc
       /\ Json.unmarshal_state doc = Some (fst (snd (Run analyzer cfg (s, w)))))
  /\ ((forall i, io_out w i = None) ->
      is_Some (Json.marshal_state (snd (fst (main analyzer cfg false w)))) ->
      exists doc,
        state_files (snd (main analyzer cfg false w)) !! Cfg.StateFile cfg
        = Some doc
        /\ Json.unmarshal_state doc
           = Some (snd (fst (main analyzer cfg false w)))).
Proof.
  split.
  - intros s Hr. pose proof (Run_saved (s, w)) as Hs. unfold wp in Hs.
    destruct (Hs Hr) as (doc & Hfile & Hdoc).
    exists doc. split; [done|]. by apply unmarshal_marshal_state.
  - intros Hio.
    destruct (main analyzer cfg false w) as [[r s'] w'] eqn:Hmain.
    cbn [fst snd]. intros Hfin.
    assert (savedAs cfg (s', w')) as (doc & Hf & Hd).
    2:{ exists doc. split; [done|]. by apply unmarshal_marshal_state. }
    unfold main in Hmain. unfold bind at 1 in Hmain.
    destruct (New analyzer cfg w) as [s0 w0] eqn:Hnew.
    assert (later w w0) as Hl0
      by exact (respects_run later _ _ _ _ New_later Hnew).
    cbn [ret fst snd] in Hmain.
    pose proof (Run_saved (s0, w0)) as Hs. unfold wp in Hs.
    pose proof (Run_advances analyzer cfg s0 w0) as Hadv. unfold wp in Hadv.
    destruct (Run_returns analyzer cfg s0 w0) as [e0 He0].
    destruct (Run analyzer cfg (s0, w0)) as [r0 [s2 w2]]. cbn [fst snd] in *.
    subst r0. destruct e0 as [err|].
    2:{ injection Hmain as <- <- <-. by apply Hs. }
    pose proof (SaveState_savedAs s2 w2) as Hsaved.
    pose proof (SaveState_result s2 w2) as Hres.
    assert (is_Some (Json.marshal_state
                       (fst (snd (SaveState cfg (s2, w2)))))
            <-> is_Some (Json.marshal_state s2)) as Hstamp.
    { destruct (SaveState cfg (s2, w2)) as [e [s3 w3]] eqn:E.
      apply SaveState_run in E as (-> & _). apply marshal_state_stamp. }
    destruct (SaveState cfg (s2, w2)) as [e [s3 w3]]. cbn [fst snd] in *.
    injection Hmain as <- <- <-.
    apply Hsaved, Hres. split; [by apply Hstamp|].
    pose proof (later_io _ _ (adv_later _ _ Hadv)) as Hio2.
    cbn [snd] in Hio2. rewrite Hio2, (later_io _ _ Hl0). apply Hio.
Qed.
End AtExit.

(** ** Every pass classifies its unit *)

Section Progress.
Context `{GoLibrary} (analyzer : Analyzer) (cfg : Config).

(** What [processFile] leaves of the ledgers and of the validations, for a
    unit [u], from [s] and [w]: [u] is processed, in a dry run or after a
    last validation that passed, or the ledgers are as before and the
    error or the message of the failure is given. *)
Definition classifies (u : string) (s : State) (w : World)
    (r : option error) (s' : State) (w' : World) : Prop :=
  match r with
  | None =>
      (ProcessedFiles s' = <[u := true]> (ProcessedFiles s)
       /\ FailedFiles s' = FailedFiles s
       /\ (Cfg.DryRun cfg = true
           \/ (validations w < validations w')%nat
              /\ exists res,
                   verdict (validate_out w (validations w' - 1)%nat) = inl res
                   /\ Success res = true))
      \/ (ProcessedFiles s' = ProcessedFiles s
          /\ exists msg, FailedFiles s' = <[u := msg]> (FailedFiles s))
  | Some _ =>
      ProcessedFiles s' = ProcessedFiles s /\ FailedFiles s' = FailedFiles s
  end.

Lemma processFile_classifies item s w :
  let res := processFile analyzer cfg item (s, w) in
  classifies (WI.SourceFile item) s w (fst res) (fst (snd res)) (snd (snd res))
  /\ validate_out (snd (snd res)) = validate_out w.
Proof.
  intros res. subst res.
  pose proof (processFile_spec analyzer cfg item s w) as Hspec.
  unfold wp in Hspec. destruct Hspec as (Hlater & _ & Hspec).
  split; [|apply (later_validate _ _ Hlater)].
  destruct (ctx_done w (polls w)) eqn:Hctx.
  { rewrite processFile_cancelled by done. by split. }
  rewrite processFile_live in * by done. cbv zeta in *.
  destruct (Done_world w) as (_ & Hv1 & _ & _).
  assert (later w (snd (Sys.Done w))) as Hl1 by apply Done_later.
  set (w1 := snd (Sys.Done w)) in *.
  destruct (obtainTest analyzer cfg item (s, w1)) as [made [s2 w2]] eqn:Hobt.
  pose proof (wp_run _ _ _ _ _ Hobt (obtainTest_spec analyzer cfg item s w1))
    as (Hl2 & _ & Hp2 & Hf2 & _).
  pose proof (respects_run _ _ _ _ _ (obtainTest_aside analyzer cfg item) Hobt)
    as [Hv2 _].
  cbn [fst snd] in *.
  destruct made as [t|err]; [|by split].
  destruct (Cfg.DryRun cfg) eqn:Hdry.
  { unfold checkAndRecord. rewrite Hdry. cbn [negb].
    unfold bind, update, modify, ret. cbn [fst snd].
    left. rewrite <- Hp2, <- Hf2. split; [by destruct s2|].
    split; [by destruct s2|]. by left. }
  rewrite checkAndRecord_live by done. cbv zeta.
  destruct (ValidateAndRetry t 2 w2) as [v w3] eqn:E. cbn [fst snd].
  unfold ValidateAndRetry in E.
  apply retryLadder_spec in E as (_ & Hv3 & _ & _ & Hlast & _).
  destruct v as [r|p err]; [|by split].
  specialize (Hlast r eq_refl).
  rewrite (later_validate _ _ Hl2), (later_validate _ _ Hl1) in Hlast.
  destruct (Success r) eqn:Hs; cbn [fst snd].
  - left. rewrite <- Hp2, <- Hf2. split; [by destruct s2|].
    split; [by destruct s2|]. right. split; [lia|]. by exists r.
  - right. rewrite <- Hp2, <- Hf2. split; [by destruct s2|].
    exists (ErrorMessage r). by destruct s2.
Qed.

(** The ledgers after a pass that [processFile] found cancelled. *)
Lemma pass_cancelled s w report item rest :
  coverage_out w (measurements w) = inl report ->
  PrimFloat.leb (Cfg.TargetCoverage cfg) (Cov.TotalCoverage report) = false ->
  prioritizeWorkItems analyzer report s (files w) = item :: rest ->
  ctx_done w (polls w) = true ->
  ProcessedFiles (fst (snd (improve analyzer cfg (s, w)))) = ProcessedFiles s
  /\ FailedFiles (fst (snd (improve analyzer cfg (s, w))))
     = <[WI.SourceFile item := "context canceled"]> (FailedFiles s).
Proof.
  intros Hcov Hleb Hprio Hctx.
  pose proof (improve_unfold analyzer cfg s w report Hcov) as Himp.
  rewrite Hleb, Hprio in Himp.
  destruct (measured s w report) as [s1 w1] eqn:Hm.
  pose proof (measured_world s w report) as Hw. rewrite Hm in Hw.
  pose proof (measured_ledgers s w report) as Hl. rewrite Hm in Hl.
  cbn [fst snd] in Hw, Hl.
  destruct Hw as (Hlater & _ & _ & _ & Hpl & _).
  destruct Hl as (Hp1 & Hf1 & _).
  rewrite processFile_cancelled in Himp
    by (by rewrite (later_ctx _ _ Hlater), Hpl).
  unfold recorded in Himp. cbn [fst snd asRateLimitError contextCanceled] in Himp.
  rewrite Himp.
  destruct (saveAndContinue cfg _) as [st [s' w']] eqn:Hsave. cbn [fst snd].
  apply saveAndContinue_run in Hsave as (-> & _).
  set (s2 := MarkFileFailed (WI.SourceFile item) _ s1) in *.
  destruct (stamped_fields s2 (snd (Sys.Done w1))) as (Hp & Hf & _).
  rewrite Hp, Hf, <- Hp1, <- Hf1. unfold s2. by destruct s1.
Qed.

(** The ledgers after a pass of a dry run that was not cancelled. *)
Lemma pass_dry s w report item rest :
  coverage_out w (measurements w) = inl report ->
  PrimFloat.leb (Cfg.TargetCoverage cfg) (Cov.TotalCoverage report) = false ->
  prioritizeWorkItems analyzer report s (files w) = item :: rest ->
  ctx_done w (polls w) = false ->
  Cfg.DryRun cfg = true ->
  ProcessedFiles (fst (snd (improve analyzer cfg (s, w))))
  = <[WI.SourceFile item := true]> (ProcessedFiles s)
  /\ FailedFiles (fst (snd (improve analyzer cfg (s, w)))) = FailedFiles s.
Proof.
  intros Hcov Hleb Hprio Hctx Hdry.
  pose proof (improve_unfold analyzer cfg s w report Hcov) as Himp.
  rewrite Hleb, Hprio in Himp.
  destruct (measured s w report) as [s1 w1] eqn:Hm.
  pose proof (measured_world s w report) as Hw. rewrite Hm in Hw.
  pose proof (measured_ledgers s w report) as Hl. rewrite Hm in Hl.
  cbn [fst snd] in Hw, Hl.
  destruct Hw as (Hlater & _ & _ & _ & Hpl & _).
  destruct Hl as (Hp1 & Hf1 & _).
  rewrite (processFile_dry analyzer cfg) in Himp
    by (done || by rewrite (later_ctx _ _ Hlater), Hpl).
  unfold recorded in Himp. cbn [fst snd] in Himp.
  rewrite Himp.
  destruct (saveAndContinue cfg _) as [st [s' w']] eqn:Hsave. cbn [fst snd].
  apply saveAndContinue_run in Hsave as (-> & _).
  set (s2 := MarkFileProcessed (WI.SourceFile item) s1) in *.
  destruct (stamped_fields s2 (snd (Sys.Done w1))) as (Hp & Hf & _).
  rewrite Hp, Hf, <- Hp1, <- Hf1. unfold s2. by destruct s1.
Qed.

(** X7.  A pass below the target with a work item puts the unit of the first
    item, and no other, into one of the two ledgers, whatever the world
    answers; [processFile] never leaves a unit for a later pass.  The unit
    gets into [ProcessedFiles] only when [processFile] did not find the
    context cancelled and the run is a dry run or the last validation of
    the pass passed; otherwise it gets into [FailedFiles].  A cancellation
    that [processFile] finds puts the unit into [FailedFiles], in a dry
    run too; a dry run that is not cancelled puts it into
    [ProcessedFiles]. *)
Theorem pass_classifies_its_unit (s : State) (w : World)
    (report : CoverageReport) (item : WorkItem) (rest : list WorkItem) :
  coverage_out w (measurements w) = inl report ->
  PrimFloat.leb (Cfg.TargetCoverage cfg) (Cov.TotalCoverage report) = false ->
  prioritizeWorkItems analyzer report s (files w) = item :: rest ->
  exists st s' w',
    improve analyzer cfg (s, w) = (st, (s', w'))
    /\ unclassified s (WI.SourceFile item)
    /\ ((ProcessedFiles s' = <[WI.SourceFile item := true]> (ProcessedFiles s)
         /\ FailedFiles s' = FailedFiles s
         /\ ctx_done w (polls w) = false
         /\ (Cfg.DryRun cfg = true
             \/ (validations w < validations w')%nat
                /\ exists res,
                     verdict (validate_out w (validations w' - 1)%nat) = inl res
                     /\ Success res = true))
        \/ (ProcessedFiles s' = ProcessedFiles s
            /\ exists msg,
                 FailedFiles s' = <[WI.SourceFile item := msg]> (FailedFiles s)))
    /\ (ctx_done w (polls w) = true ->
        ProcessedFiles s' = ProcessedFiles s
        /\ FailedFiles s'
           = <[WI.SourceFile item := "context canceled"]> (FailedFiles s))
    /\ (ctx_done w (polls w) = false -> Cfg.DryRun cfg = true ->
        ProcessedFiles s' = <[WI.SourceFile item := true]> (ProcessedFiles s)
        /\ FailedFiles s' = FailedFiles s).
Proof.
  intros Hcov Hleb Hprio.
  pose proof (pass_cancelled s w report item rest Hcov Hleb Hprio) as Hcancel.
  pose proof (pass_dry s w report item rest Hcov Hleb Hprio) as Hdry.
  pose proof (improve_unfold analyzer cfg s w report Hcov) as Himp.
  rewrite Hleb, Hprio in Himp.
  destruct (improve analyzer cfg (s, w)) as [st [s' w']].
  cbn [fst snd] in Hcancel, Hdry.
  exists st, s', w'. split; [done|].
  split; [by eapply unclassified_head|].
  split; [|by split].
  destruct (measured s w report) as [s1 w1] eqn:Hm.
  pose proof (measured_world s w report) as Hw. rewrite Hm in Hw.
  pose proof (measured_ledgers s w report) as Hl. rewrite Hm in Hl.
  cbn [fst snd] in Hw, Hl.
  destruct Hw as (Hlater & _ & Hvs & _).
  destruct Hl as (Hp1 & Hf1 & _).
  destruct (processFile_classifies item s1 w1) as [Hc Hout].
  pose proof (processFile_spec analyzer cfg item s1 w1) as Hspec.
  unfold wp in Hspec. destruct Hspec as (_ & _ & Hspec).
  destruct (processFile analyzer cfg item (s1, w1)) as [perr [s2 w2]].
  cbn [fst snd] in *. unfold recorded in Himp. cbn [fst snd] in Himp.
  assert (forall s3, saveAndContinue cfg (s3, w2) = (st, (s', w')) ->
            ProcessedFiles s' = ProcessedFiles s3
            /\ FailedFiles s' = FailedFiles s3
            /\ validations w' = validations w2) as Hsave.
  { intros s3 E.
    apply saveAndContinue_run in E as (-> & _ & _ & Hv' & _).
    destruct (stamped_fields s3 w2) as (Hp & Hf & _). done. }
  destruct perr as [err|].
  - destruct Hc as [Hp2 Hf2]. destruct Hspec as (Hbare & _). right.
    rewrite Hbare in Himp.
    symmetry in Himp. apply Hsave in Himp as (Hp & Hf & _).
    split; [rewrite Hp, <- Hp1, <- Hp2; by destruct s2|].
    exists (Error err). rewrite Hf, <- Hf1, <- Hf2. by destruct s2.
  - symmetry in Himp. apply Hsave in Himp as (Hp & Hf & Hv).
    rewrite Hp, Hf, Hv, <- Hp1, <- Hf1.
    destruct Hc as [(Hp2 & Hf2 & Hhow)|Hfail]; [left|by right].
    split; [done|]. split; [done|].
    split.
    { destruct (ctx_done w (polls w)) eqn:Hctx; [|done].
      destruct (Hcancel eq_refl) as [Hpc _].
      assert (ProcessedFiles s !! WI.SourceFile item = Some true) as Hin.
      { rewrite <- Hpc, Hp, Hp2. apply lookup_insert_eq. }
      destruct (unclassified_head analyzer report s (files w) item rest Hprio)
        as [Hun _].
      unfold IsFileProcessed in Hun. by rewrite Hin in Hun. }
    destruct Hhow as [?|(Hlt & res & Hres & Hok)]; [by left|right].
    split; [lia|]. exists res.
    by rewrite <- (later_validate _ _ Hlater).
Qed.
End Progress.

(** The first pass of the scenario validates the test it got for [a.go]
    and puts the unit into [ProcessedFiles]; the first pass of the dry run
    does so without a validation; and the first pass of the session that
    is cancelled from its start puts it into [FailedFiles]. *)
Lemma first_pass_classifies_a_go :
  (coverage_out scenarioWorld (measurements scenarioWorld)
   = inl (reportAt 65%float)
   /\ PrimFloat.leb (Cfg.TargetCoverage cfg80) 65%float = false)
  /\ (exists st s' w',
        improve GoAnalyzer cfg80 (New GoAnalyzer cfg80 scenarioWorld)
        = (st, (s', w'))
        /\ ProcessedFiles s' !! "a.go" = Some true
        /\ FailedFiles s' = ∅
        /\ validations w' = 1%nat)
  /\ (exists st s' w',
        improve GoAnalyzer dryCfg dryStart = (st, (s', w'))
        /\ ProcessedFiles s' !! "a.go" = Some true
        /\ FailedFiles s' = ∅
        /\ validations w' = 0%nat)
  /\ (exists st s' w',
        improve GoAnalyzer dryCfg (New GoAnalyzer dryCfg cancelledWorld)
        = (st, (s', w'))
        /\ ProcessedFiles s' = ∅
        /\ FailedFiles s' !! "a.go" = Some "context canceled").
Proof.
  split; [split; reflexivity|].
  split; [|split].
  - assert (prioritizeWorkItems GoAnalyzer (reportAt 65%float)
              (fst (New GoAnalyzer cfg80 scenarioWorld))
              (files (snd (New GoAnalyzer cfg80 scenarioWorld)))
            = dryItem
              :: [WI.mkWorkItem "b.go" "b_test.go" 20%float [7] 80 false;
                  WI.mkWorkItem "c.go" "c_test.go" 30%float [1; 2; 9] 70 false])
      as Hprio by (vm_compute; reflexivity).
    destruct (pass_classifies_its_unit GoAnalyzer cfg80
                (fst (New GoAnalyzer cfg80 scenarioWorld))
                (snd (New GoAnalyzer cfg80 scenarioWorld))
                (reportAt 65%float) dryItem _ eq_refl eq_refl Hprio)
      as (st & s' & w' & Himp & _ & Hcase & _).
    rewrite <- surjective_pairing in Himp.
    assert (FailedFiles
              (fst (snd (improve GoAnalyzer cfg80
                           (New GoAnalyzer cfg80 scenarioWorld)))) = ∅
            /\ validations
                 (snd (snd (improve GoAnalyzer cfg80
                              (New GoAnalyzer cfg80 scenarioWorld)))) = 1%nat)
      as [Hnone Hone] by (split; vm_compute; reflexivity).
    rewrite Himp in Hnone, Hone. cbn [fst snd] in Hnone, Hone.
    exists st, s', w'. split; [exact Himp|].
    destruct Hcase as [(Hp & _)|(_ & msg & Hf)].
    + split; [rewrite Hp; apply lookup_insert_eq|]. by split.
    + rewrite Hnone in Hf.
      apply (f_equal (fun m => m !! "a.go")) in Hf.
      rewrite lookup_insert_eq in Hf. discriminate Hf.
  - assert (prioritizeWorkItems GoAnalyzer (reportAt 65%float)
              (fst dryStart) (files (snd dryStart))
            = dryItem
              :: [WI.mkWorkItem "b.go" "b_test.go" 20%float [7] 80 false;
                  WI.mkWorkItem "c.go" "c_test.go" 30%float [1; 2; 9] 70 false])
      as Hprio by (vm_compute; reflexivity).
    destruct (pass_classifies_its_unit GoAnalyzer dryCfg
                (fst dryStart) (snd dryStart)
                (reportAt 65%float) dryItem _ eq_refl eq_refl Hprio)
      as (st & s' & w' & Himp & _ & _ & _ & Hdry).
    rewrite <- surjective_pairing in Himp.
    destruct (Hdry eq_refl eq_refl) as [Hp Hf].
    assert (validations (snd (snd (improve GoAnalyzer dryCfg dryStart))) = 0%nat)
      as Hzero by (vm_compute; reflexivity).
    rewrite Himp in Hzero. cbn [fst snd] in Hzero.
    exists st, s', w'. split; [exact Himp|].
    split; [rewrite Hp; apply lookup_insert_eq|]. by split.
  - assert (prioritizeWorkItems GoAnalyzer (reportAt 65%float)
              (fst (New GoAnalyzer dryCfg cancelledWorld))
              (files (snd (New GoAnalyzer dryCfg cancelledWorld)))
            = dryItem
              :: [WI.mkWorkItem "b.go" "b_test.go" 20%float [7] 80 false;
                  WI.mkWorkItem "c.go" "c_test.go" 30%float [1; 2; 9] 70 false])
      as Hprio by (vm_compute; reflexivity).
    destruct (pass_classifies_its_unit GoAnalyzer dryCfg
                (fst (New GoAnalyzer dryCfg cancelledWorld))
                (snd (New GoAnalyzer dryCfg cancelledWorld))
                (reportAt 65%float) dryItem _ eq_refl eq_refl Hprio)
      as (st & s' & w' & Himp & _ & _ & Hcancel & _).
    rewrite <- surjective_pairing in Himp.
    destruct (Hcancel eq_refl) as [Hp Hf].
    exists st, s', w'. split; [exact Himp|].
    split; [exact Hp|]. rewrite Hf. apply lookup_insert_eq.
Defined.

(** ** Waiting for a rate limit to reset *)

Section Waiting.
Context `{GoLibrary} (analyzer : Analyzer) (cfg : Config).

(** The world after the look at the cancellation signal and the reading of
    the clock with which a pass begins. *)
Definition looked (w : World) : World := snd (Sys.Now (snd (Sys.Done w))).

Lemma looked_fields w :
  clock (looked w) = clock w /\ ticks (looked w) = S (ticks w)
  /\ ctx_done (looked w) = ctx_done w /\ polls (looked w) = S (polls w)
  /\ io_out (looked w) = io_out w /\ io_ops (looked w) = io_ops w
  /\ requests (looked w) = requests w /\ trace (looked w) = trace w
  /\ measurements (looked w) = measurements w.
Proof. by destruct w. Qed.

Lemma awaitTurn_no_deadline s w :
  ctx_done w (polls w) = false ->
  IsZero (RateLimitResetTime s) = true ->
  awaitTurn cfg (s, w) = (None, (s, snd (Sys.Done w))).
Proof.
  intros Hctx Hzero. unfold awaitTurn.
  unfold bind at 1. unfold lift at 1.
  destruct w as [clk tk cd pl cvo ms ho rq vo vs ioo iop fl sf tr].
  cbn [ctx_done polls] in Hctx. cbn [Sys.Done fst snd]. rewrite Hctx.
  unfold bind at 1. unfold state at 1, gets at 1. cbn [fst snd].
  rewrite Hzero. unfold bind at 1. cbn [ret fst snd]. done.
Qed.

Lemma awaitTurn_deadline s w :
  ctx_done w (polls w) = false ->
  IsZero (RateLimitResetTime s) = false ->
  awaitTurn cfg (s, w)
  = if Before (clock w (ticks w)) (RateLimitResetTime s)
    then match SaveState cfg (s, looked w) with
         | (Some err, sw1) =>
             (Some (Some (wrapError "failed to save state" err)), sw1)
         | (None, (s1, w1)) =>
             if ctx_done w1 (polls w1)
             then (Some (fst (SaveState cfg (s1, snd (Sys.Done w1)))),
                   snd (SaveState cfg (s1, snd (Sys.Done w1))))
             else (None,
                   (s1, snd (Sys.Sleep
                               (Sub (RateLimitResetTime s) (clock w (ticks w)))
                               (snd (Sys.Done w1)))))
         end
    else (None, (s, looked w)).
Proof.
  intros Hctx Hzero. unfold awaitTurn, looked.
  unfold bind at 1. unfold lift at 1.
  destruct w as [clk tk cd pl cvo ms ho rq vo vs ioo iop fl sf tr].
  cbn [ctx_done polls] in Hctx. cbn [Sys.Done fst snd]. rewrite Hctx.
  unfold bind at 1. unfold state at 1, gets at 1. cbn [fst snd].
  rewrite Hzero. unfold bind at 1 2. unfold lift at 1.
  cbn [Sys.Now fst snd ret clock ticks].
  unfold ShouldWaitForRateLimit. rewrite Hzero.
  destruct (Before (clk tk) (RateLimitResetTime s)); cbn [fst snd]; [|done].
  unfold bind at 1.
  destruct (SaveState cfg _) as [[err|] [s1 w1]]; [done|].
  unfold bind at 1. unfold lift at 1.
  destruct w1 as [clk1 tk1 cd1 pl1 cvo1 ms1 ho1 rq1 vo1 vs1 ioo1 iop1 fl1 sf1 tr1].
  cbn [Sys.Done fst snd ctx_done polls].
  destruct (cd1 pl1).
  - unfold bind at 1. by destruct (SaveState cfg _) as [e sw'].
  - unfold bind at 1. unfold lift at 1. cbn [fst snd].
    by destruct (Sys.Sleep _ _).
Qed.

(** X8.  A pass that begins with a reset time ahead (a state loaded with one,
    since [Run] sets none): the state is saved first, then the pass sleeps
    for what is left until the reset time, and only then goes on to
    measure; no request is sent meanwhile.  With no reset time the clock is
    not even read, and with one that has passed there is no wait.  (The
    wait is taken to fit a [Duration].) *)
Theorem pass_waits_until_the_reset_time (s : State) (w : World) :
  ctx_done w (polls w) = false ->
  let now := clock w (ticks w) in
  let reset := RateLimitResetTime s in
  (reset = 0 ->
   awaitTurn cfg (s, w) = (None, (s, snd (Sys.Done w)))
   /\ ticks (snd (Sys.Done w)) = ticks w)
  /\ (reset <> 0 -> reset <= now ->
      awaitTurn cfg (s, w) = (None, (s, looked w))
      /\ sleeps (looked w) = sleeps w)
  /\ (reset <> 0 -> now < reset -> reset - now < 2 ^ 63 ->
      fst (SaveState cfg (s, looked w)) = None ->
      ctx_done w (S (polls w)) = false ->
      exists s' w' doc,
        awaitTurn cfg (s, w) = (None, (s', w'))
        /\ s' = set_LastUpdatedAt (clock w (S (ticks w))) s
        /\ trace w'
           = EvSleep (reset - now) :: EvSaveState (Cfg.StateFile cfg) doc
               :: trace w
        /\ Json.unmarshal_state doc = Some s'
        /\ now + (reset - now) = reset
        /\ requests w' = requests w
        /\ measurements w' = measurements w).
Proof.
  intros Hctx now reset. subst now reset.
  destruct (looked_fields w) as (Hc & Ht & Hcd & Hpl & Hio & Hiop & Hr & Htr & Hm).
  split; [|split].
  - intros Hz. split; [|by destruct w].
    apply awaitTurn_no_deadline; [done|]. unfold IsZero. by rewrite Hz.
  - intros Hnz Hpast.
    assert (IsZero (RateLimitResetTime s) = false) as Hzero
      by (unfold IsZero; lia).
    rewrite awaitTurn_deadline by done.
    unfold Before. destruct (Z.ltb_spec (clock w (ticks w)) (RateLimitResetTime s));
      [lia|]. split; [done|]. unfold sleeps. by rewrite Htr.
  - intros Hnz Hahead _ Hsave Hgo.
    assert (IsZero (RateLimitResetTime s) = false) as Hzero
      by (unfold IsZero; lia).
    rewrite awaitTurn_deadline by done.
    unfold Before. destruct (Z.ltb_spec (clock w (ticks w)) (RateLimitResetTime s));
      [|lia].
    destruct (SaveState cfg (s, looked w)) as [e [s1 w1]] eqn:E.
    cbn [fst] in Hsave. subst e.
    apply SaveState_run in E as (-> & Hl1 & Hr1 & _ & _ & Hm1 & Hpl1 & Hdoc).
    destruct Hdoc as (doc & Hdoc & _ & _ & Htr1).
    rewrite (later_ctx _ _ Hl1), Hcd, Hpl1, Hpl, Hgo.
    eexists _, _, doc. split; [reflexivity|].
    rewrite Hc, Ht in *. split; [done|].
    split.
    { unfold Sub. destruct w1. cbn in *. by rewrite Htr1, Htr. }
    split; [by apply unmarshal_marshal_state|]. split; [lia|].
    split; destruct w1; cbn in *; congruence.
Qed.
End Waiting.

(** A state loaded with a reset time 998 seconds ahead of the clock. *)
Definition throttledBefore : State * World :=
  let sw := New GoAnalyzer cfg80 dryWorld in
  (SetRateLimitReset (2000 * Second) (fst sw), snd sw).

Lemma waits_998_seconds :
  ctx_done (snd throttledBefore) (polls (snd throttledBefore)) = false
  /\ exists s' w',
       awaitTurn cfg80 throttledBefore = (None, (s', w'))
       /\ sleeps w' = [998 * Second]
       /\ requests w' = 0%nat
       /\ is_Some (state_files w' !! "state.json").
Proof.
  split; [reflexivity|].
  destruct (pass_waits_until_the_reset_time cfg80
              (fst throttledBefore) (snd throttledBefore) eq_refl)
    as (_ & _ & Hwait).
  destruct Hwait as (s' & w' & doc & Hrun & _ & Htr & _ & _ & Hr & _);
    [vm_compute; discriminate|reflexivity|reflexivity
    |vm_compute; reflexivity|reflexivity|].
  exists s', w'. rewrite <- surjective_pairing in Hrun.
  split; [exact Hrun|].
  split; [unfold sleeps; rewrite Htr; vm_compute; reflexivity|].
  split; [exact Hr|].
  apply (f_equal (fun r => state_files (snd (snd r)) !! "state.json")) in Hrun.
  cbn [fst snd] in Hrun. rewrite <- Hrun. vm_compute. by eexists.
Defined.

(** ** Replies the client accepts *)

Section ClientReplies.
Context `{GoLibrary}.

(** A reply with status 200 and a body that decodes. *)
Lemma makeRequest_decoded w h body content :
  http_out w (requests w) = HttpResponse 200 h body ->
  parsed body = inl content ->
  exists w', makeRequest w = (inl content, w')
    /\ requests w' = S (requests w) /\ sleeps w' = sleeps w.
Proof.
  destruct w; intros Hout Hbody; unfold makeRequest, sleeps; run.
  rewrite Hout. simpl. rewrite Hbody. simpl.
  eexists. split; [done|]. simpl.
  by rewrite reverse_cons, omap_app, app_nil_r.
Qed.

(** What [SendMessage] makes of the content of an accepted reply. *)
Definition firstText (content : list string) : string + error :=
  match content with
  | text :: _ => inl text
  | [] => inr (errorString "empty response from Claude API")
  end.

Lemma sendAttempts_decoded k : forall n attempt last w h body content,
  (k < n)%nat ->
  (forall i, (i < k)%nat -> isFailure (http_out w (requests w + i)%nat)) ->
  http_out w (requests w + k)%nat = HttpResponse 200 h body ->
  parsed body = inl content ->
  exists w',
    sendAttempts n attempt last w = (firstText content, w')
    /\ requests w' = (requests w + k + 1)%nat
    /\ sleeps w' = sleeps w ++ backoffs attempt k.
Proof.
  induction k as [|k IH]; intros n attempt last w h body content Hk Hfail Hout Hb;
    (destruct n as [|n]; [lia|]); rewrite sendAttempts_step;
    destruct (pause_frame attempt w) as (Hr & Hh & Hc & Ht & Hs).
  - rewrite Nat.add_0_r in Hout.
    destruct (makeRequest_decoded (pause attempt w) h body content)
      as (w' & -> & Hr' & Hs'); [by rewrite Hh, Hr|done|].
    exists w'. split; [by destruct content|]. split; [lia|].
    by rewrite Hs', Hs.
  - destruct (makeRequest_failure (pause attempt w)) as (err & -> & ->).
    { rewrite Hh, Hr. specialize (Hfail O). rewrite Nat.add_0_r in Hfail.
      apply Hfail. lia. }
    destruct (sent_frame (pause attempt w)) as (Hr' & Hh' & Hc' & Ht').
    destruct (IH n (attempt + 1) (Some err) (sent (pause attempt w))
                h body content) as (w' & -> & Hreq & Hsl).
    + lia.
    + intros i Hi. rewrite Hh', Hr', Hh, Hr.
      replace (S (requests w) + i)%nat with (requests w + S i)%nat by lia.
      apply Hfail. lia.
    + rewrite Hh', Hr', Hh, Hr.
      by replace (S (requests w) + k)%nat with (requests w + S k)%nat by lia.
    + done.
    + exists w'. split; [done|]. split; [lia|].
      rewrite Hsl, sleeps_sent, Hs. simpl. by rewrite app_assoc.
Qed.

(** X9.  [SendMessage] and a reply it accepts.  The first reply with status 200
    and a body that decodes, after [k < 3] failed requests, ends
    [SendMessage]: with the text of its first content block, or, when it
    has no content block, with the error "empty response from Claude API",
    which is not retried.  [k + 1] requests were sent, after waits of 2 and
    4 seconds before the second and the third. *)
Theorem SendMessage_accepts_first_decoded_reply (w : World) (k : nat)
    (h : string) (body : Body) (content : list string) :
  (k < 3)%nat ->
  (forall i, (i < k)%nat -> isFailure (http_out w (requests w + i)%nat)) ->
  http_out w (requests w + k)%nat = HttpResponse 200 h body ->
  parsed body = inl content ->
  exists w',
    SendMessage w
    = (match content with
       | text :: _ => inl text
       | [] => inr (errorString "empty response from Claude API")
       end, w')
    /\ requests w' = (requests w + k + 1)%nat
    /\ sleeps w' = sleeps w ++ take k [2 * Second; 4 * Second].
Proof.
  intros Hk Hfail Hout Hbody. unfold SendMessage.
  destruct (sendAttempts_decoded k (Z.to_nat RetryMaxAttempts) 0 None w
              h body content) as (w' & Hrun & Hreq & Hsl); [done..|].
  exists w'. split; [exact Hrun|]. split; [done|].
  rewrite Hsl. f_equal. destruct k as [|[|[|k]]]; [done..|lia].
Qed.
End ClientReplies.

(** The backend fails once, then answers with two content blocks. *)
Definition secondTry : World :=
  with_http
    (answers [SendFailed (errorString "connection reset");
              HttpResponse 200 "" (mkBody "" (inl ["package a"; "ignored"]))]
             okReply)
    quietWorld.

Lemma second_reply_is_accepted :
  ((1 < 3)%nat
   /\ http_out secondTry (requests secondTry + 1)%nat
      = HttpResponse 200 "" (mkBody "" (inl ["package a"; "ignored"])))
  /\ exists w',
       SendMessage secondTry = (inl "package a", w')
       /\ requests w' = 2%nat
       /\ sleeps w' = [2 * Second].
Proof.
  split; [split; [lia|reflexivity]|].
  destruct (SendMessage_accepts_first_decoded_reply secondTry 1 ""
              (mkBody "" (inl ["package a"; "ignored"]))
              ["package a"; "ignored"])
    as (w' & Hrun & Hreq & Hsl);
    [lia| |reflexivity|reflexivity|].
  { intros i Hi. assert (i = 0%nat) as -> by lia. exact I. }
  exists w'. split; [exact Hrun|]. split; [exact Hreq|exact Hsl].
Defined.

(** ** What the generator returns *)

Lemma Now_files : respects (keeps files) Sys.Now.
Proof. intros []. reflexivity. Qed.
Lemma Do_files : respects (keeps files) Sys.Do.
Proof. intros []. reflexivity. Qed.
Lemma io_files : respects (keeps files) Sys.io.
Proof. intros []. reflexivity. Qed.
Lemma log_files e : respects (keeps files) (Sys.log e).
Proof. intros []. reflexivity. Qed.
Lemma Sleep_files d : respects (keeps files) (Sys.Sleep d).
Proof. intros []. reflexivity. Qed.
#[global] Hint Resolve Now_files Do_files io_files log_files Sleep_files : tally.

(** [os.WriteFile] of a test file that succeeds: the file is there
    afterwards. *)
Lemma WriteFile_run p w :
  (fst (Sys.WriteFile p w) = None -> p ∈ files (snd (Sys.WriteFile p w)))
  /\ requests (snd (Sys.WriteFile p w)) = requests w.
Proof.
  destruct w as [clk tk cd pl cvo ms ho rq vo vs ioo iop fl sf tr].
  unfold Sys.WriteFile, bind, Sys.io, modify, ret. cbn [fst snd].
  destruct (ioo iop); cbn [fst snd files requests]; [done|].
  split; [|done]. intros _. set_solver.
Qed.

Section Generator.
Context `{GoLibrary} (analyzer : Analyzer).

Lemma makeRequest_files : respects (keeps files) makeRequest.
Proof. unfold makeRequest. frame; auto with tally. Qed.

Lemma sendAttempts_files n :
  forall a l, respects (keeps files) (sendAttempts n a l).
Proof.
  induction n as [|n IH]; intros a l; simpl; frame;
    auto using makeRequest_files with tally.
Qed.

(** A text comes from a request that was answered. *)
Lemma sendAttempts_text n : forall attempt last w text,
  fst (sendAttempts n attempt last w) = inl text ->
  (requests w < requests (snd (sendAttempts n attempt last w)))%nat.
Proof.
  induction n as [|n IH]; intros attempt last w text; [done|].
  rewrite sendAttempts_step.
  pose proof (makeRequest_requests (pause attempt w)) as Hreq.
  destruct (pause_frame attempt w) as (Hr & _).
  destruct (makeRequest (pause attempt w)) as [[[|t ?]|err] w1];
    cbn [fst snd] in *; [done|intros _; lia|].
  destruct (asRateLimitError err); [done|].
  intros Htext. apply IH in Htext. lia.
Qed.

(** What one call of the generator leaves behind: at most three requests
    more, and when it returns a path, that path is [path], the file is
    there, and at least one request was sent for it. *)
Definition wrote (path : string) (w : World) (r : string + error)
    (w' : World) : Prop :=
  (requests w' <= requests w + 3)%nat
  /\ forall p, r = inl p ->
       p = path /\ path ∈ files w' /\ (requests w < requests w')%nat.

Lemma SendMessage_run w :
  files (snd (SendMessage w)) = files w
  /\ (requests (snd (SendMessage w)) <= requests w + 3)%nat
  /\ (forall text, fst (SendMessage w) = inl text ->
        (requests w < requests (snd (SendMessage w)))%nat).
Proof.
  split; [apply (sendAttempts_files (Z.to_nat RetryMaxAttempts) 0 None w)|].
  split; [apply SendMessage_within|].
  apply (sendAttempts_text (Z.to_nat RetryMaxAttempts) 0 None w).
Qed.

Lemma io_run w :
  fst (Sys.io w) = io_out w (io_ops w)
  /\ files (snd (Sys.io w)) = files w
  /\ requests (snd (Sys.io w)) = requests w.
Proof. by destruct w. Qed.

Lemma log_run e w :
  files (snd (Sys.log e w)) = files w
  /\ requests (snd (Sys.log e w)) = requests w
  /\ io_out (snd (Sys.log e w)) = io_out w
  /\ io_ops (snd (Sys.log e w)) = io_ops w.
Proof. by destruct w. Qed.

(** The last step of the three: the reply is written to [path]. *)
Lemma write_reply path msg w0 w r w' :
  (requests w0 < requests w <= requests w0 + 3)%nat ->
  bind (Sys.WriteFile path)
    (fun wr => match wr with
               | Some err => ret (inr (wrapError msg err))
               | None => ret (inl path)
               end) w = (r, w') ->
  wrote path w0 r w'.
Proof.
  intros Hr. unfold bind.
  destruct (WriteFile_run path w) as [Hfiles Hreq].
  destruct (Sys.WriteFile path w) as [[err|] w1]; cbn [fst snd ret] in *;
    intros [= <- <-]; (split; [lia|]); intros p [= <-].
  split; [done|]. split; [by apply Hfiles|lia].
Qed.

Ltac first_read E w Hio :=
  unfold bind at 1 in E;
  match type of E with
  | context [Sys.log ?e w] =>
      let Hf0 := fresh "Hf" in let Hr0 := fresh "Hr" in
      let Hio0 := fresh "Hio" in let Hiop0 := fresh "Hiop" in
      let w0 := fresh "w" in
      destruct (log_run e w) as (Hf0 & Hr0 & Hio0 & Hiop0);
      destruct (Sys.log e w) as [[] w0]; cbn [fst snd] in *;
      unfold bind at 1 in E;
      let Hrd := fresh "Hrd" in let Hf1 := fresh "Hf" in
      let Hr1 := fresh "Hr" in let rd := fresh "rd" in
      let w1 := fresh "w" in
      destruct (io_run w0) as (Hrd & Hf1 & Hr1);
      destruct (Sys.io w0) as [rd w1]; cbn [fst snd] in *;
      rewrite Hio0, Hiop0 in Hrd; subst rd
  end.

Lemma GenerateTestForFile_wrote f w r w' :
  GenerateTestForFile analyzer f w = (r, w') ->
  wrote (GetTestFilePath analyzer f) w r w'
  /\ (io_out w (io_ops w) <> None ->
      requests w' = requests w /\ exists e, r = inr e).
Proof.
  intros E. unfold GenerateTestForFile in E. first_read E w Hio.
  destruct (io_out w (io_ops w)) as [err|].
  { injection E as <- <-. split; [split; [lia|done]|].
    intros _. split; [congruence|by eexists]. }
  split; [|done].
  unfold bind at 1 in E.
  destruct (SendMessage_run w1) as (Hf2 & Hr2 & Htext).
  destruct (SendMessage w1) as [[text|err] w2]; cbn [fst snd] in *.
  2:{ injection E as <- <-. split; [lia|done]. }
  specialize (Htext text eq_refl).
  unfold bind at 1 in E.
  destruct (io_run w2) as (_ & Hf3 & Hr3).
  destruct (Sys.io w2) as [[err|] w3]; cbn [fst snd] in *.
  { injection E as <- <-. split; [lia|done]. }
  eapply write_reply; [|exact E]. lia.
Qed.

Lemma FixBrokenTest_wrote t o w r w' :
  FixBrokenTest t o w = (r, w') ->
  wrote t w r w'
  /\ (io_out w (io_ops w) <> None ->
      requests w' = requests w /\ exists e, r = inr e).
Proof.
  intros E. unfold FixBrokenTest in E. first_read E w Hio.
  destruct (io_out w (io_ops w)) as [err|].
  { injection E as <- <-. split; [split; [lia|done]|].
    intros _. split; [congruence|by eexists]. }
  split; [|done].
  unfold bind at 1 in E.
  destruct (SendMessage_run w1) as (Hf2 & Hr2 & Htext).
  destruct (SendMessage w1) as [[text|err] w2]; cbn [fst snd] in *.
  2:{ injection E as <- <-. split; [lia|done]. }
  specialize (Htext text eq_refl).
  eapply write_reply; [|exact E]. lia.
Qed.

Lemma ImproveExistingTest_wrote f t w r w' :
  ImproveExistingTest f t w = (r, w') ->
  wrote t w r w'
  /\ (io_out w (io_ops w) <> None ->
      requests w' = requests w /\ exists e, r = inr e).
Proof.
  intros E. unfold ImproveExistingTest in E. first_read E w Hio.
  destruct (io_out w (io_ops w)) as [err|].
  { injection E as <- <-. split; [split; [lia|done]|].
    intros _. split; [congruence|by eexists]. }
  split; [|done].
  unfold bind at 1 in E.
  destruct (io_run w1) as (_ & Hf1' & Hr1').
  destruct (Sys.io w1) as [[err|] w1']; cbn [fst snd] in *.
  { injection E as <- <-. split; [lia|done]. }
  unfold bind at 1 in E.
  destruct (SendMessage_run w1') as (Hf2 & Hr2 & Htext).
  destruct (SendMessage w1') as [[text|err] w2]; cbn [fst snd] in *.
  2:{ injection E as <- <-. split; [lia|done]. }
  specialize (Htext text eq_refl).
  eapply write_reply; [|exact E]. lia.
Qed.

(** X10.  The generator returns the test file only after the backend has
    answered.  [GenerateTestForFile] returns [GetTestFilePath] of the
    source file, [FixBrokenTest] and [ImproveExistingTest] the test file
    they were given; the file is there when they return it, and at least
    one request was sent for it.  When the first file to read cannot be
    read, they return an error and no request was sent.  Never more than
    three requests are sent. *)
Theorem generator_writes_what_it_returns (w : World) :
  (forall f,
     let res := GenerateTestForFile analyzer f w in
     wrote (GetTestFilePath analyzer f) w (fst res) (snd res)
     /\ (io_out w (io_ops w) <> None ->
         requests (snd res) = requests w /\ exists e, fst res = inr e))
  /\ (forall t o,
        let res := FixBrokenTest t o w in
        wrote t w (fst res) (snd res)
        /\ (io_out w (io_ops w) <> None ->
            requests (snd res) = requests w /\ exists e, fst res = inr e))
  /\ (forall f t,
        let res := ImproveExistingTest f t w in
        wrote t w (fst res) (snd res)
        /\ (io_out w (io_ops w) <> None ->
            requests (snd res) = requests w /\ exists e, fst res = inr e)).
Proof.
  split; [intros f res; apply (GenerateTestForFile_wrote f), surjective_pairing|].
  split; [intros t o res; apply (FixBrokenTest_wrote t o), surjective_pairing|].
  intros f t res. apply (ImproveExistingTest_wrote f t), surjective_pairing.
Qed.
End Generator.

(** ** Saving and loading, and their errors *)

(** A [float64] that [json.Marshal] accepts. *)
Definition encodable (f : float) : bool :=
  negb (PrimFloat.is_nan f || PrimFloat.is_infinity f).

(** A state whose coverage values can all be written. *)
Definition encodableState (s : State) : bool :=
  encodable (CurrentCoverage s) && encodable (TargetCoverage s)
  && forallb (fun c => encodable (Coverage c)) (CoverageHistory s).

Lemma marshal_float_is_Some f :
  is_Some (Json.marshal_float f) <-> encodable f = true.
Proof.
  unfold Json.marshal_float, encodable.
  destruct (_ || _); cbn [negb]; split; intros Hx;
    [by destruct Hx|done|done|by eexists].
Qed.

Lemma marshal_state_is_Some s :
  is_Some (Json.marshal_state s) <-> encodableState s = true.
Proof.
  unfold Json.marshal_state, encodableState.
  rewrite !andb_true_iff, <- !marshal_float_is_Some.
  assert (is_Some (mapM Json.marshal_snapshot (CoverageHistory s))
          <-> forallb (fun c => encodable (Coverage c)) (CoverageHistory s)
              = true) as Hhist.
  { rewrite mapM_is_Some.
    induction (CoverageHistory s) as [|c l IH]; cbn [forallb].
    - split; [done|]. intros _. constructor.
    - rewrite Forall_cons, andb_true_iff, IH, <- marshal_float_is_Some.
      unfold compose, Json.marshal_snapshot.
      destruct (Json.marshal_float (Coverage c)); cbn.
      + split; intros [_ ?]; (split; [by eexists|done]).
      + split; intros [[? ?] _]; done. }
  rewrite <- Hhist.
  destruct (Json.marshal_float (CurrentCoverage s)); cbn.
  2:{ split; [by intros [? ?]|]. by intros [[[? ?] _] _]. }
  destruct (Json.marshal_float (TargetCoverage s)); cbn.
  2:{ split; [by intros [? ?]|]. by intros [[_ [? ?]] _]. }
  destruct (mapM Json.marshal_snapshot (CoverageHistory s)); cbn.
  - split; [|by eexists]. intros _. repeat split; by eexists.
  - split; [by intros [? ?]|]. by intros [_ [? ?]].
Qed.

Section SaveLoad.
Context `{GoLibrary} (analyzer : Analyzer) (cfg : Config).

(** X11.  [SaveState] returns nil exactly when the state can be marshalled
    (no coverage value in it is NaN or infinite) and the write succeeds;
    the file then holds a document that decodes to the state in memory.
    A state that cannot be marshalled gives the error "failed to marshal
    state" and is not written: no file operation is tried and the state
    files are what they were.  A write that fails gives "failed to write
    state file" with the error of the write.  In every case
    [LastUpdatedAt] has been set in memory. *)
Theorem SaveState_nil_exactly_when_written (s : State) (w : World) :
  let res := SaveState cfg (s, w) in
  let s' := fst (snd res) in
  let w' := snd (snd res) in
  s' = set_LastUpdatedAt (clock w (ticks w)) s
  /\ (fst res = None
      <-> encodableState s = true /\ io_out w (io_ops w) = None)
  /\ match fst res with
     | None =>
         exists doc,
           state_files w' = <[Cfg.StateFile cfg := doc]> (state_files w)
           /\ Json.unmarshal_state doc = Some s'
     | Some e =>
         if encodableState s
         then exists err, io_out w (io_ops w) = Some err
                /\ e = wrapError "failed to write state file" err
                /\ io_ops w' = S (io_ops w)
         else e = wrapError "failed to marshal state"
                    (errorString "json: unsupported value")
              /\ io_ops w' = io_ops w
              /\ state_files w' = state_files w
     end.
Proof.
  intros res s' w'. subst res s' w'.
  pose proof (SaveState_result cfg s w) as Hres.
  rewrite marshal_state_is_Some in Hres.
  destruct (SaveState cfg (s, w)) as [e [s' w']] eqn:E. cbn [fst snd] in *.
  pose proof E as E'.
  apply SaveState_run in E' as (-> & _ & _ & _ & _ & _ & _ & Hdoc).
  split; [done|]. split; [done|].
  destruct e as [e|].
  - clear Hdoc.
    revert E. unfold SaveState, bind, lift, update, state, gets, modify, ret.
    cbn [fst snd].
    destruct w as [clk tk cd pl cvo ms ho rq vo vs ioo iop fl sf tr].
    cbn [Sys.Now fst snd io_out io_ops].
    pose proof (marshal_state_is_Some (set_LastUpdatedAt (clk tk) s)) as Hm.
    assert (encodableState (set_LastUpdatedAt (clk tk) s) = encodableState s)
      as Hsame by (by destruct s).
    rewrite Hsame in Hm.
    destruct (Json.marshal_state _) as [doc|]; cbn [fst snd].
    + rewrite (proj1 Hm) by (by eexists).
      unfold Sys.WriteState, bind, Sys.io, modify, ret. cbn [fst snd].
      destruct (ioo iop) as [err|]; cbn [fst snd]; [|done].
      intros [= <- <-]. by exists err.
    + destruct (encodableState s); [by destruct (proj2 Hm eq_refl)|].
      by intros [= <- <-].
  - destruct Hdoc as (doc & Hdoc & _ & Hsf & _).
    exists doc. split; [done|]. by apply unmarshal_marshal_state.
Qed.

(** X12.  [LoadState] replaces the state in memory by the one the file decodes
    to, or returns an error and leaves it alone: "failed to read state
    file" for a file that is missing or cannot be read, "failed to
    unmarshal state" for one that does not decode.  The files are never
    changed.  After an error of [LoadState], [main] does not call [Run]:
    nothing is measured, sent or saved. *)
Theorem LoadState_replaces_or_keeps (s : State) (w : World) :
  let res := LoadState cfg (s, w) in
  let s' := fst (snd res) in
  let w' := snd (snd res) in
  state_files w' = state_files w
  /\ measurements w' = measurements w /\ requests w' = requests w
  /\ match fst res with
     | None =>
         exists doc, state_files w !! Cfg.StateFile cfg = Some doc
                     /\ io_out w (io_ops w) = None
                     /\ Json.unmarshal_state doc = Some s'
     | Some e =>
         s' = s
         /\ match state_files w !! Cfg.StateFile cfg with
            | None =>
                e = wrapError "failed to read state file"
                      (errorString "open: no such file or directory")
            | Some doc =>
                match io_out w (io_ops w) with
                | Some err => e = wrapError "failed to read state file" err
                | None =>
                    Json.unmarshal_state doc = None
                    /\ e = wrapError "failed to unmarshal state"
                             (errorString "json: cannot unmarshal")
                end
            end
     end
  /\ (forall w0,
        New analyzer cfg w0 = (s, w) ->
        fst res <> None ->
        main analyzer cfg true w0 = (Finished (fst res), s, w')).
Proof.
  intros res s' w'. subst res s' w'.
  assert (state_files (snd (snd (LoadState cfg (s, w)))) = state_files w
          /\ measurements (snd (snd (LoadState cfg (s, w)))) = measurements w
          /\ requests (snd (snd (LoadState cfg (s, w)))) = requests w
          /\ match fst (LoadState cfg (s, w)) with
             | None =>
                 exists doc, state_files w !! Cfg.StateFile cfg = Some doc
                   /\ io_out w (io_ops w) = None
                   /\ Json.unmarshal_state doc
                      = Some (fst (snd (LoadState cfg (s, w))))
             | Some e =>
                 fst (snd (LoadState cfg (s, w))) = s
                 /\ match state_files w !! Cfg.StateFile cfg with
                    | None =>
                        e = wrapError "failed to read state file"
                              (errorString "open: no such file or directory")
                    | Some doc =>
                        match io_out w (io_ops w) with
                        | Some err =>
                            e = wrapError "failed to read state file" err
                        | None =>
                            Json.unmarshal_state doc = None
                            /\ e = wrapError "failed to unmarshal state"
                                     (errorString "json: cannot unmarshal")
                        end
                    end
             end) as Hcore.
  { unfold LoadState, bind, lift, update, modify, ret. cbn [fst snd].
    unfold Sys.ReadState, bind, gets, id, ret.
    destruct (state_files w !! Cfg.StateFile cfg) as [doc|] eqn:Hfile;
      [|done].
    destruct w as [clk tk cd pl cvo ms ho rq vo vs ioo iop fl sf tr].
    cbn [Sys.io fst snd io_out io_ops state_files measurements requests] in *.
    destruct (ioo iop) as [err|]; cbn [fst snd]; [done|].
    destruct (Json.unmarshal_state doc) as [loaded|] eqn:Hdoc; cbn [fst snd];
      [|done].
    repeat (split; [done|]). by exists doc. }
  destruct Hcore as (Hsf & Hm & Hr & Hcase).
  repeat (split; [done|]).
  intros w0 Hnew Hfail. unfold main. unfold bind at 1. rewrite Hnew.
  destruct (LoadState cfg (s, w)) as [[e|] [s1 w1]]; [|done].
  cbn [fst snd] in *. by destruct Hcase as [-> _].
Qed.
End SaveLoad.

(** ** Test files and source files of the Go analyzer *)

(** [strings.TrimSuffix]. *)
Definition TrimSuffix (s suffix : string) : string :=
  if HasSuffix s suffix
  then substring 0 (String.length s - String.length suffix) s
  else s.

(** [GoAnalyzer.GetSourceFileForTest]. *)
Definition Go_GetSourceFileForTest (testFile : string) : string :=
  if HasSuffix testFile "_test.go"
  then TrimSuffix testFile "_test.go" +:+ ".go"
  else testFile.

Lemma app_String c a b : String c a +:+ b = String c (a +:+ b).
Proof. reflexivity. Qed.

Lemma app_length a b :
  String.length (a +:+ b) = (String.length a + String.length b)%nat.
Proof. induction a as [|c a IH]; [done|]. rewrite app_String. simpl. lia. Qed.

Lemma substring_all b : substring 0 (String.length b) b = b.
Proof. induction b as [|c b IH]; [done|]. simpl. by rewrite IH. Qed.

Lemma substring_app_l a b : substring 0 (String.length a) (a +:+ b) = a.
Proof.
  induction a as [|c a IH]; [by destruct b|].
  rewrite app_String. simpl. by rewrite IH.
Qed.

Lemma substring_app_r a b :
  substring (String.length a) (String.length b) (a +:+ b) = b.
Proof.
  induction a as [|c a IH]; [apply substring_all|].
  rewrite app_String. simpl. exact IH.
Qed.

(** A string is what comes before a position and what comes after. *)
Lemma substring_split n : forall s,
  (n <= String.length s)%nat ->
  s = substring 0 n s +:+ substring n (String.length s - n) s.
Proof.
  induction n as [|n IH]; intros s Hn.
  - rewrite Nat.sub_0_r, substring_all. by destruct s.
  - destruct s as [|c s]; simpl in *; [lia|].
    rewrite app_String. f_equal. apply IH. lia.
Qed.

Lemma HasSuffix_app a b : HasSuffix (a +:+ b) b = true.
Proof.
  unfold HasSuffix. rewrite app_length.
  replace (String.length a + String.length b - String.length b)%nat
    with (String.length a) by lia.
  rewrite substring_app_r, String.eqb_refl.
  apply andb_true_intro. split; [|done]. apply Nat.leb_le. lia.
Qed.

Lemma HasSuffix_true s suffix :
  HasSuffix s suffix = true ->
  s = substring 0 (String.length s - String.length suffix) s +:+ suffix.
Proof.
  unfold HasSuffix. intros [Hlen Heq]%andb_prop.
  apply Nat.leb_le in Hlen. apply String.eqb_eq in Heq.
  rewrite (substring_split (String.length s - String.length suffix) s) at 1
    by lia.
  f_equal. rewrite <- Heq at 3. f_equal. lia.
Qed.

Lemma TrimSuffix_app a b : TrimSuffix (a +:+ b) b = a.
Proof.
  unfold TrimSuffix. rewrite HasSuffix_app, app_length.
  replace (String.length a + String.length b - String.length b)%nat
    with (String.length a) by lia.
  apply substring_app_l.
Qed.

Lemma Go_GetTestFilePath_app a :
  GetTestFilePath GoAnalyzer (a +:+ ".go") = a +:+ "_test.go".
Proof.
  cbn [GetTestFilePath GoAnalyzer]. rewrite HasSuffix_app, app_length.
  replace (String.length a + String.length ".go" - 3)%nat
    with (String.length a) by (simpl; lia).
  by rewrite substring_app_l.
Qed.

(** X13.  The two directions of the Go naming convention undo each other on
    the names they are meant for: [GetSourceFileForTest] gives back the
    source file of the test file that [GetTestFilePath] names for a path
    ending in [.go], and [GetTestFilePath] gives back a test file ending in
    [_test.go] from its source file.  For a path that does not end in
    [.go], [GetTestFilePath] appends [_test.go], and the way back yields
    the path with [.go] appended, not the path. *)
Theorem Go_test_file_round_trip (path : string) :
  HasSuffix (GetTestFilePath GoAnalyzer path) "_test.go" = true
  /\ Go_GetSourceFileForTest (GetTestFilePath GoAnalyzer path)
     = (if HasSuffix path ".go" then path else path +:+ ".go")
  /\ GetTestFilePath GoAnalyzer (Go_GetSourceFileForTest path)
     = (if HasSuffix path "_test.go" then path
        else GetTestFilePath GoAnalyzer path).
Proof.
  split; [|split].
  - cbn [GetTestFilePath GoAnalyzer].
    destruct (HasSuffix path ".go"); apply HasSuffix_app.
  - destruct (HasSuffix path ".go") eqn:Hgo.
    + apply HasSuffix_true in Hgo.
      set (a := substring 0 (String.length path - String.length ".go") path)
        in Hgo.
      rewrite Hgo, Go_GetTestFilePath_app.
      unfold Go_GetSourceFileForTest.
      by rewrite HasSuffix_app, TrimSuffix_app.
    + cbn [GetTestFilePath GoAnalyzer]. rewrite Hgo.
      unfold Go_GetSourceFileForTest.
      by rewrite HasSuffix_app, TrimSuffix_app.
  - unfold Go_GetSourceFileForTest.
    destruct (HasSuffix path "_test.go") eqn:Htest; [|done].
    apply HasSuffix_true in Htest.
    set (a := substring 0 (String.length path - String.length "_test.go") path)
      in Htest.
    rewrite Htest at 2. rewrite Htest at 1.
    by rewrite TrimSuffix_app, Go_GetTestFilePath_app.
Qed.

(** ** The report of the Python analyzer *)

(** The entries of [coverage.Files] that [parseCoverageJSON] lists as
    uncovered: the guard [len(fileCov.MissingLines) > 0]. *)
Definition hasMissing (entry : string * PyFile) : bool :=
  (0 <? length (missing_lines (snd entry)))%nat.

(** A coverage file with two modules, one of them fully covered. *)
Definition twoModules : list (string * PyFile) :=
  [("app/util.py", mkPyFile 100%float []);
   ("app/core.py", mkPyFile 40%float [3; 4; 9])].

Lemma parseCoverageJSON_snoc totals visited filename fileCov report :
  parseCoverageJSON totals (visited ++ [(filename, fileCov)]) report
  = let r := parseCoverageJSON totals visited report in
    if (0 <? length (missing_lines fileCov))%nat
    then Cov.mkReport (Cov.TotalCoverage r)
           (<[filename := percent_covered fileCov]> (Cov.FileCoverage r))
           (Cov.UncoveredFiles r ++ [filename])
           (<[filename := missing_lines fileCov]> (Cov.UncoveredLines r))
           (Cov.Language r)
    else Cov.mkReport (Cov.TotalCoverage r)
           (<[filename := percent_covered fileCov]> (Cov.FileCoverage r))
           (Cov.UncoveredFiles r) (Cov.UncoveredLines r) (Cov.Language r).
Proof.
  unfold parseCoverageJSON. rewrite fold_left_app. cbn [fold_left].
  by destruct (0 <? length (missing_lines fileCov))%nat.
Qed.

Lemma nonempty_length {A} (l : list A) :
  (0 <? length l)%nat = true <-> l <> [].
Proof.
  destruct l; cbn; split; intros; try done.
Qed.

(** What [parseCoverageJSON] leaves in the report, whatever the order in which
    the [range] visits the map. *)
Lemma parseCoverageJSON_inv totals visited :
  NoDup visited.*1 ->
  let r := parseCoverageJSON totals visited emptyPythonReport in
  Cov.TotalCoverage r = totals
  /\ Cov.Language r = "Python"
  /\ Cov.UncoveredFiles r = (List.filter hasMissing visited).*1
  /\ (forall f c, Cov.FileCoverage r !! f = Some c
        <-> exists pf, (f, pf) ∈ visited /\ percent_covered pf = c)
  /\ (forall f l, Cov.UncoveredLines r !! f = Some l
        <-> l <> [] /\ exists pf, (f, pf) ∈ visited /\ missing_lines pf = l).
Proof.
  induction visited as [|[filename fileCov] visited IH] using rev_ind;
    intros Hnodup.
  - cbn. repeat split; try done.
    + intros (pf & Hin & _). by apply elem_of_nil in Hin.
    + intros (_ & pf & Hin & _). by apply elem_of_nil in Hin.
  - rewrite fmap_app in Hnodup. apply NoDup_app in Hnodup as (Hl & Hfresh & _).
    specialize (IH Hl). cbv zeta in IH.
    destruct IH as (Htot & Hlang & Hfiles & Hcov & Hlines).
    assert (Hnew : forall pf, (filename, pf) ∉ visited).
    { intros pf Hin. apply (Hfresh filename).
      - apply list_elem_of_fmap. by exists (filename, pf).
      - cbn. apply list_elem_of_singleton. reflexivity. }
    cbv zeta. rewrite parseCoverageJSON_snoc. cbv zeta.
    set (r := parseCoverageJSON totals visited emptyPythonReport) in *.
    assert (HcovNew : forall f c,
      <[filename := percent_covered fileCov]> (Cov.FileCoverage r) !! f = Some c
      <-> exists pf, (f, pf) ∈ visited ++ [(filename, fileCov)]
                     /\ percent_covered pf = c).
    { intros f c. destruct (decide (f = filename)) as [->|Hne].
      - rewrite lookup_insert_eq. split.
        + intros [= <-]. exists fileCov. split; [|done].
          apply elem_of_app. right. by apply list_elem_of_singleton.
        + intros (pf & [Hin|Hin]%elem_of_app & <-).
          * by apply Hnew in Hin.
          * apply list_elem_of_singleton in Hin. by inversion Hin.
      - rewrite lookup_insert_ne by done. rewrite Hcov. split.
        + intros (pf & Hin & Hc). exists pf. split; [|done].
          apply elem_of_app. by left.
        + intros (pf & [Hin|Hin]%elem_of_app & Hc).
          * by exists pf.
          * apply list_elem_of_singleton in Hin. by inversion Hin. }
    rewrite List.filter_app, fmap_app. cbn [List.filter].
    unfold hasMissing at 2. cbn [snd].
    destruct (0 <? length (missing_lines fileCov))%nat eqn:Hmiss;
      cbn [Cov.TotalCoverage Cov.Language Cov.UncoveredFiles Cov.FileCoverage
           Cov.UncoveredLines].
    + split; [done|]. split; [done|]. split; [by rewrite Hfiles|].
      split; [done|].
      intros f l. destruct (decide (f = filename)) as [->|Hne].
      * rewrite lookup_insert_eq. split.
        -- intros [= <-]. split; [by apply nonempty_length|].
           exists fileCov. split; [|done].
           apply elem_of_app. right. by apply list_elem_of_singleton.
        -- intros (_ & pf & [Hin|Hin]%elem_of_app & <-).
           ++ by apply Hnew in Hin.
           ++ apply list_elem_of_singleton in Hin. by inversion Hin.
      * rewrite lookup_insert_ne by done. rewrite Hlines. split.
        -- intros (Hl' & pf & Hin & Hm). split; [done|]. exists pf.
           split; [|done]. apply elem_of_app. by left.
        -- intros (Hl' & pf & [Hin|Hin]%elem_of_app & Hm).
           ++ split; [done|]. by exists pf.
           ++ apply list_elem_of_singleton in Hin. by inversion Hin.
    + split; [done|]. split; [done|].
      split; [by rewrite Hfiles, app_nil_r|]. split; [done|].
      intros f l. rewrite Hlines. split.
      * intros (Hl' & pf & Hin & Hm). split; [done|]. exists pf.
        split; [|done]. apply elem_of_app. by left.
      * intros (Hl' & pf & [Hin|Hin]%elem_of_app & Hm).
        -- split; [done|]. by exists pf.
        -- apply list_elem_of_singleton in Hin. injection Hin as Hf Hpf.
           rewrite Hpf in Hm. rewrite <- Hm in Hl'.
           apply nonempty_length in Hl'. congruence.
Qed.

Lemma filter_hasMissing_sub visited :
  NoDup visited.*1 -> NoDup (List.filter hasMissing visited).*1.
Proof.
  induction visited as [|e visited IH]; [done|].
  cbn [fmap list_fmap List.filter]. intros [Hnot Hl]%NoDup_cons.
  destruct (hasMissing e); [|by apply IH].
  cbn [fmap list_fmap]. apply NoDup_cons. split; [|by apply IH].
  intros (e' & He & Hin)%list_elem_of_fmap. apply Hnot.
  apply list_elem_of_fmap. exists e'. split; [done|].
  apply list_elem_of_In in Hin. apply filter_In in Hin as [Hin _].
  by apply list_elem_of_In.
Qed.

(** X14.  The report that [PythonAnalyzer.RunCoverage] builds from a decoded
    coverage file is consistent, in whatever order the [range] visits the
    [files] map (the keys of a map are distinct): the total is the file's
    total; [FileCoverage] has exactly the files of the map with their
    percentages; [UncoveredLines] has exactly the files with at least one
    missing line, with those lines; [UncoveredFiles] lists those same files,
    each once and in the order visited, so that every listed file has both a
    coverage figure and a non-empty list of lines.  A file without missing
    lines is never listed, whatever its percentage. *)
Theorem parseCoverageJSON_report_is_consistent (totals : float)
    (visited : list (string * PyFile)) (Hkeys : NoDup visited.*1) :
  let r := parseCoverageJSON totals visited emptyPythonReport in
  Cov.TotalCoverage r = totals
  /\ Cov.Language r = "Python"
  /\ Cov.UncoveredFiles r = (List.filter hasMissing visited).*1
  /\ NoDup (Cov.UncoveredFiles r)
  /\ (forall f c, Cov.FileCoverage r !! f = Some c
        <-> exists pf, (f, pf) ∈ visited /\ percent_covered pf = c)
  /\ (forall f l, Cov.UncoveredLines r !! f = Some l
        <-> l <> [] /\ exists pf, (f, pf) ∈ visited /\ missing_lines pf = l)
  /\ (forall f, f ∈ Cov.UncoveredFiles r
        <-> is_Some (Cov.UncoveredLines r !! f))
  /\ (forall f, f ∈ Cov.UncoveredFiles r
        -> is_Some (Cov.FileCoverage r !! f)).
Proof.
  pose proof (parseCoverageJSON_inv totals visited Hkeys) as Hinv.
  cbv zeta in *.
  set (r := parseCoverageJSON totals visited emptyPythonReport) in *.
  destruct Hinv as (Htot & Hlang & Hfiles & Hcov & Hlines).
  assert (Hlisted : forall f, f ∈ Cov.UncoveredFiles r
            <-> exists pf, (f, pf) ∈ visited /\ missing_lines pf <> []).
  { intros f. rewrite Hfiles. split.
    - intros ([f' pf] & -> & Hin)%list_elem_of_fmap.
      apply list_elem_of_In, filter_In in Hin as [Hin Hm].
      exists pf. split; [by apply list_elem_of_In|].
      by apply nonempty_length.
    - intros (pf & Hin & Hm). apply list_elem_of_fmap. exists (f, pf).
      split; [done|]. apply list_elem_of_In, filter_In.
      split; [by apply list_elem_of_In|]. by apply nonempty_length. }
  split; [exact Htot|]. split; [exact Hlang|]. split; [exact Hfiles|].
  split; [rewrite Hfiles; by apply filter_hasMissing_sub|].
  split; [exact Hcov|]. split; [exact Hlines|]. split.
  - intros f. split.
    + intros (pf & Hin & Hm)%Hlisted. exists (missing_lines pf).
      apply Hlines. split; [done|]. by exists pf.
    + intros [l (Hl & pf & Hin & <-)%Hlines]. apply Hlisted. by exists pf.
  - intros f (pf & Hin & _)%Hlisted. exists (percent_covered pf).
    apply Hcov. by exists pf.
Qed.

Lemma two_modules_report :
  NoDup twoModules.*1
  /\ Cov.UncoveredFiles (parseCoverageJSON 70%float twoModules emptyPythonReport)
     = ["app/core.py"]
  /\ Cov.FileCoverage (parseCoverageJSON 70%float twoModules emptyPythonReport)
       !! "app/util.py" = Some 100%float
  /\ Cov.UncoveredLines (parseCoverageJSON 70%float twoModules emptyPythonReport)
       !! "app/util.py" = None.
Proof.
  assert (Hkeys : NoDup twoModules.*1).
  { apply (bool_decide_unpack (NoDup twoModules.*1)). vm_compute. reflexivity. }
  destruct (parseCoverageJSON_report_is_consistent 70%float twoModules Hkeys)
    as (_ & _ & Hfiles & _ & Hcov & Hlines & _).
  split; [exact Hkeys|]. split; [exact Hfiles|]. split.
  - apply Hcov. exists (mkPyFile 100%float []). split; [|done].
    apply elem_of_cons. by left.
  - destruct (_ !! "app/util.py") as [l|] eqn:Hl; [|done].
    apply Hlines in Hl as (Hne & pf & Hin & Hm).
    apply elem_of_cons in Hin as [Hin|Hin].
    + inversion Hin; subst. done.
    + apply list_elem_of_singleton in Hin. inversion Hin.
Defined.

(** ** The uncovered lines in the prompt *)

(** [strings.Join]. *)
Fixpoint Join (elems : list string) (sep : string) : string :=
  match elems with
  | [] => ""
  | e :: rest =>
      match rest with
      | [] => e
      | _ :: _ => e +:+ sep +:+ Join rest sep
      end
  end.

(** One entry of [ranges]: [fmt.Sprintf("Line %d", start)] or
    [fmt.Sprintf("Lines %d-%d", start, end)]. *)
Definition rangeText (start end_ : Z) : string :=
  if start =? end_ then "Line " +:+ pretty start
  else "Lines " +:+ pretty start +:+ "-" +:+ pretty end_.

(** The loop of [formatUncoveredLines] over [lines[1:]] and the range added
    after it; [end + 1] is computed on Go's 64-bit [int]. *)
Fixpoint groupRanges (rest : list Z) (start end_ : Z) (ranges : list string)
    : list string :=
  match rest with
  | [] => ranges ++ [rangeText start end_]
  | line :: rest' =>
      if line =? Go.wrap64 (end_ + 1)
      then groupRanges rest' start line ranges
      else groupRanges rest' line line (ranges ++ [rangeText start end_])
  end.

(** [Generator.formatUncoveredLines]. *)
Definition formatUncoveredLines (lines : list Z) : string :=
  match lines with
  | [] => "None"
  | first :: rest => Join (groupRanges rest first first []) ", "
  end.

(** The lines that a range [(start, end)] stands for. *)
Definition expand (run : Z * Z) : list Z :=
  seqZ (fst run) (snd run - fst run + 1).

(** No range continues the one before it. *)
Fixpoint separated (runs : list (Z * Z)) : Prop :=
  match runs with
  | [] => True
  | run :: rest =>
      match rest with
      | [] => True
      | next :: _ => fst next <> snd run + 1 /\ separated rest
      end
  end.

(** The ranges of the loop as pairs. *)
Fixpoint runsOf (rest : list Z) (start end_ : Z) : list (Z * Z) :=
  match rest with
  | [] => [(start, end_)]
  | line :: rest' =>
      if line =? Go.wrap64 (end_ + 1)
      then runsOf rest' start line
      else (start, end_) :: runsOf rest' line line
  end.

Definition isLine (x : Z) : Prop := - 2 ^ 63 <= x < 2 ^ 63 - 1.

Lemma groupRanges_runsOf rest : forall start end_ ranges,
  groupRanges rest start end_ ranges
  = ranges ++ map (fun run => rangeText (fst run) (snd run))
                  (runsOf rest start end_).
Proof.
  induction rest as [|line rest IH]; intros start end_ ranges; [done|].
  cbn [groupRanges runsOf].
  destruct (line =? Go.wrap64 (end_ + 1)); rewrite IH; [done|].
  cbn [map fst snd]. by rewrite <- app_assoc.
Qed.

Lemma wrap64_succ x : isLine x -> Go.wrap64 (x + 1) = x + 1.
Proof.
  unfold isLine, Go.wrap64. intros Hx.
  rewrite Z.mod_small by lia. lia.
Qed.

Lemma runsOf_head rest : forall start end_,
  exists e tl, runsOf rest start end_ = (start, e) :: tl.
Proof.
  induction rest as [|line rest IH]; intros start end_; cbn [runsOf].
  - by exists end_, [].
  - destruct (line =? Go.wrap64 (end_ + 1)); [apply IH|].
    by exists end_, (runsOf rest line line).
Qed.

Lemma expand_snoc start end_ :
  start <= end_ -> expand (start, end_ + 1) = expand (start, end_) ++ [end_ + 1].
Proof.
  intros Hle. unfold expand. cbn [fst snd].
  replace (end_ + 1 - start + 1) with ((end_ - start + 1) + 1) by lia.
  rewrite seqZ_app by lia. f_equal.
  replace (start + (end_ - start + 1)) with (end_ + 1) by lia.
  rewrite seqZ_cons by lia. by rewrite seqZ_nil by lia.
Qed.

Lemma runsOf_spec rest : forall start end_,
  start <= end_ -> isLine end_ -> Forall isLine rest ->
  flat_map expand (runsOf rest start end_) = expand (start, end_) ++ rest
  /\ Forall (fun run => fst run <= snd run) (runsOf rest start end_)
  /\ separated (runsOf rest start end_).
Proof.
  induction rest as [|line rest IH]; intros start end_ Hle Hend Hrest;
    cbn [runsOf].
  - cbn [flat_map separated]. rewrite !app_nil_r.
    split; [done|]. split; [|done]. by apply Forall_singleton.
  - apply Forall_cons in Hrest as [Hline Hrest].
    rewrite (wrap64_succ end_ Hend).
    destruct (line =? end_ + 1) eqn:Hnext.
    + apply Z.eqb_eq in Hnext. subst line.
      destruct (IH start (end_ + 1)) as (Hflat & Hruns & Hsep);
        [lia|done|done|].
      split; [|done].
      by rewrite Hflat, expand_snoc, <- app_assoc.
    + apply Z.eqb_neq in Hnext.
      destruct (IH line line) as (Hflat & Hruns & Hsep); [lia|done|done|].
      cbn [flat_map]. rewrite Hflat. split; [|split].
      * f_equal. unfold expand at 1. cbn [fst snd].
        replace (line - line + 1) with 1 by lia.
        rewrite seqZ_cons by lia. by rewrite seqZ_nil by lia.
      * apply Forall_cons. by split.
      * destruct (runsOf_head rest line line) as (e & tl & Heq).
        rewrite Heq in *. cbn [separated fst snd]. by split.
Qed.

(** X15.  For no lines the prompt says [None].  Otherwise the text that
    [formatUncoveredLines] puts into the prompt is the list, joined by
    [", "], of the maximal runs of consecutive line numbers of its argument,
    in order: the runs taken together are exactly the lines given, each run
    goes upwards, no run continues the one before it, and a run of one line
    reads [Line n], a longer one [Lines n-m].  (Line numbers lie below the
    largest [int], where [end + 1] does not wrap.) *)
Theorem formatUncoveredLines_lists_the_runs (lines : list Z)
    (Hlines : Forall isLine lines) :
  (lines = [] -> formatUncoveredLines lines = "None")
  /\ (lines <> [] ->
      exists runs,
        formatUncoveredLines lines
        = Join (map (fun run => rangeText (fst run) (snd run)) runs) ", "
        /\ flat_map expand runs = lines
        /\ Forall (fun run => fst run <= snd run) runs
        /\ separated runs).
Proof.
  split; [by intros ->|]. intros Hne.
  destruct lines as [|first rest]; [done|].
  apply Forall_cons in Hlines as [Hfirst Hrest].
  exists (runsOf rest first first).
  destruct (runsOf_spec rest first first) as (Hflat & Hruns & Hsep);
    [lia|done|done|].
  split; [|split; [|by split]].
  - cbn [formatUncoveredLines]. by rewrite groupRanges_runsOf.
  - rewrite Hflat. unfold expand. cbn [fst snd].
    replace (first - first + 1) with 1 by lia.
    rewrite seqZ_cons by lia. by rewrite seqZ_nil by lia.
Qed.

Lemma three_runs :
  Forall isLine [3; 4; 5; 9; 12; 13]
  /\ formatUncoveredLines [3; 4; 5; 9; 12; 13]
     = "Lines 3-5, Line 9, Lines 12-13"
  /\ exists runs,
       formatUncoveredLines [3; 4; 5; 9; 12; 13]
       = Join (map (fun run => rangeText (fst run) (snd run)) runs) ", "
       /\ flat_map expand runs = [3; 4; 5; 9; 12; 13]
       /\ Forall (fun run => fst run <= snd run) runs
       /\ separated runs.
Proof.
  assert (Hlines : Forall isLine [3; 4; 5; 9; 12; 13]).
  { repeat (apply Forall_cons; split; [unfold isLine; lia|]).
    apply Forall_nil_2. }
  split; [exact Hlines|]. split; [by vm_compute|].
  apply (formatUncoveredLines_lists_the_runs _ Hlines). discriminate.
Defined.

(** ** What the validator makes of the Go tool chain *)

(** [GoAnalyzer.RunTests], given what [go test] came to: the error of
    [cmd.Run] and what the command wrote. *)
Definition Go_RunTests (err : option error) (stdout stderr : string)
    : bool * string * option error :=
  (match err with None => true | Some _ => false end, stdout +:+ stderr, None).

(** [GoAnalyzer.ValidateTestFile], given what [go build] and [go test] came
    to. *)
Definition Go_ValidateTestFile (build : option error) (buildStderr : string)
    (test : option error) (stdout stderr : string)
    : bool * string * option error :=
  match build with
  | Some _ => (false, "Compilation failed: " +:+ buildStderr, None)
  | None => Go_RunTests test stdout stderr
  end.

(** The texts that [ValidateTest] takes for a compilation failure. *)
Definition saysCompilationFailed (output : string) : bool :=
  Contains output "compilation failed"
  || Contains output "build failed"
  || (Contains output "error:" && Contains output "cannot find symbol").

Lemma Contains_after_heading (s : string) :
  Contains ("Compilation failed: " +:+ s) "compilation failed"
  = Contains s "compilation failed"
  /\ Contains ("Compilation failed: " +:+ s) "build failed"
     = Contains s "build failed"
  /\ Contains ("Compilation failed: " +:+ s) "error:" = Contains s "error:"
  /\ Contains ("Compilation failed: " +:+ s) "cannot find symbol"
     = Contains s "cannot find symbol".
Proof. repeat split; reflexivity. Qed.

(** X16.  With the Go analyzer a validation never ends in a hard error:
    [ValidateTestFile] returns a nil error whatever the tools do.  When
    [go build] fails, the output is [Compilation failed: ] followed by the
    compiler's messages; the validator looks for [compilation failed] with a
    small [c], which the heading does not contain, so the result has
    [CompilationOK] set and the message [Tests failed], unless the compiler's
    own messages contain one of the texts looked for.  When the build
    succeeds and the output of [go test] contains none of those texts, the
    result is a success exactly when [go test] ran without error. *)
Theorem Go_build_failure_is_told_by_the_compiler_text
    (build : option error) (buildStderr : string)
    (test : option error) (stdout stderr : string) :
  let out := Go_ValidateTestFile build buildStderr test stdout stderr in
  (exists res, verdict out = inl res)
  /\ (forall e, build = Some e ->
        verdict out
        = inl (if saysCompilationFailed buildStderr
               then mkResult false false false
                      ("Compilation failed: " +:+ buildStderr)
                      "Compilation failed"
               else mkResult false true false
                      ("Compilation failed: " +:+ buildStderr)
                      "Tests failed"))
  /\ (build = None -> saysCompilationFailed (stdout +:+ stderr) = false ->
        verdict out
        = inl (match test with
               | None => mkResult true true true (stdout +:+ stderr) ""
               | Some _ =>
                   mkResult false true false (stdout +:+ stderr) "Tests failed"
               end)).
Proof.
  assert (Hbuild : forall e,
    verdict (Go_ValidateTestFile (Some e) buildStderr test stdout stderr)
    = inl (if saysCompilationFailed buildStderr
           then mkResult false false false
                  ("Compilation failed: " +:+ buildStderr) "Compilation failed"
           else mkResult false true false
                  ("Compilation failed: " +:+ buildStderr) "Tests failed")).
  { intros e. cbn [Go_ValidateTestFile verdict].
    destruct (Contains_after_heading buildStderr) as (-> & -> & -> & ->).
    unfold saysCompilationFailed.
    by destruct (_ || _ || _). }
  cbv zeta. split; [|split].
  - destruct build as [e|].
    + rewrite Hbuild. by eexists.
    + cbn [Go_ValidateTestFile Go_RunTests verdict].
      destruct (_ || _ || _); [by eexists|]. destruct test; by eexists.
  - intros e ->. apply Hbuild.
  - intros -> Hsays. cbn [Go_ValidateTestFile Go_RunTests verdict].
    unfold saysCompilationFailed in Hsays. rewrite Hsays. by destruct test.
Qed.

(** A test file with an undefined name: the build fails, and the result
    says that the tests failed. *)
Example undefined_name_is_a_test_failure :
  verdict (Go_ValidateTestFile (Some (errorString "exit status 1"))
             "./a_test.go:7:2: undefined: helper" None "" "")
  = inl (mkResult false true false
           "Compilation failed: ./a_test.go:7:2: undefined: helper"
           "Tests failed").
Proof. reflexivity. Qed.

(** ** The order of validations and repairs *)

Definition isStep (e : Event) : bool :=
  match e with
  | EvValidate _ | EvFix _ => true
  | _ => false
  end.

(** The validations and the repairs that a trace records, oldest first. *)
Definition steps (w : World) : list Event :=
  reverse (List.filter isStep (trace w)).

(** [k] rounds of a validation that failed and the repair after it. *)
Fixpoint rounds (t : string) (k : nat) : list Event :=
  match k with
  | O => []
  | S k' => EvValidate t :: EvFix t :: rounds t k'
  end.

Lemma Now_steps : respects (keeps steps) Sys.Now. Proof. kept. Qed.
Lemma Done_steps : respects (keeps steps) Sys.Done. Proof. kept. Qed.
Lemma Do_steps : respects (keeps steps) Sys.Do. Proof. kept. Qed.
Lemma io_steps : respects (keeps steps) Sys.io. Proof. kept. Qed.
Lemma Sleep_steps d : respects (keeps steps) (Sys.Sleep d). Proof. kept. Qed.
Lemma RunCoverage_steps : respects (keeps steps) Sys.RunCoverage.
Proof. kept. Qed.
Lemma log_steps e : isStep e = false -> respects (keeps steps) (Sys.log e).
Proof. intros He []. unfold keeps, steps. simpl. by rewrite He. Qed.
Lemma WriteFile_steps p : respects (keeps steps) (Sys.WriteFile p).
Proof.
  unfold Sys.WriteFile. frame; auto using io_steps.
  apply modify_respects. kept.
Qed.

Create HintDb order.
#[global] Hint Resolve Now_steps Done_steps Do_steps io_steps Sleep_steps
  RunCoverage_steps WriteFile_steps : order.

Lemma log_step e w :
  isStep e = true -> steps (snd (Sys.log e w)) = steps w ++ [e].
Proof.
  intros He. destruct w. unfold steps. simpl. rewrite He.
  by rewrite reverse_cons.
Qed.

Section Order.
Context `{GoLibrary} (analyzer : Analyzer) (cfg : Config).

Lemma makeRequest_steps : respects (keeps steps) makeRequest.
Proof. unfold makeRequest. frame; auto with order. Qed.

Lemma sendAttempts_steps n :
  forall a l, respects (keeps steps) (sendAttempts n a l).
Proof.
  induction n as [|n IH]; intros a l; simpl; frame;
    auto using makeRequest_steps with order.
Qed.

Lemma FixBrokenTest_steps t o w :
  steps (snd (FixBrokenTest t o w)) = steps w ++ [EvFix t].
Proof.
  unfold FixBrokenTest. rewrite bind_snd. cbv beta.
  rewrite <- (log_step (EvFix t) w) by done.
  set (w1 := snd (Sys.log (EvFix t) w)).
  match goal with |- context [snd (?m w1)] =>
    assert (respects (keeps steps) m) as Hm
      by (unfold SendMessage; frame; auto using sendAttempts_steps with order)
  end.
  apply (Hm w1).
Qed.

Lemma ValidateTest_steps t w :
  steps (snd (ValidateTest t w)) = steps w ++ [EvValidate t].
Proof.
  destruct (ValidateTest_world t w) as (w' & E & _ & _ & _ & _ & _ & Ht).
  rewrite E. cbn [snd]. unfold steps. rewrite Ht. simpl.
  by rewrite reverse_cons.
Qed.

(** The ladder, step by step: [n] validations and [k] repairs, a repair
    after every validation that failed while attempts were left, and a
    validation after every repair that succeeded. *)
Lemma retryLadder_order t N left : forall attempt w v w',
  Z.of_nat left = N + 1 - attempt ->
  retryLadder t N left attempt w = (v, w') ->
  exists n k : nat,
    validations w' = (validations w + n)%nat
    /\ fixes w' = (fixes w + k)%nat
    /\ match v with
       | Broken (Some r) e =>
           k = n /\ (1 <= n <= left - 1)%nat
           /\ steps w' = steps w ++ rounds t n
           /\ verdict (validate_out w (validations w' - 1)%nat) = inl r
           /\ Success r = false
           /\ exists err, e = wrapError "failed to fix test" err
       | _ =>
           (k = (n - 1) `min` (left - 1))%nat /\ (1 <= n <= left + 1)%nat
           /\ steps w' = steps w ++ rounds t k ++ repeat (EvValidate t) (n - k)
       end
    /\ (forall r, v = Checked r -> Success r = false -> n = (left + 1)%nat)
    /\ (forall e, v = Broken None e ->
          verdict (validate_out w (validations w' - 1)%nat) = inr e).
Proof.
  induction left as [|left IH]; intros attempt w v w' Hleft Hrun;
    cbn [retryLadder] in Hrun; unfold bind in Hrun;
    pose proof (ValidateTest_steps t w) as Hs1;
    destruct (ValidateTest_run t w) as (w1 & Hval & Hout1 & Hn1 & Hf1);
    rewrite Hval in Hs1, Hrun; cbn [snd] in Hs1.
  - exists 1%nat, 0%nat.
    destruct (verdict _) as [r|err] eqn:Hv; injection Hrun as <- <-;
      (split; [lia|]); (split; [lia|]);
      (split; [split; [done|]; split; [lia|]; by rewrite Hs1|]);
      (split; [intros; lia|]); intros e [= <-].
    rewrite Hn1.
    by replace (S (validations w) - 1)%nat with (validations w) by lia.
  - destruct (verdict (validate_out w (validations w))) as [r|err] eqn:Hv.
    2:{ injection Hrun as <- <-. exists 1%nat, 0%nat.
        split; [lia|]. split; [lia|].
        split; [split; [lia|]; split; [lia|]; by rewrite Hs1|].
        split; [done|]. intros e [= <-]. rewrite Hn1.
        by replace (S (validations w) - 1)%nat with (validations w) by lia. }
    destruct (Success r) eqn:Hok.
    { injection Hrun as <- <-. exists 1%nat, 0%nat.
      split; [lia|]. split; [lia|].
      split; [split; [lia|]; split; [lia|]; by rewrite Hs1|].
      split; [|done]. intros r' [= <-]. congruence. }
    destruct (Z.ltb_spec attempt N) as [Hlt|Hge].
    + (* attempts are left: repair, then validate again *)
      destruct (FixBrokenTest_counts t (Output r) w1) as [Hfv Hff].
      pose proof (FixBrokenTest_steps t (Output r) w1) as Hs2.
      pose proof (FixBrokenTest_later t (Output r) w1) as Hlater.
      destruct (FixBrokenTest t (Output r) w1) as [[tf|err] w2];
        cbn [fst snd] in *.
      * destruct (IH (attempt + 1) w2 v w')
          as (n & k & Hn & Hk & Hv' & Hex & Hhard); [lia|done|].
        exists (S n), (S k).
        split; [lia|]. split; [lia|].
        assert (steps w2 = (steps w ++ rounds t 1)) as Hs12.
        { rewrite Hs2, Hs1. cbn [rounds]. by rewrite <- app_assoc. }
        assert (validate_out w2 = validate_out w) as Hout2
          by (by rewrite (later_validate _ _ Hlater)).
        split.
        { destruct v as [r'|[r'|] e].
          - destruct Hv' as (-> & Hb & Hst). split; [lia|]. split; [lia|].
            rewrite Hst, Hs12, <- app_assoc.
            replace (S n - S ((n - 1) `min` (left - 1)))%nat
              with (n - (n - 1) `min` (left - 1))%nat by lia.
            reflexivity.
          - destruct Hv' as (-> & Hb & Hst & Hlast & Hfail & Herr).
            split; [done|]. split; [lia|].
            split; [by rewrite Hst, Hs12, <- app_assoc|].
            split; [by rewrite <- Hout2|done].
          - destruct Hv' as (-> & Hb & Hst). split; [lia|]. split; [lia|].
            rewrite Hst, Hs12, <- app_assoc.
            replace (S n - S ((n - 1) `min` (left - 1)))%nat
              with (n - (n - 1) `min` (left - 1))%nat by lia.
            reflexivity. }
        split.
        { intros r' Hr' Hfail'. rewrite (Hex r' Hr' Hfail'). lia. }
        intros e He. rewrite <- Hout2. by apply Hhard.
      * injection Hrun as <- <-. exists 1%nat, 1%nat.
        split; [lia|]. split; [lia|].
        split; [|done].
        split; [done|]. split; [lia|].
        split; [rewrite Hs2, Hs1; cbn [rounds]; by rewrite <- app_assoc|].
        split.
        { rewrite Hfv, Hn1.
          replace (S (validations w) - 1)%nat with (validations w) by lia.
          exact Hv. }
        split; [done|]. by exists err.
    + (* the last pass of the loop: no repair, the validation after it *)
      assert (left = 0%nat) as -> by lia.
      cbn [retryLadder] in Hrun. unfold bind in Hrun.
      pose proof (ValidateTest_steps t w1) as Hs2.
      destruct (ValidateTest_run t w1) as (w2 & Hval2 & Hout2 & Hn2 & Hf2).
      rewrite Hval2 in Hs2, Hrun. cbn [snd] in Hs2.
      exists 2%nat, 0%nat.
      destruct (verdict (validate_out w1 (validations w1))) as [r'|err] eqn:Hv2;
        injection Hrun as <- <-;
        (split; [lia|]); (split; [lia|]);
        (split; [split; [done|]; split; [lia|];
                 rewrite Hs2, Hs1; cbn [rounds repeat Nat.sub app];
                 by rewrite <- app_assoc|]);
        (split; [intros; lia|]); intros e [= <-].
      rewrite Hn2, Hn1.
      replace (S (S (validations w)) - 1)%nat with (S (validations w)) by lia.
      by rewrite <- Hout1, <- Hn1.
Qed.
End Order.

(** ** A unit whose test never passes *)

Section NeverPasses.
Context `{GoLibrary} (analyzer : Analyzer) (cfg : Config).

(** A pass that got a test file for its unit, when none of the four
    validations that [ValidateAndRetry] can make with two repairs passes:
    the unit is put into [FailedFiles], after both repairs if the repairs
    themselves did not fail, and the pass goes on to the next one. *)
Lemma exhausted_pass s w report item rest t :
  Cfg.DryRun cfg = false ->
  coverage_out w (measurements w) = inl report ->
  PrimFloat.leb (Cfg.TargetCoverage cfg) (Cov.TotalCoverage report) = false ->
  prioritizeWorkItems analyzer report s (files w) = item :: rest ->
  ctx_done w (polls w) = false ->
  fst (obtainTest analyzer cfg item
         (fst (measured s w report),
          snd (Sys.Done (snd (measured s w report))))) = inl t ->
  (forall i, (validations w <= i <= validations w + 3)%nat ->
     exists r, verdict (validate_out w i) = inl r /\ Success r = false) ->
  exists st s' w' msg,
    improve analyzer cfg (s, w) = (st, (s', w'))
    /\ FailedFiles s' = <[WI.SourceFile item := msg]> (FailedFiles s)
    /\ ProcessedFiles s' = ProcessedFiles s
    /\ ((exists r, verdict (validate_out w (validations w + 3)%nat) = inl r
                   /\ msg = ErrorMessage r
                   /\ fixes w' = (fixes w + 2)%nat
                   /\ validations w' = (validations w + 4)%nat)
        \/ (exists e, msg = Error (wrapError "validation error"
                                    (wrapError "failed to fix test" e))
                      /\ (fixes w < fixes w' <= fixes w + 2)%nat
                      /\ validations w' = (validations w + (fixes w' - fixes w))%nat))
    /\ (st = Continue
        \/ exists e, st = Return (Some (wrapError "failed to save state" e)))
    /\ (forall n analyzer' cfg' report' fs,
          WI.SourceFile item
          ∉ WI.SourceFile
              <$> prioritizeWorkItems analyzer' report'
                    (fst (passes analyzer' cfg' n (s', w'))) fs).
Proof.
  intros Hdry Hcov Hleb Hprio Hctx Hmade Hnever.
  pose proof (improve_unfold analyzer cfg s w report Hcov) as Himp.
  rewrite Hleb, Hprio in Himp.
  destruct (measured s w report) as [s1 w1] eqn:Hm.
  pose proof (measured_world s w report) as Hw. rewrite Hm in Hw.
  pose proof (measured_ledgers s w report) as Hl. rewrite Hm in Hl.
  cbn [fst snd] in Hw, Hl, Hmade.
  destruct Hw as (Hlater & _ & Hvs & _ & Hpl & _ & _ & _ & _ & Htr).
  destruct Hl as (Hp1 & Hf1 & _).
  rewrite processFile_live in Himp by (by rewrite (later_ctx _ _ Hlater), Hpl).
  cbv zeta in Himp.
  destruct (Done_world w1) as (_ & Hv2 & _ & Ht2).
  assert (later w1 (snd (Sys.Done w1))) as Hld by apply Done_later.
  set (w2 := snd (Sys.Done w1)) in *.
  destruct (obtainTest analyzer cfg item (s1, w2)) as [made [s3 w3]] eqn:Hobt.
  cbn [fst snd] in Hmade, Himp. subst made.
  pose proof (wp_run _ _ _ _ _ Hobt (obtainTest_spec analyzer cfg item s1 w2))
    as (Hl3 & _ & Hp3 & Hf3 & _).
  pose proof (respects_run _ _ _ _ _ (obtainTest_aside analyzer cfg item) Hobt)
    as [Hv3 Hx3].
  cbn [fst snd] in Hl3, Hp3, Hf3, Hv3, Hx3.
  assert (validate_out w3 = validate_out w) as Hout3.
  { by rewrite (later_validate _ _ Hl3), (later_validate _ _ Hld),
      (later_validate _ _ Hlater). }
  assert (validations w3 = validations w) as Hn3 by congruence.
  assert (fixes w3 = fixes w) as Hfx3.
  { rewrite Hx3. unfold fixes. by rewrite Ht2, Htr. }
  rewrite checkAndRecord_live in Himp by done. cbv zeta in Himp.
  destruct (ValidateAndRetry t 2 w3) as [v w4] eqn:E.
  cbn [fst snd] in Himp.
  pose proof E as E'. unfold ValidateAndRetry in E, E'.
  apply retryLadder_spec in E as (_ & Hv4 & _ & _ & Hlast & _).
  apply retryLadder_order in E' as (n & k & Hn & Hk & Hshape & Hex & Hhard);
    [|reflexivity].
  change (Z.to_nat (2 + 1)) with 3%nat in *.
  rewrite Hout3 in Hlast, Hshape, Hhard.
  rewrite Hn3 in Hv4, Hn. rewrite Hfx3 in Hk.
  assert (exists msg s4,
            recorded cfg item
              match v with
              | Checked r =>
                  if Success r
                  then (None, (MarkFileProcessed (WI.SourceFile item) s3, w4))
                  else (None, (MarkFileFailed (WI.SourceFile item)
                                 (ErrorMessage r) s3, w4))
              | Broken _ err =>
                  (Some (wrapError "validation error" err), (s3, w4))
              end
            = saveAndContinue cfg (s4, w4)
            /\ FailedFiles s4 = <[WI.SourceFile item := msg]> (FailedFiles s)
            /\ ProcessedFiles s4 = ProcessedFiles s
            /\ ((exists r, verdict (validate_out w (validations w + 3)%nat)
                           = inl r
                           /\ msg = ErrorMessage r
                           /\ fixes w4 = (fixes w + 2)%nat
                           /\ validations w4 = (validations w + 4)%nat)
                \/ (exists e, msg = Error (wrapError "validation error"
                                            (wrapError "failed to fix test" e))
                              /\ (fixes w < fixes w4 <= fixes w + 2)%nat
                              /\ validations w4
                                 = (validations w + (fixes w4 - fixes w))%nat)))
    as (msg & s4 & Hrec & Hf4 & Hp4 & Hmsg).
  { destruct v as [r|[r|] err].
    - pose proof (Hlast r eq_refl) as Hr.
      destruct (Hnever (validations w4 - 1)%nat) as (r' & Hr' & Hs'); [lia|].
      rewrite Hr in Hr'. injection Hr' as <-. rewrite Hs'.
      pose proof (Hex r eq_refl Hs') as ->.
      destruct Hshape as (-> & _).
      exists (ErrorMessage r), (MarkFileFailed (WI.SourceFile item)
                                  (ErrorMessage r) s3).
      split; [reflexivity|].
      split; [rewrite <- Hf1, <- Hf3; by destruct s3|].
      split; [rewrite <- Hp1, <- Hp3; by destruct s3|].
      left. exists r. rewrite Hn in Hr.
      replace (validations w + (3 + 1) - 1)%nat with (validations w + 3)%nat
        in Hr by lia.
      split; [exact Hr|]. split; [done|]. split; [lia|lia].
    - destruct Hshape as (-> & Hb & _ & _ & _ & e & ->).
      eexists _, (MarkFileFailed (WI.SourceFile item) _ s3).
      split; [reflexivity|].
      split; [rewrite <- Hf1, <- Hf3; by destruct s3|].
      split; [rewrite <- Hp1, <- Hp3; by destruct s3|].
      right. exists e. split; [done|]. split; lia.
    - (* a hard error of a validation: none of the four is one *)
      pose proof (Hhard err eq_refl) as Hbad.
      destruct (Hnever (validations w4 - 1)%nat) as (r' & Hr' & _); [lia|].
      congruence. }
  rewrite Hrec in Himp.
  destruct (saveAndContinue cfg (s4, w4)) as [st [s' w']] eqn:Hsave.
  exists st, s', w', msg. split; [exact Himp|].
  apply saveAndContinue_run in Hsave as (-> & _ & _ & Hv5 & _ & _ & Hst).
  destruct (stamped_fields s4 w4) as (Hp & Hf & _).
  split; [congruence|]. split; [congruence|].
  assert (fixes w' = fixes w4) as Hx5.
  { destruct Hst as [(_ & doc & _ & _ & Ht)|(e' & _ & _ & Ht)];
      unfold fixes; by rewrite Ht. }
  split.
  { rewrite Hx5, Hv5. exact Hmsg. }
  split.
  { destruct Hst as [(-> & _)|(e' & -> & _)]; [by left|right; by exists e']. }
  intros n' analyzer' cfg' report' fs.
  apply classified_not_prioritized. right.
  pose proof (passes_advances analyzer' cfg' n' (stamped s4 w4, w')) as Hadv.
  exists msg. apply (adv_failed _ _ Hadv). cbn [fst].
  by rewrite Hf, Hf4, lookup_insert_eq.
Qed.
End NeverPasses.

Section Repairs2.
Context `{GoLibrary} (analyzer : Analyzer) (cfg : Config).

(** C5.  With [maxRetries = N >= 0], [ValidateAndRetry] validates; after a
    validation that failed it enters the repair function with the output,
    as long as fewer than [N] repairs were made, and validates again after
    a repair that succeeded: the validations and repairs it makes are [k]
    rounds of a validation and a repair, then one validation, or two when
    all [N] repairs were made.  So it repairs at most [N] times and
    validates at most [N + 2] times; every validation but the last one has
    failed, so it stops at the first success; a result it returns is the
    one of its last validation, and it returns a failed result only after
    all [N] repairs and [N + 2] validations.  An error it returns is the
    hard error of its last validation, or the error of a repair (with the
    result before it), in which case it stops at that repair.  The
    orchestrator calls it with [N = 2]: a unit with a test file of which
    none of the four validations passes is put into [FailedFiles] in that
    pass, after exactly two repairs if no repair itself fails, and the
    prioritizer never gives it out again. *)
Theorem ValidateAndRetry_at_most_N_repairs (N : Z) :
  0 <= N ->
  (forall t w,
     let res := ValidateAndRetry t N w in
     Z.of_nat (fixes (snd res)) <= Z.of_nat (fixes w) + N
     /\ (validations w < validations (snd res)
                       <= validations w + Z.to_nat N + 2)%nat
     /\ (forall r, fst res = Checked r ->
           verdict (validate_out w (validations (snd res) - 1)%nat) = inl r)
     /\ (forall i, (validations w <= i < validations (snd res) - 1)%nat ->
           exists r, verdict (validate_out w i) = inl r /\ Success r = false)
     /\ ((validations (snd res) = validations w + Z.to_nat N + 2)%nat ->
         fst res
         = match verdict (validate_out w (validations w + Z.to_nat N + 1)%nat)
           with
           | inl r => Checked r
           | inr e => Broken None e
           end)
     /\ exists n k : nat,
          validations (snd res) = (validations w + n)%nat
          /\ fixes (snd res) = (fixes w + k)%nat
          /\ match fst res with
             | Broken (Some r) e =>
                 k = n /\ (1 <= n <= Z.to_nat N)%nat
                 /\ steps (snd res) = steps w ++ rounds t n
                 /\ verdict (validate_out w (validations (snd res) - 1)%nat)
                    = inl r
                 /\ Success r = false
                 /\ exists err, e = wrapError "failed to fix test" err
             | _ =>
                 (k = (n - 1) `min` Z.to_nat N)%nat
                 /\ (1 <= n <= Z.to_nat N + 2)%nat
                 /\ steps (snd res)
                    = steps w ++ rounds t k ++ repeat (EvValidate t) (n - k)
             end
          /\ (forall r, fst res = Checked r -> Success r = false ->
                n = (Z.to_nat N + 2)%nat /\ k = Z.to_nat N)
          /\ (forall e, fst res = Broken None e ->
                verdict (validate_out w (validations (snd res) - 1)%nat)
                = inr e))
  /\ (forall s w report item rest t,
        Cfg.DryRun cfg = false ->
        coverage_out w (measurements w) = inl report ->
        PrimFloat.leb (Cfg.TargetCoverage cfg) (Cov.TotalCoverage report)
        = false ->
        prioritizeWorkItems analyzer report s (files w) = item :: rest ->
        ctx_done w (polls w) = false ->
        fst (obtainTest analyzer cfg item
               (fst (measured s w report),
                snd (Sys.Done (snd (measured s w report))))) = inl t ->
        (forall i, (validations w <= i <= validations w + 3)%nat ->
           exists r, verdict (validate_out w i) = inl r /\ Success r = false) ->
        exists st s' w' msg,
          improve analyzer cfg (s, w) = (st, (s', w'))
          /\ FailedFiles s' = <[WI.SourceFile item := msg]> (FailedFiles s)
          /\ ProcessedFiles s' = ProcessedFiles s
          /\ ((exists r, verdict (validate_out w (validations w + 3)%nat) = inl r
                         /\ msg = ErrorMessage r
                         /\ fixes w' = (fixes w + 2)%nat
                         /\ validations w' = (validations w + 4)%nat)
              \/ (exists e, msg = Error (wrapError "validation error"
                                          (wrapError "failed to fix test" e))
                            /\ (fixes w < fixes w' <= fixes w + 2)%nat
                            /\ validations w'
                               = (validations w + (fixes w' - fixes w))%nat))
          /\ (st = Continue
              \/ exists e,
                   st = Return (Some (wrapError "failed to save state" e)))
          /\ (forall n analyzer' cfg' report' fs,
                WI.SourceFile item
                ∉ WI.SourceFile
                    <$> prioritizeWorkItems analyzer' report'
                          (fst (passes analyzer' cfg' n (s', w'))) fs)).
Proof.
  intros HN. split; [|apply exhausted_pass].
  intros t w res. subst res.
  assert (Z.to_nat (N + 1) = S (Z.to_nat N)) as Hleft by lia.
  destruct (ValidateAndRetry t N w) as [v w'] eqn:E. cbn [fst snd].
  pose proof E as E'. pose proof E as E''. unfold ValidateAndRetry in E, E', E''.
  apply retryLadder_spec in E as (_ & Hv & Hfz & _ & Hlast & Hbefore).
  split; [lia|]. split; [lia|]. split; [exact Hlast|].
  split; [exact Hbefore|].
  split.
  { intros Hall.
    rewrite (retryLadder_exhausted _ _ _ _ _ _ _ E') by lia.
    by replace (validations w + Z.to_nat (N + 1))%nat
      with (validations w + Z.to_nat N + 1)%nat by lia. }
  apply retryLadder_order in E'' as (n & k & Hn & Hk & Hshape & Hex & Hhard);
    [|lia].
  rewrite Hleft in Hshape, Hex.
  exists n, k. split; [exact Hn|]. split; [exact Hk|].
  split.
  { destruct v as [r|[r|] e].
    - destruct Hshape as (Hk' & Hb & Hst).
      split; [lia|]. split; [lia|done].
    - destruct Hshape as (Hk' & Hb & Hst).
      split; [done|]. split; [lia|done].
    - destruct Hshape as (Hk' & Hb & Hst).
      split; [lia|]. split; [lia|done]. }
  split; [|exact Hhard].
  intros r -> Hfail. pose proof (Hex r eq_refl Hfail) as ->.
  destruct Hshape as (-> & _). lia.
Qed.
End Repairs2.

Lemma never_passing_unit :
  0 <= 2
  /\ (let res := ValidateAndRetry "a_test.go" 2 neverPasses in
      fst res
      = Checked (mkResult false true false "--- FAIL: TestA" "Tests failed")
      /\ validations (snd res) = 4%nat
      /\ fixes (snd res) = 2%nat
      /\ steps (snd res)
         = [EvValidate "a_test.go"; EvFix "a_test.go";
            EvValidate "a_test.go"; EvFix "a_test.go";
            EvValidate "a_test.go"; EvValidate "a_test.go"])
  /\ exists st s' w',
       improve GoAnalyzer cfgTwoPasses neverPassesStart = (st, (s', w'))
       /\ st = Continue
       /\ FailedFiles s' !! "a.go" = Some "Tests failed"
       /\ ProcessedFiles s' = ∅
       /\ fixes w' = 2%nat
       /\ validations w' = 4%nat
       /\ "a.go" ∉ WI.SourceFile
                     <$> prioritizeWorkItems GoAnalyzer (reportAt 65%float)
                           s' (files w').
Proof.
  assert (0 <= 2) as HN by lia.
  destruct (ValidateAndRetry_at_most_N_repairs GoAnalyzer cfgTwoPasses 2 HN)
    as [Hladder Hpass].
  split; [exact HN|]. split.
  { destruct (Hladder "a_test.go" neverPasses)
      as (_ & _ & _ & _ & _ & n & k & Hn & Hk & Hshape & Hex & _).
    assert (fst (ValidateAndRetry "a_test.go" 2 neverPasses)
            = Checked (mkResult false true false "--- FAIL: TestA"
                         "Tests failed")) as Hres by (vm_compute; reflexivity).
    rewrite Hres in Hshape, Hex.
    destruct (Hex _ eq_refl eq_refl) as [-> ->].
    destruct Hshape as (_ & _ & Hst).
    split; [exact Hres|]. split; [exact Hn|]. split; [exact Hk|]. exact Hst. }
  assert (prioritizeWorkItems GoAnalyzer (reportAt 65%float)
            (fst neverPassesStart) (files (snd neverPassesStart))
          = dryItem
            :: [WI.mkWorkItem "b.go" "b_test.go" 20%float [7] 80 false;
                WI.mkWorkItem "c.go" "c_test.go" 30%float [1; 2; 9] 70 false])
    as Hprio by (vm_compute; reflexivity).
  assert (fst (obtainTest GoAnalyzer cfgTwoPasses dryItem
                 (fst (measured (fst neverPassesStart) (snd neverPassesStart)
                         (reportAt 65%float)),
                  snd (Sys.Done
                         (snd (measured (fst neverPassesStart)
                                 (snd neverPassesStart) (reportAt 65%float))))))
          = inl "a_test.go") as Hmade by (vm_compute; reflexivity).
  destruct (Hpass (fst neverPassesStart) (snd neverPassesStart)
              (reportAt 65%float) dryItem _ "a_test.go"
              eq_refl eq_refl eq_refl Hprio eq_refl Hmade)
    as (st & s' & w' & msg & Himp & Hf & Hp & Hmsg & Hst & Hex).
  { intros i _. eexists. split; reflexivity. }
  rewrite <- surjective_pairing in Himp.
  assert (fst (improve GoAnalyzer cfgTwoPasses neverPassesStart) = Continue
          /\ FailedFiles
               (fst (snd (improve GoAnalyzer cfgTwoPasses neverPassesStart)))
             !! "a.go" = Some "Tests failed") as [Hgo Hwhy]
    by (split; vm_compute; reflexivity).
  rewrite Himp in Hgo, Hwhy. cbn [fst snd] in Hgo, Hwhy.
  rewrite Hf, lookup_insert_eq in Hwhy. injection Hwhy as ->.
  exists st, s', w'.
  split; [exact Himp|]. split; [exact Hgo|].
  split; [rewrite Hf; apply lookup_insert_eq|].
  split; [exact Hp|].
  destruct Hmsg as [(r & _ & _ & Hfx & Hv)|(e & Hbad & _)].
  - split; [exact Hfx|]. split; [exact Hv|].
    exact (Hex 0%nat GoAnalyzer cfgTwoPasses (reportAt 65%float) (files w')).
  - vm_compute in Hbad. discriminate Hbad.
Defined.

(** ** At the target, and just below it *)

Section Margin.
Context `{GoLibrary} (analyzer : Analyzer) (cfg : Config).

(** The event with which the generator is entered for a work item. *)
Definition entered (item : WorkItem) : Event :=
  if WI.Exists item then EvImprove (WI.SourceFile item)
  else EvGenerate (WI.SourceFile item).

Lemma GenerateTestForFile_enters f w :
  trace (snd (Sys.log (EvGenerate f) w))
    `suffix_of` trace (snd (GenerateTestForFile analyzer f w)).
Proof.
  unfold GenerateTestForFile. rewrite bind_snd. cbv beta.
  set (w1 := snd (Sys.log (EvGenerate f) w)).
  match goal with |- context [snd (?m w1)] =>
    assert (respects later m) as Hm by (frame; auto with frame)
  end.
  apply (later_trace _ _ (Hm w1)).
Qed.

Lemma ImproveExistingTest_enters f t w :
  trace (snd (Sys.log (EvImprove f) w))
    `suffix_of` trace (snd (ImproveExistingTest f t w)).
Proof.
  unfold ImproveExistingTest. rewrite bind_snd. cbv beta.
  set (w1 := snd (Sys.log (EvImprove f) w)).
  match goal with |- context [snd (?m w1)] =>
    assert (respects later m) as Hm by (frame; auto with frame)
  end.
  apply (later_trace _ _ (Hm w1)).
Qed.

Lemma log_trace e w : trace (snd (Sys.log e w)) = e :: trace w.
Proof. by destruct w. Qed.

(** Outside a dry run the first thing [obtainTest] leaves in the trace is
    the entry of the generator. *)
Lemma obtainTest_enters item s w :
  Cfg.DryRun cfg = false ->
  (entered item :: trace w)
    `suffix_of` trace (snd (snd (obtainTest analyzer cfg item (s, w)))).
Proof.
  intros Hdry. unfold obtainTest, entered. rewrite Hdry. cbn [negb].
  destruct (WI.Exists item); cbn [negb].
  - apply (wp_bind _ _ (fun _ sw' => _ `suffix_of` trace (snd sw'))), wp_lift.
    intros now w2 E2. apply Now_run in E2 as (_ & _ & _ & _ & _ & _ & Ht2 & _).
    apply wp_bind, wp_update, wp_bind, wp_lift. intros g w3 E3.
    pose proof (ImproveExistingTest_enters (WI.SourceFile item)
                  (WI.TestFile item) w2) as Hs.
    rewrite E3, log_trace, Ht2 in Hs. cbn [snd] in Hs.
    destruct g; [apply wp_bind, wp_update|]; apply wp_ret; exact Hs.
  - apply (wp_bind _ _ (fun _ sw' => _ `suffix_of` trace (snd sw'))), wp_lift.
    intros now w2 E2. apply Now_run in E2 as (_ & _ & _ & _ & _ & _ & Ht2 & _).
    apply wp_bind, wp_update, wp_bind, wp_lift. intros g w3 E3.
    pose proof (GenerateTestForFile_enters (WI.SourceFile item) w2) as Hs.
    rewrite E3, log_trace, Ht2 in Hs. cbn [snd] in Hs.
    destruct g; [apply wp_bind, wp_update|]; apply wp_ret; exact Hs.
Qed.

(** A pass below the target that has a work item does not return for the
    target: it goes on to [processFile], saves and goes round again. *)
Lemma improve_below_target s w report item rest :
  coverage_out w (measurements w) = inl report ->
  PrimFloat.leb (Cfg.TargetCoverage cfg) (Cov.TotalCoverage report) = false ->
  prioritizeWorkItems analyzer report s (files w) = item :: rest ->
  exists st s' w',
    improve analyzer cfg (s, w) = (st, (s', w'))
    /\ (st = Continue
        \/ exists e, st = Return (Some (wrapError "failed to save state" e)))
    /\ (Cfg.DryRun cfg = false -> ctx_done w (polls w) = false ->
        exists l, trace w' = l ++ entered item :: EvCoverage :: trace w).
Proof.
  intros Hcov Hleb Hprio.
  pose proof (improve_unfold analyzer cfg s w report Hcov) as Himp.
  rewrite Hleb, Hprio in Himp.
  destruct (measured s w report) as [s1 w1] eqn:Hm.
  pose proof (measured_world s w report) as Hw. rewrite Hm in Hw.
  cbn [fst snd] in Hw.
  destruct Hw as (Hlater & _ & _ & _ & Hpl & _ & _ & _ & _ & Htr).
  assert (forall sw st s' w',
            saveAndContinue cfg sw = (st, (s', w')) ->
            (st = Continue
             \/ exists e, st = Return (Some (wrapError "failed to save state" e)))
            /\ later (snd sw) w') as Hsave.
  { intros [s3 w3] st s' w' E.
    apply saveAndContinue_run in E as (_ & Hl & _ & _ & _ & _ & Hst).
    split; [|exact Hl].
    destruct Hst as [(-> & _)|(e & -> & _)]; [by left|right; by exists e]. }
  destruct (improve analyzer cfg (s, w)) as [st [s' w']].
  exists st, s', w'. split; [done|].
  assert (exists sw, saveAndContinue cfg sw = (st, (s', w'))
                     /\ later (snd (snd (processFile analyzer cfg item (s1, w1))))
                              (snd sw)) as (sw & Hsw & Hlsw).
  { unfold recorded in Himp.
    destruct (fst (processFile analyzer cfg item (s1, w1))) as [err|].
    - destruct (asRateLimitError err) as [[resetTime ?]|];
        eexists; (split; [symmetry; exact Himp|]); reflexivity.
    - eexists. split; [symmetry; exact Himp|]. reflexivity. }
  destruct (Hsave _ _ _ _ Hsw) as [Hst Hl']. split; [exact Hst|].
  intros Hdry Hctx.
  assert (later (snd (snd (processFile analyzer cfg item (s1, w1)))) w')
    as Hend by (by etrans).
  clear Himp Hsw Hlsw Hl'.
  rewrite processFile_live in Hend
    by (by rewrite (later_ctx _ _ Hlater), Hpl).
  cbv zeta in Hend.
  destruct (Done_world w1) as (_ & _ & _ & Ht2).
  pose proof (obtainTest_enters item s1 (snd (Sys.Done w1)) Hdry) as Hent.
  rewrite Ht2, Htr in Hent.
  destruct (obtainTest analyzer cfg item (s1, snd (Sys.Done w1)))
    as [made [s3 w3]]. cbn [fst snd] in *.
  assert (later w3 w') as Hl3.
  { destruct made as [t|err]; [|exact Hend].
    etrans; [|exact Hend].
    assert (wp (checkAndRecord cfg item t)
              (fun r sw' => processed cfg item s3 w3 r (fst sw') (snd sw'))
              (s3, w3)) as Hc
      by (apply checkAndRecord_spec; [reflexivity|by repeat split|done|done]).
    unfold wp in Hc. by destruct Hc. }
  destruct (later_trace _ _ Hl3) as [l2 Hl2].
  destruct Hent as [l1 Hl1].
  exists (l2 ++ l1). by rewrite Hl2, Hl1, <- app_assoc.
Qed.

(** C6.  The pass stops for the target exactly when the measurement is at
    or above it, by [>=] on [float64] and with no margin.  A pass whose
    measurement is at or above the target saves the state and makes [Run]
    return in that pass; between the measurement and the return nothing is
    generated, validated or written but the state file.  A pass whose
    measurement is below the target, by however little, and that has a work
    item does not return for the target: the next thing it does, unless it
    is a dry run or cancelled, is to enter the generator for that item, and
    it ends by saving the state and going round again. *)
Theorem improve_stops_at_target (s : State) (w : World) (report : CoverageReport) :
  coverage_out w (measurements w) = inl report ->
  (PrimFloat.leb (Cfg.TargetCoverage cfg) (Cov.TotalCoverage report) = true ->
   exists e s' w',
     improve analyzer cfg (s, w) = (Return e, (s', w'))
     /\ (forall fuel s0 w0,
           (CurrentIteration s0 <? Cfg.MaxIterations cfg) = true ->
           awaitTurn cfg (s0, w0) = (None, (s, w)) ->
           mainLoop analyzer cfg (S fuel) (s0, w0) = (Finished e, (s', w')))
     /\ CurrentIteration s' = CurrentIteration s + 1
     /\ CurrentCoverage s' = Cov.TotalCoverage report
     /\ APICallCount s' = APICallCount s
     /\ ProcessedFiles s' = ProcessedFiles s /\ FailedFiles s' = FailedFiles s
     /\ requests w' = requests w /\ validations w' = validations w
     /\ files w' = files w /\ measurements w' = S (measurements w)
     /\ match e with
        | None =>
            exists doc,
              trace w' = EvSaveState (Cfg.StateFile cfg) doc
                           :: EvCoverage :: trace w
              /\ state_files w' !! Cfg.StateFile cfg = Some doc
              /\ Json.unmarshal_state doc = Some s'
        | Some _ => trace w' = EvCoverage :: trace w
        end)
  /\ (PrimFloat.leb (Cfg.TargetCoverage cfg) (Cov.TotalCoverage report) = false ->
      forall item rest,
        prioritizeWorkItems analyzer report s (files w) = item :: rest ->
        exists st s' w',
          improve analyzer cfg (s, w) = (st, (s', w'))
          /\ (st = Continue
              \/ exists e,
                   st = Return (Some (wrapError "failed to save state" e)))
          /\ measurements w' = S (measurements w)
          /\ (Cfg.DryRun cfg = false -> ctx_done w (polls w) = false ->
              exists l, trace w' = l ++ entered item :: EvCoverage :: trace w)).
Proof.
  intros Hcov. split.
  - intros Hleb. by apply improve_at_target.
  - intros Hleb item rest Hprio.
    destruct (improve_below_target s w report item rest Hcov Hleb Hprio)
      as (st & s' & w' & Himp & Hst & Hgen).
    exists st, s', w'. split; [exact Himp|]. split; [exact Hst|].
    split; [|exact Hgen].
    destruct (improve_spent analyzer cfg (s, w)) as (_ & Hm & _).
    rewrite Himp in Hm. cbn [fst snd] in Hm. lia.
Qed.
End Margin.

(** A session that measures 79.5 first, half a point below its target of
    80, and 80 after that. *)
Definition nearTarget : World :=
  with_http (fun _ => okReply)
    (with_coverage
       (answers [inl (reportAt 79.5%float); inl (reportAt 79.5%float)]
                (inl (reportAt 80%float)))
       quietWorld).

(** The states and the worlds in which its first and its second pass
    measure. *)
Definition nearFirst : State * World :=
  snd (awaitTurn cfg80
         (snd (analyseFirst cfg80 (New GoAnalyzer cfg80 nearTarget)))).

Definition nearSecond : State * World :=
  snd (awaitTurn cfg80 (snd (improve GoAnalyzer cfg80 nearFirst))).

Lemma scenario_65_70_82 :
  (coverage_out (snd thirdPass) (measurements (snd thirdPass))
   = inl (reportAt 82%float)
   /\ PrimFloat.leb (Cfg.TargetCoverage cfg80) 82%float = true)
  /\ (exists e s' w',
        improve GoAnalyzer cfg80 thirdPass = (Return e, (s', w'))
        /\ requests w' = requests (snd thirdPass)
        /\ CurrentIteration s' = 3)
  /\ (let '(r, s, w) := main GoAnalyzer cfg80 false scenarioWorld in
      r = Finished None
      /\ CurrentIteration s = 3
      /\ Coverage <$> CoverageHistory s = [65; 65; 70; 82]%float
      /\ Iteration <$> CoverageHistory s = [0; 1; 2; 3]
      /\ measurements w = 4%nat
      /\ requests w = 2%nat
      /\ APICallCount s = 2
      /\ GeneratedTests s = ["a_test.go"; "b_test.go"])
  /\ (coverage_out (snd nearFirst) (measurements (snd nearFirst))
      = inl (reportAt 79.5%float)
      /\ PrimFloat.leb (Cfg.TargetCoverage cfg80) 79.5%float = false)
  /\ (exists s' w' l,
        improve GoAnalyzer cfg80 nearFirst = (Continue, (s', w'))
        /\ trace w'
           = l ++ EvGenerate "a.go" :: EvCoverage :: trace (snd nearFirst)
        /\ requests w' = S (requests (snd nearFirst)))
  /\ (coverage_out (snd nearSecond) (measurements (snd nearSecond))
      = inl (reportAt 80%float)
      /\ PrimFloat.leb (Cfg.TargetCoverage cfg80) 80%float = true)
  /\ (exists e s' w',
        improve GoAnalyzer cfg80 nearSecond = (Return e, (s', w'))
        /\ requests w' = requests (snd nearSecond)
        /\ CurrentIteration s' = 2)
  /\ (let '(r, s, w) := main GoAnalyzer cfg80 false nearTarget in
      r = Finished None
      /\ CurrentIteration s = 2
      /\ Coverage <$> CoverageHistory s = [79.5; 79.5; 80]%float
      /\ measurements w = 3%nat
      /\ requests w = 1%nat
      /\ GeneratedTests s = ["a_test.go"]).
Proof.
  assert (coverage_out (snd thirdPass) (measurements (snd thirdPass))
          = inl (reportAt 82%float)) as Hcov by (vm_compute; reflexivity).
  assert (PrimFloat.leb (Cfg.TargetCoverage cfg80)
            (Cov.TotalCoverage (reportAt 82%float)) = true) as Hleb
    by reflexivity.
  split; [exact (conj Hcov Hleb)|]. split.
  { destruct (improve_stops_at_target GoAnalyzer cfg80
                (fst thirdPass) (snd thirdPass) _ Hcov) as [Hstop _].
    destruct (Hstop Hleb)
      as (e & s' & w' & Himp & _ & Hit & _ & _ & _ & _ & Hrq & _).
    exists e, s', w'. rewrite <- surjective_pairing in Himp.
    split; [exact Himp|]. split; [exact Hrq|]. rewrite Hit.
    vm_compute. reflexivity. }
  split; [vm_compute; repeat split; reflexivity|].
  assert (coverage_out (snd nearFirst) (measurements (snd nearFirst))
          = inl (reportAt 79.5%float)) as Hcov1 by (vm_compute; reflexivity).
  assert (PrimFloat.leb (Cfg.TargetCoverage cfg80)
            (Cov.TotalCoverage (reportAt 79.5%float)) = false) as Hleb1
    by reflexivity.
  split; [exact (conj Hcov1 Hleb1)|]. split.
  { destruct (improve_stops_at_target GoAnalyzer cfg80
                (fst nearFirst) (snd nearFirst) _ Hcov1) as [_ Hon].
    assert (prioritizeWorkItems GoAnalyzer (reportAt 79.5%float)
              (fst nearFirst) (files (snd nearFirst))
            = dryItem
              :: [WI.mkWorkItem "b.go" "b_test.go" 20%float [7] 80 false;
                  WI.mkWorkItem "c.go" "c_test.go" 30%float [1; 2; 9] 70 false])
      as Hprio by (vm_compute; reflexivity).
    destruct (Hon Hleb1 dryItem _ Hprio)
      as (st & s' & w' & Himp & _ & _ & Hgen).
    rewrite <- surjective_pairing in Himp.
    destruct (Hgen eq_refl) as [l Hl]; [vm_compute; reflexivity|].
    assert (fst (improve GoAnalyzer cfg80 nearFirst) = Continue
            /\ requests (snd (snd (improve GoAnalyzer cfg80 nearFirst)))
               = S (requests (snd nearFirst))) as [Hst Hrq]
      by (split; vm_compute; reflexivity).
    rewrite Himp in Hst, Hrq. cbn [fst snd] in Hst, Hrq. subst st.
    exists s', w', l. split; [exact Himp|]. split; [exact Hl|exact Hrq]. }
  assert (coverage_out (snd nearSecond) (measurements (snd nearSecond))
          = inl (reportAt 80%float)) as Hcov2 by (vm_compute; reflexivity).
  assert (PrimFloat.leb (Cfg.TargetCoverage cfg80)
            (Cov.TotalCoverage (reportAt 80%float)) = true) as Hleb2
    by reflexivity.
  split; [exact (conj Hcov2 Hleb2)|]. split.
  { destruct (improve_stops_at_target GoAnalyzer cfg80
                (fst nearSecond) (snd nearSecond) _ Hcov2) as [Hstop _].
    destruct (Hstop Hleb2)
      as (e & s' & w' & Himp & _ & Hit & _ & _ & _ & _ & Hrq & _).
    exists e, s', w'. rewrite <- surjective_pairing in Himp.
    split; [exact Himp|]. split; [exact Hrq|]. rewrite Hit.
    vm_compute. reflexivity. }
  vm_compute. repeat split; reflexivity.
Defined.

(** ** A tool chain that cannot be run *)

(** [SwiftAnalyzer.RunTests] and [SwiftAnalyzer.ValidateTestFile], given
    what [swift build --build-tests] and [swift test] came to. *)
Definition Swift_RunTests (err : option error) (stdout stderr : string)
    : bool * string * option error :=
  (match err with None => true | Some _ => false end, stdout +:+ stderr, None).

Definition Swift_ValidateTestFile (build : option error) (buildStderr : string)
    (test : option error) (stdout stderr : string)
    : bool * string * option error :=
  match build with
  | Some _ => (false, "Compilation failed: " +:+ buildStderr, None)
  | None => Swift_RunTests test stdout stderr
  end.

(** [PythonAnalyzer.RunTests] and [ValidateTestFile], given what [pytest]
    came to. *)
Definition Python_RunTests (err : option error) (stdout stderr : string)
    : bool * string * option error :=
  (match err with None => true | Some _ => false end, stdout +:+ stderr, None).

Definition Python_ValidateTestFile (err : option error)
    (stdout stderr : string) : bool * string * option error :=
  Python_RunTests err stdout stderr.

(** [TypeScriptAnalyzer.RunTests] and [ValidateTestFile], given what the
    test command ([npm test] or [yarn test]) came to. *)
Definition TypeScript_RunTests (err : option error) (stdout stderr : string)
    : bool * string * option error :=
  (match err with None => true | Some _ => false end, stdout +:+ stderr, None).

Definition TypeScript_ValidateTestFile (err : option error)
    (stdout stderr : string) : bool * string * option error :=
  TypeScript_RunTests err stdout stderr.

(** [JavaAnalyzer.RunTests] and [ValidateTestFile], given what the build
    tool ([mvn], [./gradlew] or [gradle]) came to. *)
Definition Java_RunTests (err : option error) (stdout stderr : string)
    : bool * string * option error :=
  (match err with None => true | Some _ => false end, stdout +:+ stderr, None).

Definition Java_ValidateTestFile (err : option error)
    (stdout stderr : string) : bool * string * option error :=
  Java_RunTests err stdout stderr.

(** What an analyzer of the repository returns from [ValidateTestFile]. *)
Inductive analyzerOutput : bool * string * option error -> Prop :=
| GoOutput build buildStderr test stdout stderr :
    analyzerOutput (Go_ValidateTestFile build buildStderr test stdout stderr)
| SwiftOutput build buildStderr test stdout stderr :
    analyzerOutput (Swift_ValidateTestFile build buildStderr test stdout stderr)
| PythonOutput err stdout stderr :
    analyzerOutput (Python_ValidateTestFile err stdout stderr)
| TypeScriptOutput err stdout stderr :
    analyzerOutput (TypeScript_ValidateTestFile err stdout stderr)
| JavaOutput err stdout stderr :
    analyzerOutput (Java_ValidateTestFile err stdout stderr).

(** What it returns when the first command it runs could not be run, or
    failed: [cmd.Run] returned the error [e]. *)
Inductive unrunnable : bool * string * option error -> Prop :=
| GoUnrunnable e buildStderr test stdout stderr :
    unrunnable (Go_ValidateTestFile (Some e) buildStderr test stdout stderr)
| SwiftUnrunnable e buildStderr test stdout stderr :
    unrunnable (Swift_ValidateTestFile (Some e) buildStderr test stdout stderr)
| PythonUnrunnable e stdout stderr :
    unrunnable (Python_ValidateTestFile (Some e) stdout stderr)
| TypeScriptUnrunnable e stdout stderr :
    unrunnable (TypeScript_ValidateTestFile (Some e) stdout stderr)
| JavaUnrunnable e stdout stderr :
    unrunnable (Java_ValidateTestFile (Some e) stdout stderr).

(** A session with the Go analyzer in which [go build] cannot be started. *)
Definition goMissing : World :=
  with_validate
    (fun _ => Go_ValidateTestFile (Some toolError) "" None "" "")
    (with_http (fun _ => okReply)
       (with_coverage (fun _ => inl (reportAt 65%float)) quietWorld)).

Definition goMissingStart : State * World :=
  New GoAnalyzer cfgTwoPasses goMissing.

Lemma analyzerOutput_no_error out : analyzerOutput out -> snd out = None.
Proof.
  intros [[e|] ? ? ? ?|[e|] ? ? ? ?|? ? ?|? ? ?|? ? ?]; reflexivity.
Qed.

Lemma verdict_no_error out :
  snd out = None -> exists r, verdict out = inl r /\ Output r = snd (fst out).
Proof.
  destruct out as [[ok output] err]. cbn [fst snd]. intros ->.
  cbn [verdict]. destruct (_ || _ || _); [by eexists|].
  destruct ok; by eexists.
Qed.

Lemma failed_verdict output :
  exists r, verdict (false, output, None) = inl r
            /\ Success r = false /\ Output r = output
            /\ (ErrorMessage r = "Tests failed"
                \/ ErrorMessage r = "Compilation failed").
Proof.
  cbn [verdict]. destruct (_ || _ || _); eexists; (split; [reflexivity|]);
    cbn; auto.
Qed.

Lemma unrunnable_verdict out :
  unrunnable out ->
  exists r, verdict out = inl r /\ Success r = false
            /\ (ErrorMessage r = "Tests failed"
                \/ ErrorMessage r = "Compilation failed").
Proof.
  assert (forall output,
            exists r, verdict (false, output, None) = inl r
                      /\ Success r = false
                      /\ (ErrorMessage r = "Tests failed"
                          \/ ErrorMessage r = "Compilation failed")) as Hfail.
  { intros output. destruct (failed_verdict output) as (r & Hr & Hs & _ & Hm).
    by exists r. }
  intros [e bs ? ? ?|e bs ? ? ?|e so se|e so se|e so se]; apply Hfail.
Qed.

(** The heading that the Go and the Swift analyzer put before the messages
    of a build that failed is none of the texts the validator looks for. *)
Lemma build_failure_verdict bs :
  verdict (false, "Compilation failed: " +:+ bs, None)
  = inl (if saysCompilationFailed bs
         then mkResult false false false ("Compilation failed: " +:+ bs)
                "Compilation failed"
         else mkResult false true false ("Compilation failed: " +:+ bs)
                "Tests failed").
Proof.
  cbn [verdict].
  destruct (Contains_after_heading bs) as (-> & -> & -> & ->).
  unfold saysCompilationFailed. by destruct (_ || _ || _).
Qed.

Section Unrunnable.
Context `{GoLibrary} (analyzer : Analyzer) (cfg : Config).

(** C7, as the code has it.  No analyzer of the repository reports a tool
    chain that cannot be run as an error: every [ValidateTestFile] returns
    a nil error on every path, so [ValidateTest] always has a result and
    never its hard error.  A command that could not be run, or failed,
    gives [success = false] (for Go and Swift with the output
    [Compilation failed: ] and what the build wrote), which the validator
    takes for a clean failure: "Tests failed", or "Compilation
    failed" when the tool's own text has one of the texts looked for.
    [ValidateAndRetry] therefore spends its repairs on it, and the
    orchestrator puts the unit into [FailedFiles], saves the state and goes
    on with the next pass; [Run] returns from that pass only if saving
    fails, and the prioritizer never gives the unit out again.  The branch
    of [ValidateTest] for an error of the analyzer is not reached with
    these analyzers; an error returned there would be passed on by
    [ValidateAndRetry] without a repair and recorded by [Run] as a failed
    unit in the same way. *)
Theorem unrunnable_tool_is_a_clean_failure :
  (forall out, analyzerOutput out ->
     snd out = None
     /\ exists r, verdict out = inl r /\ Output r = snd (fst out))
  /\ (forall out, unrunnable out ->
        analyzerOutput out
        /\ exists r, verdict out = inl r /\ Success r = false
                     /\ (ErrorMessage r = "Tests failed"
                         \/ ErrorMessage r = "Compilation failed"))
  /\ (forall e buildStderr test stdout stderr,
        saysCompilationFailed buildStderr = false ->
        verdict (Go_ValidateTestFile (Some e) buildStderr test stdout stderr)
        = inl (mkResult false true false
                 ("Compilation failed: " +:+ buildStderr) "Tests failed")
        /\ verdict (Swift_ValidateTestFile (Some e) buildStderr
                      test stdout stderr)
           = inl (mkResult false true false
                    ("Compilation failed: " +:+ buildStderr) "Tests failed"))
  /\ (forall s w report item rest t,
        Cfg.DryRun cfg = false ->
        coverage_out w (measurements w) = inl report ->
        PrimFloat.leb (Cfg.TargetCoverage cfg) (Cov.TotalCoverage report)
        = false ->
        prioritizeWorkItems analyzer report s (files w) = item :: rest ->
        ctx_done w (polls w) = false ->
        fst (obtainTest analyzer cfg item
               (fst (measured s w report),
                snd (Sys.Done (snd (measured s w report))))) = inl t ->
        (forall i, (validations w <= i <= validations w + 3)%nat ->
           unrunnable (validate_out w i)) ->
        exists st s' w' msg,
          improve analyzer cfg (s, w) = (st, (s', w'))
          /\ FailedFiles s' = <[WI.SourceFile item := msg]> (FailedFiles s)
          /\ ProcessedFiles s' = ProcessedFiles s
          /\ (((msg = "Tests failed" \/ msg = "Compilation failed")
               /\ fixes w' = (fixes w + 2)%nat
               /\ validations w' = (validations w + 4)%nat)
              \/ (exists e, msg = Error (wrapError "validation error"
                                          (wrapError "failed to fix test" e))
                            /\ (fixes w < fixes w' <= fixes w + 2)%nat))
          /\ (st = Continue
              \/ exists e,
                   st = Return (Some (wrapError "failed to save state" e)))
          /\ (forall n analyzer' cfg' report' fs,
                WI.SourceFile item
                ∉ WI.SourceFile
                    <$> prioritizeWorkItems analyzer' report'
                          (fst (passes analyzer' cfg' n (s', w'))) fs))
  /\ (forall s w report item rest t ok out e,
        Cfg.DryRun cfg = false ->
        coverage_out w (measurements w) = inl report ->
        PrimFloat.leb (Cfg.TargetCoverage cfg) (Cov.TotalCoverage report)
        = false ->
        prioritizeWorkItems analyzer report s (files w) = item :: rest ->
        ctx_done w (polls w) = false ->
        fst (obtainTest analyzer cfg item
               (fst (measured s w report),
                snd (Sys.Done (snd (measured s w report))))) = inl t ->
        validate_out w (validations w) = (ok, out, Some e) ->
        ~ analyzerOutput (validate_out w (validations w))
        /\ verdict (ok, out, Some e) = inr (wrapError "validation error" e)
        /\ fst (ValidateAndRetry t 2 w)
           = Broken None (wrapError "validation error" e)
        /\ fixes (snd (ValidateAndRetry t 2 w)) = fixes w
        /\ exists st s' w',
             improve analyzer cfg (s, w) = (st, (s', w'))
             /\ FailedFiles s'
                = <[WI.SourceFile item :=
                      Error (wrapError "validation error"
                               (wrapError "validation error" e))]>
                    (FailedFiles s)
             /\ ProcessedFiles s' = ProcessedFiles s
             /\ fixes w' = fixes w
             /\ (st = Continue
                 \/ exists e',
                      st = Return (Some (wrapError "failed to save state" e')))).
Proof.
  split; [|split; [|split; [|split]]].
  - intros out Hout. pose proof (analyzerOutput_no_error out Hout) as Hnil.
    split; [exact Hnil|]. by apply verdict_no_error.
  - intros out Hout. split; [|by apply unrunnable_verdict].
    destruct Hout; constructor.
  - intros e bs test so se Hsays.
    cbn [Go_ValidateTestFile Swift_ValidateTestFile].
    rewrite build_failure_verdict, Hsays. done.
  - intros s w report item rest t Hdry Hcov Hleb Hprio Hctx Hmade Hnever.
    destruct (exhausted_pass analyzer cfg s w report item rest t
                Hdry Hcov Hleb Hprio Hctx Hmade)
      as (st & s' & w' & msg & Himp & Hf & Hp & Hmsg & Hst & Hex).
    { intros i Hi.
      destruct (unrunnable_verdict _ (Hnever i Hi)) as (r & Hr & Hs & _).
      by exists r. }
    exists st, s', w', msg. split; [exact Himp|]. split; [exact Hf|].
    split; [exact Hp|]. split; [|by split].
    destruct Hmsg as [(r & Hr & -> & Hfx & Hv)|(e & -> & Hfx & _)].
    + left. split; [|by split].
      destruct (unrunnable_verdict _ (Hnever (validations w + 3)%nat
                                        ltac:(lia)))
        as (r' & Hr' & _ & Hm).
      rewrite Hr in Hr'. by injection Hr' as <-.
    + right. by exists e.
  - intros s w report item rest t ok out e
      Hdry Hcov Hleb Hprio Hctx Hmade Hval.
    destruct (hard_error_pass analyzer cfg s w report item rest t ok out e
                Hdry Hcov Hleb Hprio Hctx Hmade Hval)
      as (Hverdict & Hpass & st & s' & w' & Himp & Hf & Hp & _ & Hfx & Hst & _).
    split.
    { intros Hout. apply analyzerOutput_no_error in Hout.
      by rewrite Hval in Hout. }
    split; [exact Hverdict|].
    destruct (Hpass 2 w Hval) as [Hres Hfix].
    split; [exact Hres|]. split; [exact Hfix|].
    exists st, s', w'. by repeat (split; [done|]).
Qed.
End Unrunnable.

(** The first pass of the session in which [go build] cannot be started:
    the unit is taken for one whose tests fail. *)
Lemma tool_missing_pass :
  (Cfg.DryRun cfgTwoPasses = false
   /\ forall i, unrunnable (validate_out (snd goMissingStart) i))
  /\ snd (validate_out goMissing 0%nat) = None
  /\ verdict (validate_out goMissing 0%nat)
     = inl (mkResult false true false "Compilation failed: " "Tests failed")
  /\ exists st s' w',
       improve GoAnalyzer cfgTwoPasses goMissingStart = (st, (s', w'))
       /\ st = Continue
       /\ FailedFiles s' !! "a.go" = Some "Tests failed"
       /\ ProcessedFiles s' = ∅
       /\ fixes w' = 2%nat
       /\ validations w' = 4%nat
       /\ "a.go" ∉ WI.SourceFile
                     <$> prioritizeWorkItems GoAnalyzer (reportAt 65%float)
                           s' (files w').
Proof.
  destruct (unrunnable_tool_is_a_clean_failure GoAnalyzer cfgTwoPasses)
    as (Hnil & _ & Hbuild & Hpass & _).
  assert (forall i, unrunnable (validate_out (snd goMissingStart) i)) as Hgo
    by (intros i; exact (GoUnrunnable toolError "" None "" "")).
  split; [split; [reflexivity|exact Hgo]|].
  split; [exact (proj1 (Hnil _ (GoOutput (Some toolError) "" None "" "")))|].
  split; [apply (Hbuild toolError "" None "" ""); reflexivity|].
  assert (prioritizeWorkItems GoAnalyzer (reportAt 65%float)
            (fst goMissingStart) (files (snd goMissingStart))
          = dryItem
            :: [WI.mkWorkItem "b.go" "b_test.go" 20%float [7] 80 false;
                WI.mkWorkItem "c.go" "c_test.go" 30%float [1; 2; 9] 70 false])
    as Hprio by (vm_compute; reflexivity).
  assert (fst (obtainTest GoAnalyzer cfgTwoPasses dryItem
                 (fst (measured (fst goMissingStart) (snd goMissingStart)
                         (reportAt 65%float)),
                  snd (Sys.Done
                         (snd (measured (fst goMissingStart)
                                 (snd goMissingStart) (reportAt 65%float))))))
          = inl "a_test.go") as Hmade by (vm_compute; reflexivity).
  destruct (Hpass (fst goMissingStart) (snd goMissingStart)
              (reportAt 65%float) dryItem _ "a_test.go"
              eq_refl eq_refl eq_refl Hprio eq_refl Hmade
              (fun i _ => Hgo i))
    as (st & s' & w' & msg & Himp & Hf & Hp & Hmsg & _ & Hex).
  rewrite <- surjective_pairing in Himp.
  assert (fst (improve GoAnalyzer cfgTwoPasses goMissingStart) = Continue
          /\ FailedFiles
               (fst (snd (improve GoAnalyzer cfgTwoPasses goMissingStart)))
             !! "a.go" = Some "Tests failed") as [Hgoes Hwhy]
    by (split; vm_compute; reflexivity).
  rewrite Himp in Hgoes, Hwhy. cbn [fst snd] in Hgoes, Hwhy.
  rewrite Hf, lookup_insert_eq in Hwhy. injection Hwhy as ->.
  exists st, s', w'.
  split; [exact Himp|]. split; [exact Hgoes|].
  split; [rewrite Hf; apply lookup_insert_eq|].
  split; [exact Hp|].
  destruct Hmsg as [(_ & Hfx & Hv)|(e & Hbad & _)].
  - split; [exact Hfx|]. split; [exact Hv|].
    exact (Hex 0%nat GoAnalyzer cfgTwoPasses (reportAt 65%float) (files w')).
  - vm_compute in Hbad. discriminate Hbad.
Defined.

(** C7 fails as stated: [go build] cannot be started, the analyzer returns no
    error, and the session takes both units it tries for units whose tests
    fail: it asks for two repairs of each, records both in [FailedFiles],
    goes through its two passes and ends without an error. *)
Lemma missing_tool_is_recorded_as_failed_unit :
  validate_out goMissing 0%nat
  = Go_ValidateTestFile (Some toolError) "" None "" ""
  /\ validate_out goMissing 0%nat = (false, "Compilation failed: ", None)
  /\ verdict (validate_out goMissing 0%nat)
     = inl (mkResult false true false "Compilation failed: " "Tests failed")
  /\ (let '(r, s, w) := main GoAnalyzer cfgTwoPasses false goMissing in
      r = Finished None
      /\ FailedFiles s !! "a.go" = Some "Tests failed"
      /\ FailedFiles s !! "b.go" = Some "Tests failed"
      /\ ProcessedFiles s = ∅
      /\ CurrentIteration s = 2
      /\ validations w = 8%nat
      /\ fixes w = 4%nat
      /\ requests w = 6%nat).
Proof. vm_compute. repeat split; reflexivity. Qed.
